(** * DSA Preparation Coach: session core, hint heuristic and problem parsers

    A shallow embedding of the JavaScript sources of the coaching application
    (the page component [app/page.js] with the [CodeEditor] and
    [ComplexityModal] components it renders, the agent classes under
    [lib/agents],
    the API routes [mentor], [hint], [automatic-hint], [run-code], [evaluate],
    [leetcode] and the [ProblemPanel] component), together with the properties
    the specification states about them.

    JavaScript strings are sequences of UTF-16 code units.  The embedding takes
    them as lists of code units below 256 (the Latin-1 range), on which
    [length], [trim], [toLowerCase], [includes], [split] and the regular
    expression classes [\s], [\d], [\w] and [.] are defined exactly as
    ECMAScript defines them. *)

From Stdlib Require Import List Ascii String Bool Arith PeanoNat ZArith Lia.
From Stdlib Require DecimalString.
Import ListNotations.

(** [length] is the length of a list throughout (not [String.length]). *)
#[local] Abbreviation length := Datatypes.length (only parsing).

(* ================================================================== *)
(** ** JavaScript strings *)
(* ================================================================== *)

Module JS.

Definition jsstring := list ascii.

Definition lit (s : string) : jsstring := list_ascii_of_string s.
Arguments lit s%_string.

Definition unit_in (lo hi : nat) (c : ascii) : bool :=
  (lo <=? nat_of_ascii c) && (nat_of_ascii c <=? hi).

Definition unit_is (n : nat) (c : ascii) : bool := nat_of_ascii c =? n.

(** LF and CR: the line terminators below 256 (what [.] refuses). *)
Definition isLineTerminator (c : ascii) : bool := unit_is 10 c || unit_is 13 c.

(** TAB, LF, VT, FF, CR, SP and NBSP: what [\s] accepts and [trim] strips. *)
Definition isSpace (c : ascii) : bool :=
  unit_in 9 13 c || unit_is 32 c || unit_is 160 c.

Definition isDigit (c : ascii) : bool := unit_in 48 57 c.

Definition isWord (c : ascii) : bool :=
  unit_in 65 90 c || unit_in 97 122 c || isDigit c || unit_is 95 c.

(** [toLowerCase] on one code unit: A-Z, and the Latin-1 capitals U+00C0 to
    U+00DE without the multiplication sign U+00D7. *)
Definition lowerUnit (c : ascii) : ascii :=
  if unit_in 65 90 c || (unit_in 192 222 c && negb (unit_is 215 c))
  then ascii_of_nat (nat_of_ascii c + 32)
  else c.

Definition toLowerCase (s : jsstring) : jsstring := map lowerUnit s.

(** A string is truthy when it is not empty. *)
Definition truthy (s : jsstring) : bool :=
  match s with [] => false | _ :: _ => true end.

Fixpoint trimStart (s : jsstring) : jsstring :=
  match s with
  | [] => []
  | c :: s' => if isSpace c then trimStart s' else s
  end.

Definition trimEnd (s : jsstring) : jsstring := rev (trimStart (rev s)).

Definition trim (s : jsstring) : jsstring := trimEnd (trimStart s).

Fixpoint startsWith (s p : jsstring) {struct p} : bool :=
  match p, s with
  | [], _ => true
  | _ :: _, [] => false
  | a :: p', b :: s' => Ascii.eqb a b && startsWith s' p'
  end.

(** [s.includes(p)] *)
Fixpoint includes (s p : jsstring) : bool :=
  startsWith s p ||
  match s with
  | [] => false
  | _ :: s' => includes s' p
  end.

(** [s.replace(p, r)] for a string pattern: the first occurrence only. *)
Fixpoint replace (s p r : jsstring) : jsstring :=
  if startsWith s p then r ++ skipn (length p) s
  else match s with
       | [] => []
       | c :: s' => c :: replace s' p r
       end.

(** [s.split(sep)] for a one-unit separator. *)
Fixpoint split (sep : ascii) (s : jsstring) : list jsstring :=
  match s with
  | [] => [[]]
  | c :: s' =>
      if Ascii.eqb c sep then [] :: split sep s'
      else match split sep s' with
           | [] => [[c]]
           | h :: t => (c :: h) :: t
           end
  end.

Definition LF : ascii := ascii_of_nat 10.

(** *** Values read from JSON

    What [JSON.parse] can deliver.  [JNull] also stands for a field that is
    absent ([undefined] on reading it).  Of a number only whether it is zero
    is ever read, so the integers stand for all numbers.  (No induction
    over values is needed, so no induction scheme is asked for.) *)
#[local] Unset Elimination Schemes.
Inductive json : Type :=
| JNull : json
| JBool : bool -> json
| JNumber : Z -> json
| JString : jsstring -> json
| JArray : list json -> json
| JObject : list (jsstring * json) -> json.
#[local] Set Elimination Schemes.

(** [if (v)], [v || w]: the truthiness of a value. *)
Definition truthyValue (v : json) : bool :=
  match v with
  | JNull => false
  | JBool b => b
  | JNumber n => negb (n =? 0)%Z
  | JString text => truthy text
  | JArray _ => true
  | JObject _ => true
  end.

(** *** Regular expressions used with [test]

    [r.test(s)] only asks whether some substring of [s] belongs to the
    language of [r], so the expressions are run by derivatives. *)

Inductive regex : Type :=
| Empty : regex
| Eps : regex
| Chr : (ascii -> bool) -> regex
| Seq : regex -> regex -> regex
| Alt : regex -> regex -> regex
| Star : regex -> regex.

Fixpoint nullable (r : regex) : bool :=
  match r with
  | Empty => false
  | Eps => true
  | Chr _ => false
  | Seq r1 r2 => nullable r1 && nullable r2
  | Alt r1 r2 => nullable r1 || nullable r2
  | Star _ => true
  end.

Fixpoint deriv (c : ascii) (r : regex) : regex :=
  match r with
  | Empty => Empty
  | Eps => Empty
  | Chr p => if p c then Eps else Empty
  | Seq r1 r2 =>
      if nullable r1 then Alt (Seq (deriv c r1) r2) (deriv c r2)
      else Seq (deriv c r1) r2
  | Alt r1 r2 => Alt (deriv c r1) (deriv c r2)
  | Star r1 => Seq (deriv c r1) (Star r1)
  end.

(** Some prefix of [s] matches [r]. *)
Fixpoint matchesPrefix (r : regex) (s : jsstring) : bool :=
  nullable r ||
  match s with
  | [] => false
  | c :: s' => matchesPrefix (deriv c r) s'
  end.

(** [r.test(s)]: a match starts at some position of [s]. *)
Fixpoint test (r : regex) (s : jsstring) : bool :=
  matchesPrefix r s ||
  match s with
  | [] => false
  | _ :: s' => test r s'
  end.

Definition Word (s : jsstring) : regex :=
  fold_right (fun c r => Seq (Chr (Ascii.eqb c)) r) Eps s.

Definition Plus (r : regex) : regex := Seq r (Star r).

Definition s_ : regex := Chr isSpace.
Definition w_ : regex := Chr isWord.

End JS.

Import JS.

(* ================================================================== *)
(** ** Data model *)
(* ================================================================== *)

(** A test case object.  [explanation] is present only on the cases the
    paste parser builds. *)
Record TestCase := mkTestCase {
  tc_id : nat;
  tc_input : jsstring;
  tc_expectedOutput : jsstring;
  tc_explanation : option jsstring
}.

(** [sessionState]: "approach", "coding" or "evaluation". *)
Inductive Phase := Approach | Coding | Evaluation.

(** [skillLevel]: "beginner", "intermediate" or "advanced". *)
Inductive SkillLevel := Beginner | Intermediate | Advanced.

Definition skillName (s : SkillLevel) : jsstring :=
  match s with
  | Beginner => lit "beginner"
  | Intermediate => lit "intermediate"
  | Advanced => lit "advanced"
  end.

Definition Phase_eqb (a b : Phase) : bool :=
  match a, b with
  | Approach, Approach | Coding, Coding | Evaluation, Evaluation => true
  | _, _ => false
  end.

(** A problem object; [testCases] and [constraints] may be absent. *)
Record Problem := mkProblem {
  p_id : jsstring;
  p_title : jsstring;
  p_description : jsstring;
  p_difficulty : jsstring;
  p_testCases : option (list TestCase);
  p_constraints : option jsstring
}.

(* ================================================================== *)
(** ** Effects: exceptions and the calls to the language model *)
(* ================================================================== *)

(** What a route sends to the model: the values interpolated into the
    prompt template (the fixed prose of the templates is left out). *)
Inductive Prompt :=
| ApproachPrompt (skill : SkillLevel) (problem : Problem) (message : jsstring)
| CodingPrompt (skill : SkillLevel) (problem : Problem) (message : jsstring)
    (language code : option jsstring)
| FeedbackPrompt (skill : SkillLevel) (problem : Problem) (message : jsstring)
| HintPrompt (skill : SkillLevel) (problem : Problem) (code : option jsstring)
    (sessionState : Phase)
| AutoHintPrompt (skill : SkillLevel) (problem : Problem)
    (language code : jsstring) (suggestions : list jsstring)
| RunPrompt (language code : jsstring) (testCases : list TestCase)
| EvaluatePrompt (skill : SkillLevel) (problem : Problem)
    (language code : jsstring) (hintsUsed : nat) (userApproach : jsstring)
    (timeComplexity spaceComplexity : jsstring)
| GreetingPrompt (skill : SkillLevel) (problem : Problem).

Inductive Exn :=
| NetworkError
| HttpError (status : nat)
| SyntaxError
| ReferenceError
| TypeError.

Inductive Result (A : Type) :=
| Ok (a : A)
| Throw (e : Exn).
Arguments Ok {A} a.
Arguments Throw {A} e.

(** A computation returns or throws, and leaves the list of prompts it sent
    to the model, oldest first. *)
Definition Comp (A : Type) : Type := (Result A * list Prompt)%type.

Definition ret {A} (a : A) : Comp A := (Ok a, []).

Definition throw {A} (e : Exn) : Comp A := (Throw e, []).

Definition bind {A B} (c : Comp A) (k : A -> Comp B) : Comp B :=
  match c with
  | (Ok a, sent) => let '(r, sent') := k a in (r, sent ++ sent')
  | (Throw e, sent) => (Throw e, sent)
  end.

(** [try { c } catch (e) { h e }] *)
Definition tryCatch {A} (c : Comp A) (h : Exn -> Comp A) : Comp A :=
  match c with
  | (Ok a, sent) => (Ok a, sent)
  | (Throw e, sent) => let '(r, sent') := h e in (r, sent ++ sent')
  end.

Notation "x <- c ;; k" := (bind c (fun x => k))
  (at level 61, c at next level, right associativity).

(** What happens to one request to the model endpoint: [fetch] rejects, the
    status is not ok, the body is not JSON, or the body is read and
    [data.candidates?.[0]?.content?.parts?.[0]?.text] is a string or
    missing. *)
Inductive GeminiOutcome :=
| FetchRejected
| NotOk (status : nat)
| BadJson
| Reply (text : option jsstring).

Definition Gemini := Prompt -> GeminiOutcome.

(** The [try] block shared by every route's [callGeminiAPI], up to the read
    of the generated text. *)
Definition generateContent (gemini : Gemini) (prompt : Prompt)
  : Comp (option jsstring) :=
  match gemini prompt with
  | FetchRejected => (Throw NetworkError, [prompt])
  | NotOk status => (Throw (HttpError status), [prompt])
  | BadJson => (Throw SyntaxError, [prompt])
  | Reply text => (Ok text, [prompt])
  end.

(** [text || fallback] *)
Definition orElse (text : option jsstring) (fallback : jsstring) : jsstring :=
  match text with
  | Some t => if truthy t then t else fallback
  | None => fallback
  end.

(** What the page sees of a [fetch] to one of the application's routes
    followed by [response.json()]. *)
Inductive Fetched (A : Type) :=
| FetchFailed
| Json (data : A).
Arguments FetchFailed {A}.
Arguments Json {A} data.

(* ================================================================== *)
(** ** [app/api/mentor/route.js] *)
(* ================================================================== *)

Module Mentor.

Definition callGeminiAPI (gemini : Gemini) (prompt : Prompt) : Comp jsstring :=
  tryCatch
    (text <- generateContent gemini prompt ;;
     ret (orElse text (lit "Sorry, I could not generate a response.")))
    (fun _ => ret (lit "I apologize, but I encountered an error. Please try again.")).

Definition shouldUnlockEditor (response approach : jsstring) : bool :=
  includes response (lit "UNLOCK_EDITOR")
  || (30 <? length approach)
  || includes (toLowerCase response) (lit "good approach")
  || includes (toLowerCase response) (lit "correct")
  || includes (toLowerCase response) (lit "ready to code")
  || includes (toLowerCase response) (lit "start coding")
  || includes (toLowerCase response) (lit "implement").

(** The request body, as far as the route reads it. *)
Record Request := mkRequest {
  mq_message : jsstring;
  mq_problem : option Problem;
  mq_skillLevel : SkillLevel;
  mq_sessionState : Phase;
  mq_code : option jsstring;
  mq_language : option jsstring
}.

Record Response := mkResponse {
  mr_status : nat;
  mr_success : bool;
  mr_response : option jsstring;
  mr_unlockEditor : option bool;
  mr_newState : option Phase;
  mr_error : option jsstring
}.

Definition failure (status : nat) (error : jsstring) : Response :=
  {| mr_status := status; mr_success := false; mr_response := None;
     mr_unlockEditor := None; mr_newState := None; mr_error := Some error |}.

Definition promptFor (rq : Request) (problem : Problem) : Prompt :=
  match mq_sessionState rq with
  | Approach => ApproachPrompt (mq_skillLevel rq) problem (mq_message rq)
  | Coding =>
      CodingPrompt (mq_skillLevel rq) problem (mq_message rq)
        (mq_language rq) (mq_code rq)
  | Evaluation => FeedbackPrompt (mq_skillLevel rq) problem (mq_message rq)
  end.

Definition POST (gemini : Gemini) (rq : Request) : Comp Response :=
  tryCatch
    (match mq_problem rq with
     | Some problem =>
         if truthy (mq_message rq) then
           response <- callGeminiAPI gemini (promptFor rq problem) ;;
           let shouldUnlock :=
             Phase_eqb (mq_sessionState rq) Approach
             && shouldUnlockEditor response (mq_message rq) in
           ret {| mr_status := 200;
                  mr_success := true;
                  mr_response :=
                    Some (trim (replace response (lit "UNLOCK_EDITOR") []));
                  mr_unlockEditor := Some shouldUnlock;
                  mr_newState :=
                    Some (if shouldUnlock then Coding else mq_sessionState rq);
                  mr_error := None |}
         else ret (failure 400 (lit "Message and problem are required"))
     | None => ret (failure 400 (lit "Message and problem are required"))
     end)
    (fun _ => ret (failure 500 (lit "Failed to get mentor response"))).

End Mentor.

(* ================================================================== *)
(** ** [app/api/hint/route.js] *)
(* ================================================================== *)

Module Hint.

Definition callGeminiAPI (gemini : Gemini) (prompt : Prompt) : Comp jsstring :=
  tryCatch
    (text <- generateContent gemini prompt ;;
     ret (orElse text (lit "Try breaking down the problem into smaller steps.")))
    (fun _ =>
       ret (lit "Consider what data structure might help you solve this efficiently.")).

Definition FALLBACK_HINTS (skillLevel : SkillLevel) : list jsstring :=
  match skillLevel with
  | Beginner =>
      [ lit "Think about what data structure could help you store and retrieve information quickly";
        lit "Consider if you need to check every possible combination or if there's a smarter way";
        lit "What information do you need to keep track of as you go through the problem?";
        lit "Try to break the problem into smaller, simpler steps" ]
  | Intermediate =>
      [ lit "What's the time complexity of your current approach? Can you do better?";
        lit "Consider using a hash map to reduce lookup time";
        lit "Think about whether sorting the input first might help";
        lit "Are there any patterns or mathematical properties you can exploit?" ]
  | Advanced =>
      [ lit "Can you achieve better than O(n" ++ [ascii_of_nat 178]
          ++ lit ") time complexity?";
        lit "Consider if this problem has optimal substructure for dynamic programming";
        lit "Think about space-time trade-offs in your approach";
        lit "Are there any advanced data structures that could optimize this?" ]
  end.

Record Request := mkRequest {
  hq_problem : option Problem;
  hq_skillLevel : SkillLevel;
  hq_code : option jsstring;
  hq_sessionState : Phase;
  hq_hintsUsed : option nat
}.

(** [success] is absent from the error bodies, [hint] from all but the
    successful ones; a [hint] of [None] is [undefined]. *)
Record Response := mkResponse {
  hr_status : nat;
  hr_success : option bool;
  hr_hint : option jsstring;
  hr_error : option jsstring
}.

Definition hinted (hint : option jsstring) : Response :=
  {| hr_status := 200; hr_success := Some true; hr_hint := hint;
     hr_error := None |}.

Definition failure (status : nat) (error : jsstring) : Response :=
  {| hr_status := status; hr_success := None; hr_hint := None;
     hr_error := Some error |}.

(** The inner [try] block. *)
Definition askModel (gemini : Gemini) (rq : Request) (problem : Problem)
  : Comp Response :=
  hint <- callGeminiAPI gemini
            (HintPrompt (hq_skillLevel rq) problem (hq_code rq)
               (hq_sessionState rq)) ;;
  ret (hinted (Some hint)).

(** The inner [catch] block: [hints[hintsUsed % hints.length]]. *)
Definition predefinedHint (rq : Request) (_ : Exn) : Comp Response :=
  let hints := FALLBACK_HINTS (hq_skillLevel rq) in
  let hint :=
    match hq_hintsUsed rq with
    | Some used => nth_error hints (used mod length hints)
    | None => None
    end in
  ret (hinted hint).

Definition POST (gemini : Gemini) (rq : Request) : Comp Response :=
  tryCatch
    (match hq_problem rq with
     | None => ret (failure 400 (lit "Problem is required"))
     | Some problem => tryCatch (askModel gemini rq problem) (predefinedHint rq)
     end)
    (fun _ => ret (failure 500 (lit "Failed to generate hint"))).

End Hint.

(* ================================================================== *)
(** ** [app/api/automatic-hint/route.js] *)
(* ================================================================== *)

Module AutomaticHint.

Definition callGeminiAPI (gemini : Gemini) (prompt : Prompt) : Comp jsstring :=
  tryCatch
    (text <- generateContent gemini prompt ;; ret (orElse text []))
    (fun _ => ret []).

Record Analysis := mkAnalysis {
  hasFunction : bool;
  hasLoop : bool;
  hasConditional : bool;
  hasReturn : bool;
  hasVariables : bool;
  hasComments : bool;
  linesOfCode : nat;
  totalLength : nat;
  isEmpty : bool;
  isJustStarting : bool;
  hasBasicStructure : bool;
  isWellDeveloped : bool
}.

(** [/function\s+\w+|def\s+\w+|public\s+\w+/] *)
Definition reFunction : regex :=
  Alt (Seq (Word (lit "function")) (Seq (Plus s_) (Plus w_)))
      (Alt (Seq (Word (lit "def")) (Seq (Plus s_) (Plus w_)))
           (Seq (Word (lit "public")) (Seq (Plus s_) (Plus w_)))).

(** [/for\s*\(|while\s*\(|for\s+\w+\s+in/] *)
Definition reLoop : regex :=
  Alt (Seq (Word (lit "for")) (Seq (Star s_) (Word (lit "("))))
      (Alt (Seq (Word (lit "while")) (Seq (Star s_) (Word (lit "("))))
           (Seq (Word (lit "for"))
              (Seq (Plus s_) (Seq (Plus w_) (Seq (Plus s_) (Word (lit "in"))))))).

(** [/if\s*\(/] *)
Definition reConditional : regex :=
  Seq (Word (lit "if")) (Seq (Star s_) (Word (lit "("))).

(** [/return\s+/] *)
Definition reReturn : regex := Seq (Word (lit "return")) (Plus s_).

(** [/let\s+\w+|const\s+\w+|var\s+\w+|\w+\s*=/] *)
Definition reVariables : regex :=
  Alt (Seq (Word (lit "let")) (Seq (Plus s_) (Plus w_)))
      (Alt (Seq (Word (lit "const")) (Seq (Plus s_) (Plus w_)))
           (Alt (Seq (Word (lit "var")) (Seq (Plus s_) (Plus w_)))
                (Seq (Plus w_) (Seq (Star s_) (Word (lit "=")))))).

(** [/\/\/|\/\*|#/] *)
Definition reComments : regex :=
  Alt (Word (lit "//")) (Alt (Word (lit "/*")) (Word (lit "#"))).

Definition analyzeCodeProgress (code : jsstring) (problem : Problem) : Analysis :=
  let codeLines :=
    filter (fun line => 0 <? length (trim line)) (split LF code) in
  let codeLength := length (trim code) in
  {| hasFunction := test reFunction code;
     hasLoop := test reLoop code;
     hasConditional := test reConditional code;
     hasReturn := test reReturn code;
     hasVariables := test reVariables code;
     hasComments := test reComments code;
     linesOfCode := length codeLines;
     totalLength := codeLength;
     isEmpty := codeLength <? 20;
     isJustStarting := codeLength <? 50;
     hasBasicStructure := (50 <? codeLength) && (codeLength <? 200);
     isWellDeveloped := 200 <? codeLength |}.

(** The stage-based hints: the [if] / [else if] chain on the analysis. *)
Definition stageHints (analysis : Analysis) (problem : Problem) : list jsstring :=
  if isJustStarting analysis then
    [ lit "Start by understanding the input and expected output format";
      lit "Think about what data structure would be most helpful here";
      lit "Consider writing the function signature first" ]
  else if hasBasicStructure analysis then
    (if negb (hasLoop analysis)
        && includes (toLowerCase (p_description problem)) (lit "array")
     then [lit "You might need to iterate through the array"] else [])
    ++ (if negb (hasConditional analysis)
        then [lit "Consider what conditions you need to check"] else [])
    ++ (if negb (hasReturn analysis)
        then [lit "Don't forget to return the result"] else [])
  else if isWellDeveloped analysis then
    [ lit "Test your logic with the given examples";
      lit "Consider edge cases like empty inputs";
      lit "Think about the time complexity of your approach" ]
  else [].

Definition skillHints (skillLevel : SkillLevel) : list jsstring :=
  match skillLevel with
  | Beginner => [lit "Take it step by step - you're doing great!"]
  | Advanced => [lit "Can you optimize this further?"]
  | Intermediate => []
  end.

(** The problem-specific block reads [code], which is neither a parameter
    nor a variable of the module: evaluating [code.includes("Map")] throws a
    ReferenceError, so the function throws as soon as the title mentions
    "two sum". *)
Definition getContextualHints (analysis : Analysis) (problem : Problem)
    (skillLevel : SkillLevel) : Result (list jsstring) :=
  if isEmpty analysis then Ok []
  else
    let hints := stageHints analysis problem in
    if includes (toLowerCase (p_title problem)) (lit "two sum")
    then Throw ReferenceError
    else Ok (hints ++ skillHints skillLevel).

Record Request := mkRequest {
  aq_code : jsstring;
  aq_problem : option Problem;
  aq_skillLevel : SkillLevel;
  aq_language : jsstring;
  aq_sessionState : Phase
}.

Record Response := mkResponse {
  ar_success : bool;
  ar_hint : jsstring
}.

Definition noHint : Response := {| ar_success := false; ar_hint := [] |}.

Definition isQuote (c : ascii) : bool := unit_is 34 c || unit_is 39 c.

(** [hint.replace(/^["']|["']$/g, "")]: one quote off the front, then one
    off the end of what is left. *)
Definition stripQuotes (hint : jsstring) : jsstring :=
  let front :=
    match hint with
    | c :: rest => if isQuote c then rest else hint
    | [] => []
    end in
  match rev front with
  | c :: rest => if isQuote c then rev rest else front
  | [] => []
  end.

(** [draw] stands for [Math.random()]: the index
    [Math.floor(Math.random() * n)] is [draw mod n], any index below [n]. *)
Definition POST (gemini : Gemini) (draw : nat) (rq : Request) : Comp Response :=
  tryCatch
    (match aq_problem rq with
     | None => ret noHint
     | Some problem =>
         if negb (truthy (aq_code rq))
            || negb (Phase_eqb (aq_sessionState rq) Coding)
         then ret noHint
         else
           let analysis := analyzeCodeProgress (aq_code rq) problem in
           match getContextualHints analysis problem (aq_skillLevel rq) with
           | Throw e => throw e
           | Ok contextualHints =>
               if length contextualHints =? 0 then ret noHint
               else
                 hint <- callGeminiAPI gemini
                           (AutoHintPrompt (aq_skillLevel rq) problem
                              (aq_language rq) (aq_code rq) contextualHints) ;;
                 let cleanHint := stripQuotes (trim hint) in
                 if negb (truthy cleanHint)
                    || (length cleanHint <? 10)
                    || includes (toLowerCase cleanHint) (lit "hint:")
                 then
                   ret {| ar_success := true;
                          ar_hint := nth (draw mod length contextualHints)
                                       contextualHints [] |}
                 else ret {| ar_success := true; ar_hint := cleanHint |}
           end
     end)
    (fun _ => ret noHint).

End AutomaticHint.

(* ================================================================== *)
(** ** [app/api/run-code/route.js] *)
(* ================================================================== *)

Module RunCode.

(** This copy of the wrapper rethrows. *)
Definition callGeminiAPI (gemini : Gemini) (prompt : Prompt) : Comp jsstring :=
  tryCatch
    (text <- generateContent gemini prompt ;; ret (orElse text []))
    (fun error => throw error).

(** The [error] text of a result the route builds itself: one of the fixed
    texts of the source, or "Execution failed: " followed by
    [error.message].  The message of an error the engine raises is worded
    by the engine, so it is kept as the error it belongs to. *)
Inductive ErrorText :=
| CouldNotSimulate
| ExecutionFailed (error : Exn).

(** [{ input, expected, actual, passed, error }], as [executeCode] builds
    it for a test case. *)
Record TestResult := mkTestResult {
  tr_input : jsstring;
  tr_expected : jsstring;
  tr_actual : jsstring;
  tr_passed : bool;
  tr_error : ErrorText
}.

(** A [results] value: the array [executeCode] builds itself, or whatever
    the model's answer holds in that field. *)
Inductive Results :=
| Listed (results : list TestResult)
| FromModel (value : json).

Definition truthyResults (r : Results) : bool :=
  match r with
  | Listed _ => true
  | FromModel value => truthyValue value
  end.

(** What [executeCode] returns, as far as the route reads it: the fields
    [results] and [allPassed].  In the object parsed from the model's
    answer they are unvalidated JSON values. *)
Record Execution := mkExecution {
  ex_results : Results;
  ex_allPassed : json
}.

(** [response.match(/\{[\s\S]*\}/)] followed by [JSON.parse]: no brace pair
    in the text, a brace pair that is not JSON, or a parsed object. *)
Inductive Extracted :=
| NoJson
| NotJson
| Parsed (result : Execution).

(** [problem.testCases || []] as the body may hold it: an array, whose
    entries are test case objects or [null]; or another truthy value, with
    its [length] when it has a numeric one. *)
Inductive Cases :=
| Array (items : list (option TestCase))
| NotArray (length : option nat).

(** [testCases.length] *)
Definition lengthOf (testCases : Cases) : option nat :=
  match testCases with
  | Array items => Some (length items)
  | NotArray length => length
  end.

(** [testCases.map((tc) => ... tc.input ... tc.expectedOutput ...)]: the
    test cases the template reads.  Reading a field of [null], or calling
    [map] on a value that has none, throws a TypeError. *)
Fixpoint objects (items : list (option TestCase)) : option (list TestCase) :=
  match items with
  | [] => Some []
  | None :: _ => None
  | Some tc :: rest => option_map (cons tc) (objects rest)
  end.

Definition readCases (testCases : Cases) : option (list TestCase) :=
  match testCases with
  | Array items => objects items
  | NotArray _ => None
  end.

Definition failedResults (testCases : list TestCase) (actual : jsstring)
    (error : ErrorText) : Execution :=
  {| ex_results :=
       Listed
         (map (fun tc => {| tr_input := tc_input tc;
                            tr_expected := tc_expectedOutput tc;
                            tr_actual := actual;
                            tr_passed := false;
                            tr_error := error |}) testCases);
     ex_allPassed := JBool false |}.

(** The prompt is built in front of the [try] block, so what building it
    throws leaves the function. *)
Definition executeCode (gemini : Gemini) (extract : jsstring -> Extracted)
    (code : jsstring) (testCases : Cases) (language : jsstring)
  : Comp Execution :=
  match readCases testCases with
  | None => throw TypeError
  | Some cases =>
      tryCatch
        (response <- callGeminiAPI gemini (RunPrompt language code cases) ;;
         match extract response with
         | Parsed result => ret result
         | NotJson => throw SyntaxError
         | NoJson =>
             ret (failedResults cases (lit "Simulation failed") CouldNotSimulate)
         end)
        (fun error =>
           ret (failedResults cases (lit "Error") (ExecutionFailed error)))
  end.

(** The body as the route may receive it: [code] and [language] are
    strings; [problem] is absent, or an object whose [testCases] is falsy
    ([None]) or one of the values above. *)
Record Body := mkBody {
  b_code : jsstring;
  b_language : jsstring;
  b_problem : option (option Cases);
  b_skillLevel : SkillLevel
}.

(** [results] is absent from the error bodies and when the execution
    holds none. *)
Record Response := mkResponse {
  rr_status : nat;
  rr_success : bool;
  rr_results : option Results;
  rr_allPassed : json;
  rr_error : option jsstring
}.

Definition failure (status : nat) (error : jsstring) : Response :=
  {| rr_status := status; rr_success := false; rr_results := None;
     rr_allPassed := JNull; rr_error := Some error |}.

(** [POST] on any such body. *)
Definition respond (gemini : Gemini) (extract : jsstring -> Extracted)
    (body : Body) : Comp Response :=
  tryCatch
    (match b_problem body with
     | Some problemTestCases =>
         if truthy (b_code body) && truthy (b_language body) then
           let testCases :=
             match problemTestCases with
             | Some cases => cases
             | None => Array []
             end in
           match lengthOf testCases with
           | Some 0 =>
               ret (failure 400 (lit "No test cases available for this problem"))
           | _ =>
               executionResult <-
                 executeCode gemini extract (b_code body) testCases
                   (b_language body) ;;
               ret {| rr_status := 200;
                      rr_success := true;
                      rr_results := Some (ex_results executionResult);
                      rr_allPassed := ex_allPassed executionResult;
                      rr_error := None |}
           end
         else ret (failure 400 (lit "Code, language, and problem are required"))
     | None => ret (failure 400 (lit "Code, language, and problem are required"))
     end)
    (fun _ => ret (failure 500 (lit "Failed to run code"))).

(** The body the page sends: its [problem] state, whose test cases are
    the test case objects a parser of the application built. *)
Record Request := mkRequest {
  rq_code : jsstring;
  rq_language : jsstring;
  rq_problem : option Problem;
  rq_skillLevel : SkillLevel
}.

Definition bodyOf (rq : Request) : Body :=
  {| b_code := rq_code rq;
     b_language := rq_language rq;
     b_problem :=
       option_map
         (fun problem =>
            option_map (fun cases => Array (map Some cases))
              (p_testCases problem))
         (rq_problem rq);
     b_skillLevel := rq_skillLevel rq |}.

(** [POST] on a request of the page. *)
Definition POST (gemini : Gemini) (extract : jsstring -> Extracted)
    (rq : Request) : Comp Response :=
  respond gemini extract (bodyOf rq).

End RunCode.

(* ================================================================== *)
(** ** [app/api/evaluate/route.js] *)
(* ================================================================== *)

Module Evaluate.

Definition callGeminiAPI (gemini : Gemini) (prompt : Prompt) : Comp jsstring :=
  tryCatch
    (text <- generateContent gemini prompt ;;
     ret (orElse text (lit "Great job completing the solution!")))
    (fun _ =>
       ret (lit "Great job completing the solution! Keep practicing to improve your skills.")).

(** The two complexity estimates are absent from the body the
    [EvaluationAgent] sends. *)
Record Request := mkRequest {
  eq_code : jsstring;
  eq_language : jsstring;
  eq_problem : option Problem;
  eq_skillLevel : SkillLevel;
  eq_hintsUsed : nat;
  eq_userApproach : jsstring;
  eq_timeComplexity : option jsstring;
  eq_spaceComplexity : option jsstring
}.

Record Response := mkResponse {
  er_status : nat;
  er_success : bool;
  er_evaluation : option jsstring;
  er_error : option jsstring
}.

Definition failure (status : nat) (error : jsstring) : Response :=
  {| er_status := status; er_success := false; er_evaluation := None;
     er_error := Some error |}.

(** [!value] for a field that is a string when present. *)
Definition present (value : option jsstring) : option jsstring :=
  match value with
  | Some v => if truthy v then Some v else None
  | None => None
  end.

Definition POST (gemini : Gemini) (rq : Request) : Comp Response :=
  tryCatch
    (match eq_problem rq, present (eq_timeComplexity rq),
           present (eq_spaceComplexity rq) with
     | Some problem, Some timeComplexity, Some spaceComplexity =>
         if truthy (eq_code rq) then
           evaluation <-
             callGeminiAPI gemini
               (EvaluatePrompt (eq_skillLevel rq) problem (eq_language rq)
                  (eq_code rq) (eq_hintsUsed rq) (eq_userApproach rq)
                  timeComplexity spaceComplexity) ;;
           ret {| er_status := 200; er_success := true;
                  er_evaluation := Some evaluation; er_error := None |}
         else ret (failure 400 (lit "Code, problem, and complexity analysis are required"))
     | _, _, _ =>
         ret (failure 400 (lit "Code, problem, and complexity analysis are required"))
     end)
    (fun _ => ret (failure 500 (lit "Failed to evaluate solution"))).

End Evaluate.

(* ================================================================== *)
(** ** [app/api/initial-greeting/route.js] *)
(* ================================================================== *)

Module Greeting.

Definition callGeminiAPI (gemini : Gemini) (prompt : Prompt) : Comp jsstring :=
  tryCatch
    (text <- generateContent gemini prompt ;;
     ret (orElse text (lit "Let's work on this problem together!")))
    (fun _ => ret (lit "Great! Let's tackle this problem step by step.")).

Record Response := mkResponse {
  gr_success : bool;
  gr_message : option jsstring
}.

Definition POST (gemini : Gemini) (problem : option Problem)
    (skillLevel : SkillLevel) : Comp Response :=
  tryCatch
    (match problem with
     | None => ret {| gr_success := false; gr_message := None |}
     | Some p =>
         message <- callGeminiAPI gemini (GreetingPrompt skillLevel p) ;;
         ret {| gr_success := true; gr_message := Some message |}
     end)
    (fun _ => ret {| gr_success := false; gr_message := None |}).

End Greeting.

(* ================================================================== *)
(** ** [app/api/leetcode/route.js]: [parseTestCases], [cleanHtmlContent] *)
(* ================================================================== *)

Module Leetcode.

(** [testCaseString.split("\n").filter((line) => line.trim())] *)
Definition nonBlankLines (testCaseString : jsstring) : list jsstring :=
  filter (fun line => truthy (trim line)) (split LF testCaseString).

Definition caseAt (lines : list jsstring) (i : nat) : TestCase :=
  {| tc_id := i / 2 + 1;
     tc_input := trim (nth i lines []);
     tc_expectedOutput := trim (nth (i + 1) lines []);
     tc_explanation := None |}.

(** [for (let i = 0; i < lines.length; i += 2) { if (i + 1 < lines.length)
    testCases.push(...) }].  The loop is driven by [fuel]; [loop_fuel_enough]
    below shows that [length lines] iterations reach the exit test. *)
Fixpoint loop (fuel i : nat) (lines : list jsstring) (testCases : list TestCase)
  : list TestCase :=
  match fuel with
  | 0 => testCases
  | S fuel' =>
      if i <? length lines then
        let testCases' :=
          if i + 1 <? length lines then testCases ++ [caseAt lines i]
          else testCases in
        loop fuel' (i + 2) lines testCases'
      else testCases
  end.

(** The argument is [None] for an absent ([null] or [undefined]) string.
    Nothing inside the [try] block can throw on a string, so the [catch]
    branch has no counterpart here. *)
Definition parseTestCases (testCaseString : option jsstring) : list TestCase :=
  match testCaseString with
  | None => []
  | Some s =>
      if negb (truthy s) then []
      else let lines := nonBlankLines s in loop (length lines) 0 lines []
  end.

(** *** [cleanHtmlContent] *)

Definition isLt (c : ascii) : bool := Ascii.eqb c "<".
Definition isGt (c : ascii) : bool := Ascii.eqb c ">".

(** [html.replace(/<[^>]*>/g, "")]: a "<" that some later ">" closes is
    dropped together with everything up to the first such ">"; the search
    goes on behind it.  [inTag] holds inside a match. *)
Fixpoint stripTags (html : jsstring) (inTag : bool) : jsstring :=
  match html with
  | [] => []
  | c :: rest =>
      if inTag then
        if isGt c then stripTags rest false else stripTags rest true
      else if isLt c && existsb isGt rest then stripTags rest true
      else c :: stripTags rest false
  end.

(** [s.replace(/entity/g, r)] for a pattern without metacharacters: every
    occurrence, from left to right, none overlapping the one before.
    [skip] counts the units of the current match still to drop. *)
Fixpoint replaceAll (entity r s : jsstring) (skip : nat) : jsstring :=
  match s with
  | [] => []
  | c :: rest =>
      match skip with
      | S k => replaceAll entity r rest k
      | 0 =>
          if startsWith s entity
          then r ++ replaceAll entity r rest (length entity - 1)
          else c :: replaceAll entity r rest 0
      end
  end.

Definition cleanHtmlContent (html : jsstring) : jsstring :=
  let s := stripTags html false in
  let s := replaceAll (lit "&nbsp;") (lit " ") s 0 in
  let s := replaceAll (lit "&lt;") (lit "<") s 0 in
  let s := replaceAll (lit "&gt;") (lit ">") s 0 in
  let s := replaceAll (lit "&amp;") (lit "&") s 0 in
  let s := replaceAll (lit "&quot;") [ascii_of_nat 34] s 0 in
  trim s.

End Leetcode.

(* ================================================================== *)
(** ** [components/ProblemPanel.js]: the paste parser *)
(* ================================================================== *)

Module ProblemPanel.

(** After "Example ": [\d+:], counting the units it takes. *)
Fixpoint digitsColon (s : jsstring) (digits : nat) : option nat :=
  match s with
  | [] => None
  | c :: s' =>
      if isDigit c then digitsColon s' (S digits)
      else if Ascii.eqb c ":" && (0 <? digits) then Some (S digits)
      else None
  end.

(** [/Example \d+:/] anchored at the start of [s]: the length of the match. *)
Definition headerLength (s : jsstring) : option nat :=
  if startsWith s (lit "Example ")
  then option_map (Nat.add 8) (digitsColon (skipn 8 s) 0)
  else None.

Definition emit (current : option jsstring) : list jsstring :=
  match current with
  | Some m => [m]
  | None => []
  end.

(** [text.match(/Example \d+:[\s\S]*?(?=Example \d+:|$)/g)], one code unit
    at a time.  [current] is the match under construction, [inHeader] the
    number of units of its header still to take.  Outside a header the lazy
    body stops where the lookahead holds: in front of the next header, where
    the next match then starts, or at the end of the text. *)
Fixpoint scan (s : jsstring) (inHeader : nat) (current : option jsstring)
  : list jsstring :=
  match s with
  | [] => emit current
  | c :: s' =>
      match inHeader with
      | S k => scan s' k (option_map (fun m => m ++ [c]) current)
      | 0 =>
          match headerLength s with
          | Some n => emit current ++ scan s' (n - 1) (Some [c])
          | None => scan s' 0 (option_map (fun m => m ++ [c]) current)
          end
      end
  end.

(** [text.match(...) || []] *)
Definition exampleBlocks (text : jsstring) : list jsstring := scan text 0 None.

Fixpoint takeLine (s : jsstring) : jsstring :=
  match s with
  | [] => []
  | c :: s' => if isLineTerminator c then [] else c :: takeLine s'
  end.

(** [(.+)] anchored at [s]: the longest run without a line terminator,
    which must not be empty. *)
Definition dotPlus (s : jsstring) : option jsstring :=
  match takeLine s with
  | [] => None
  | capture => Some capture
  end.

(** [\s*(.+)] anchored at [s].  The greedy star takes a space when it can
    and gives it back when the rest then fails. *)
Fixpoint spacesThenDotPlus (s : jsstring) : option jsstring :=
  match s with
  | [] => None
  | c :: s' =>
      if isSpace c then
        match spacesThenDotPlus s' with
        | Some capture => Some capture
        | None => dotPlus s
        end
      else dotPlus s
  end.

(** [example.match(/<label>\s*(.+)/i)] for a lower-case [label]: the capture
    of the leftmost match. *)
Fixpoint matchLabel (label s : jsstring) : option jsstring :=
  match
    (if startsWith (toLowerCase s) label
     then spacesThenDotPlus (skipn (length label) s)
     else None)
  with
  | Some capture => Some capture
  | None =>
      match s with
      | [] => None
      | _ :: s' => matchLabel label s'
      end
  end.

(** The text in front of the first occurrence of [sep] (all of [s] when
    there is none), and the text behind it. *)
Fixpoint before (sep s : jsstring) : jsstring :=
  if startsWith s sep then []
  else match s with
       | [] => []
       | c :: s' => c :: before sep s'
       end.

Fixpoint behind (sep s : jsstring) : option jsstring :=
  if startsWith s sep then Some (skipn (length sep) s)
  else match s with
       | [] => None
       | _ :: s' => behind sep s'
       end.

(** [example.includes("Explanation:") ?
     example.split("Explanation:")[1]?.trim() : ""] *)
Definition explanationOf (example : jsstring) : jsstring :=
  match behind (lit "Explanation:") example with
  | Some rest => trim (before (lit "Explanation:") rest)
  | None => []
  end.

Definition captureOrEmpty (m : option jsstring) : jsstring :=
  match m with
  | Some capture => trim capture
  | None => []
  end.

Definition parseExample (index : nat) (example : jsstring) : TestCase :=
  let inputMatch := matchLabel (lit "input:") example in
  let outputMatch := matchLabel (lit "output:") example in
  {| tc_id := index + 1;
     tc_input := captureOrEmpty inputMatch;
     tc_expectedOutput := captureOrEmpty outputMatch;
     tc_explanation := Some (explanationOf example) |}.

(** [examples.map((example, index) => ...)] *)
Fixpoint mapi {A B} (f : nat -> A -> B) (index : nat) (l : list A) : list B :=
  match l with
  | [] => []
  | a :: l' => f index a :: mapi f (S index) l'
  end.

Definition generateTestCases (text : jsstring) : list TestCase :=
  mapi parseExample 0 (exampleBlocks text).

(** [/Constraints?:([\s\S]*?)(?=\n\n|$)/i] *)
Fixpoint constraintsMatch (s : jsstring) : option jsstring :=
  if startsWith (toLowerCase s) (lit "constraints:")
  then Some (before [LF; LF] (skipn 12 s))
  else if startsWith (toLowerCase s) (lit "constraint:")
  then Some (before [LF; LF] (skipn 11 s))
  else match s with
       | [] => None
       | _ :: s' => constraintsMatch s'
       end.

Definition extractConstraints (text : jsstring) : jsstring :=
  captureOrEmpty (constraintsMatch text).

(** The problem handed to [onProblemLoad], or [None] when the handler
    returns at once on a blank text. *)
Definition handlePasteProblem (problemText : jsstring) (skillLevel : SkillLevel)
  : option Problem :=
  if negb (truthy (trim problemText)) then None
  else
    let lines := split LF problemText in
    let title :=
      match lines with
      | first :: _ => if truthy first then first else lit "Custom Problem"
      | [] => lit "Custom Problem"
      end in
    Some {| p_id := lit "custom";
            p_title := title;
            p_description := problemText;
            p_difficulty := skillName skillLevel;
            p_testCases := Some (generateTestCases problemText);
            p_constraints := Some (extractConstraints problemText) |}.

End ProblemPanel.

(* ================================================================== *)
(** ** [components/ComplexityModal.js] *)
(* ================================================================== *)

(** The dialog keeps the two estimates, its error texts and [isSubmitting]
    in cells of its own; what it does to the page goes through the
    callbacks [onSubmit] and [onClose] it is given. *)
Module ComplexityModal.

(** [if (!isOpen) return null]: the dialog and its two buttons exist
    exactly while [isOpen] holds. *)
Definition rendered (isOpen : bool) : bool := isOpen.

(** [handleSubmit]: [onSubmit] is called, with the trimmed estimates, only
    when neither is blank; otherwise only the error texts are set. *)
Definition handleSubmit {State : Type}
    (onSubmit : jsstring -> jsstring -> State -> State)
    (timeComplexity spaceComplexity : jsstring) (s : State) : State :=
  if truthy (trim timeComplexity) && truthy (trim spaceComplexity)
  then onSubmit (trim timeComplexity) (trim spaceComplexity) s
  else s.

(** [handleClose]: [onClose] is called unless a submission is under way. *)
Definition handleClose {State : Type} (isSubmitting : bool)
    (onClose : State -> State) (s : State) : State :=
  if negb isSubmitting then onClose s else s.

End ComplexityModal.

(* ================================================================== *)
(** ** [app/page.js]: the session state and its handlers *)
(* ================================================================== *)

Module Page.

Inductive Role := User | Assistant.

(** [content] is [None] when the field read into it was [undefined]. *)
Record ChatMessage := mkChatMessage {
  role : Role;
  content : option jsstring
}.

Inductive ToastType := Info | Success | Error | HintType.

(** The texts handed to [showToast]. *)
Inductive ToastText :=
| EditorUnlocked
| HintText (hint : option jsstring)
| AutomaticHintText (hint : jsstring)
| HintUnavailable
| AllTestsPassed
| SomeTestsFailed
| ErrorRunningCode
| FailedToRunCode
| SolutionEvaluated
| FailedToEvaluate
| Encouragement (index : nat).

Record Toast := mkToast {
  toast_message : ToastText;
  toast_type : ToastType
}.

(** The values of the render a timer callback was created in, as far as
    [handleAutomaticHint] reads them. *)
Record Closure := mkClosure {
  c_problem : option Problem;
  c_skillLevel : SkillLevel;
  c_language : jsstring;
  c_sessionState : Phase
}.

(** A pending [setTimeout] of the inactivity path. *)
Record Timer := mkTimer {
  timer_id : nat;
  timer_due : Z;
  timer_code : jsstring;
  timer_closure : Closure
}.

(** The Monaco editor of [components/CodeEditor.js] once it is created
    ([monacoRef.current]): its content and its [readOnly] option. *)
Record Editor := mkEditor {
  ed_value : jsstring;
  ed_readOnly : bool
}.

(** The [useState] cells, the three refs the handlers use, the pending
    timers and the editor.  [isLoading] is left out: it is true only while a handler
    awaits, and handlers run here from start to end.  The toasts are the
    ones shown so far (their removal after four seconds is not tracked). *)
Record State := mkState {
  skillLevel : SkillLevel;
  problem : option Problem;
  code : jsstring;
  language : jsstring;
  isEditorLocked : bool;
  chatMessages : list ChatMessage;
  testResults : RunCode.Results;
  toasts : list Toast;
  sessionState : Phase;
  userApproach : jsstring;
  hintsUsed : nat;
  showComplexityModal : bool;
  lastActivityRef : Z;
  inactivityTimerRef : option nat;
  lastCodeRef : jsstring;
  timers : list Timer;
  nextTimerId : nat;
  editor : option Editor
}.

Definition setSkillLevel (v : SkillLevel) (s : State) : State :=
  mkState v (problem s) (code s) (language s) (isEditorLocked s)
    (chatMessages s) (testResults s) (toasts s) (sessionState s)
    (userApproach s) (hintsUsed s) (showComplexityModal s)
    (lastActivityRef s) (inactivityTimerRef s) (lastCodeRef s) (timers s)
    (nextTimerId s) (editor s).

Definition setProblem (v : option Problem) (s : State) : State :=
  mkState (skillLevel s) v (code s) (language s) (isEditorLocked s)
    (chatMessages s) (testResults s) (toasts s) (sessionState s)
    (userApproach s) (hintsUsed s) (showComplexityModal s)
    (lastActivityRef s) (inactivityTimerRef s) (lastCodeRef s) (timers s)
    (nextTimerId s) (editor s).

Definition setCode (v : jsstring) (s : State) : State :=
  mkState (skillLevel s) (problem s) v (language s) (isEditorLocked s)
    (chatMessages s) (testResults s) (toasts s) (sessionState s)
    (userApproach s) (hintsUsed s) (showComplexityModal s)
    (lastActivityRef s) (inactivityTimerRef s) (lastCodeRef s) (timers s)
    (nextTimerId s) (editor s).

Definition setLanguage (v : jsstring) (s : State) : State :=
  mkState (skillLevel s) (problem s) (code s) v (isEditorLocked s)
    (chatMessages s) (testResults s) (toasts s) (sessionState s)
    (userApproach s) (hintsUsed s) (showComplexityModal s)
    (lastActivityRef s) (inactivityTimerRef s) (lastCodeRef s) (timers s)
    (nextTimerId s) (editor s).

Definition setIsEditorLocked (v : bool) (s : State) : State :=
  mkState (skillLevel s) (problem s) (code s) (language s) v (chatMessages
    s) (testResults s) (toasts s) (sessionState s) (userApproach s)
    (hintsUsed s) (showComplexityModal s) (lastActivityRef s)
    (inactivityTimerRef s) (lastCodeRef s) (timers s) (nextTimerId s)
    (editor s).

Definition setChatMessages (v : list ChatMessage) (s : State) : State :=
  mkState (skillLevel s) (problem s) (code s) (language s) (isEditorLocked
    s) v (testResults s) (toasts s) (sessionState s) (userApproach s)
    (hintsUsed s) (showComplexityModal s) (lastActivityRef s)
    (inactivityTimerRef s) (lastCodeRef s) (timers s) (nextTimerId s)
    (editor s).

Definition setTestResults (v : RunCode.Results) (s : State) : State :=
  mkState (skillLevel s) (problem s) (code s) (language s) (isEditorLocked
    s) (chatMessages s) v (toasts s) (sessionState s) (userApproach s)
    (hintsUsed s) (showComplexityModal s) (lastActivityRef s)
    (inactivityTimerRef s) (lastCodeRef s) (timers s) (nextTimerId s)
    (editor s).

Definition setToasts (v : list Toast) (s : State) : State :=
  mkState (skillLevel s) (problem s) (code s) (language s) (isEditorLocked
    s) (chatMessages s) (testResults s) v (sessionState s) (userApproach
    s) (hintsUsed s) (showComplexityModal s) (lastActivityRef s)
    (inactivityTimerRef s) (lastCodeRef s) (timers s) (nextTimerId s)
    (editor s).

Definition setSessionState (v : Phase) (s : State) : State :=
  mkState (skillLevel s) (problem s) (code s) (language s) (isEditorLocked
    s) (chatMessages s) (testResults s) (toasts s) v (userApproach s)
    (hintsUsed s) (showComplexityModal s) (lastActivityRef s)
    (inactivityTimerRef s) (lastCodeRef s) (timers s) (nextTimerId s)
    (editor s).

Definition setUserApproach (v : jsstring) (s : State) : State :=
  mkState (skillLevel s) (problem s) (code s) (language s) (isEditorLocked
    s) (chatMessages s) (testResults s) (toasts s) (sessionState s) v
    (hintsUsed s) (showComplexityModal s) (lastActivityRef s)
    (inactivityTimerRef s) (lastCodeRef s) (timers s) (nextTimerId s)
    (editor s).

Definition setHintsUsed (v : nat) (s : State) : State :=
  mkState (skillLevel s) (problem s) (code s) (language s) (isEditorLocked
    s) (chatMessages s) (testResults s) (toasts s) (sessionState s)
    (userApproach s) v (showComplexityModal s) (lastActivityRef s)
    (inactivityTimerRef s) (lastCodeRef s) (timers s) (nextTimerId s)
    (editor s).

Definition setShowComplexityModal (v : bool) (s : State) : State :=
  mkState (skillLevel s) (problem s) (code s) (language s) (isEditorLocked
    s) (chatMessages s) (testResults s) (toasts s) (sessionState s)
    (userApproach s) (hintsUsed s) v (lastActivityRef s)
    (inactivityTimerRef s) (lastCodeRef s) (timers s) (nextTimerId s)
    (editor s).

Definition setLastActivityRef (v : Z) (s : State) : State :=
  mkState (skillLevel s) (problem s) (code s) (language s) (isEditorLocked
    s) (chatMessages s) (testResults s) (toasts s) (sessionState s)
    (userApproach s) (hintsUsed s) (showComplexityModal s) v
    (inactivityTimerRef s) (lastCodeRef s) (timers s) (nextTimerId s)
    (editor s).

Definition setInactivityTimerRef (v : option nat) (s : State) : State :=
  mkState (skillLevel s) (problem s) (code s) (language s) (isEditorLocked
    s) (chatMessages s) (testResults s) (toasts s) (sessionState s)
    (userApproach s) (hintsUsed s) (showComplexityModal s)
    (lastActivityRef s) v (lastCodeRef s) (timers s) (nextTimerId s)
    (editor s).

Definition setLastCodeRef (v : jsstring) (s : State) : State :=
  mkState (skillLevel s) (problem s) (code s) (language s) (isEditorLocked
    s) (chatMessages s) (testResults s) (toasts s) (sessionState s)
    (userApproach s) (hintsUsed s) (showComplexityModal s)
    (lastActivityRef s) (inactivityTimerRef s) v (timers s) (nextTimerId
    s) (editor s).

Definition setTimers (v : list Timer) (s : State) : State :=
  mkState (skillLevel s) (problem s) (code s) (language s) (isEditorLocked
    s) (chatMessages s) (testResults s) (toasts s) (sessionState s)
    (userApproach s) (hintsUsed s) (showComplexityModal s)
    (lastActivityRef s) (inactivityTimerRef s) (lastCodeRef s) v
    (nextTimerId s) (editor s).

Definition setNextTimerId (v : nat) (s : State) : State :=
  mkState (skillLevel s) (problem s) (code s) (language s) (isEditorLocked
    s) (chatMessages s) (testResults s) (toasts s) (sessionState s)
    (userApproach s) (hintsUsed s) (showComplexityModal s)
    (lastActivityRef s) (inactivityTimerRef s) (lastCodeRef s) (timers s)
    v (editor s).

Definition setEditor (v : option Editor) (s : State) : State :=
  mkState (skillLevel s) (problem s) (code s) (language s) (isEditorLocked
    s) (chatMessages s) (testResults s) (toasts s) (sessionState s)
    (userApproach s) (hintsUsed s) (showComplexityModal s)
    (lastActivityRef s) (inactivityTimerRef s) (lastCodeRef s) (timers s)
    (nextTimerId s) v.

Definition initial (now : Z) : State :=
  {| skillLevel := Beginner;
     problem := None;
     code := [];
     language := lit "javascript";
     isEditorLocked := true;
     chatMessages := [];
     testResults := RunCode.Listed [];
     toasts := [];
     sessionState := Approach;
     userApproach := [];
     hintsUsed := 0;
     showComplexityModal := false;
     lastActivityRef := now;
     inactivityTimerRef := None;
     lastCodeRef := [];
     timers := [];
     nextTimerId := 1;
     editor := None |}.

(** The environment of one handler run: whether the application's routes
    can be reached, how the model endpoint answers, how the JSON of a
    simulated run is read, and the random draw. *)
Record World := mkWorld {
  online : bool;
  gemini : Gemini;
  extract : jsstring -> RunCode.Extracted;
  draw : nat
}.

(** [fetch] of a route, then [response.json()]. *)
Definition fetchJson {A} (w : World) (route : Comp A) : Fetched A :=
  if online w then
    match fst route with
    | Ok data => Json data
    | Throw _ => FetchFailed
    end
  else FetchFailed.

Definition showToast (message : ToastText) (type : ToastType) (s : State) : State :=
  setToasts (toasts s ++ [mkToast message type]) s.

Definition say (r : Role) (text : option jsstring) (s : State) : State :=
  setChatMessages (chatMessages s ++ [mkChatMessage r text]) s.

(** *** Handlers

    A handler is created anew by every render and closes over the values
    of that render.  The components call the handler of the latest render,
    which reads the current state, with one exception: the editor calls,
    for every change of its content, the [onChange] of the first render
    (see [onDidChangeModelContent] below).  So [handleCodeChange] takes the
    render whose handler it is. *)

(** The values of a render that [handleCodeChange] and the callback it
    creates read. *)
Record Render := mkRender {
  r_isEditorLocked : bool;
  r_scope : Closure
}.

(** The latest render. *)
Definition render (s : State) : Render :=
  {| r_isEditorLocked := isEditorLocked s;
     r_scope :=
       {| c_problem := problem s; c_skillLevel := skillLevel s;
          c_language := language s; c_sessionState := sessionState s |} |}.

(** The first render: the initial values of the [useState] cells. *)
Definition firstRender : Render :=
  {| r_isEditorLocked := true;
     r_scope :=
       {| c_problem := None; c_skillLevel := Beginner;
          c_language := lit "javascript"; c_sessionState := Approach |} |}.

Definition quote : ascii := ascii_of_nat 34.

(** The request bodies ([JSON.stringify({ ... })]) of the four calls. *)
Definition mentorBody (message : jsstring) (s : State) : Mentor.Request :=
  {| Mentor.mq_message := message;
     Mentor.mq_problem := problem s;
     Mentor.mq_skillLevel := skillLevel s;
     Mentor.mq_sessionState := sessionState s;
     Mentor.mq_code := Some (code s);
     Mentor.mq_language := Some (language s) |}.

Definition hintBody (s : State) : Hint.Request :=
  {| Hint.hq_problem := problem s;
     Hint.hq_skillLevel := skillLevel s;
     Hint.hq_code := Some (code s);
     Hint.hq_sessionState := sessionState s;
     Hint.hq_hintsUsed := Some (hintsUsed s) |}.

Definition runBody (s : State) : RunCode.Request :=
  {| RunCode.rq_code := code s;
     RunCode.rq_language := language s;
     RunCode.rq_problem := problem s;
     RunCode.rq_skillLevel := skillLevel s |}.

Definition evaluateBody (timeComplexity spaceComplexity : option jsstring)
    (s : State) : Evaluate.Request :=
  {| Evaluate.eq_code := code s;
     Evaluate.eq_language := language s;
     Evaluate.eq_problem := problem s;
     Evaluate.eq_skillLevel := skillLevel s;
     Evaluate.eq_hintsUsed := hintsUsed s;
     Evaluate.eq_userApproach := userApproach s;
     Evaluate.eq_timeComplexity := timeComplexity;
     Evaluate.eq_spaceComplexity := spaceComplexity |}.

Definition handleInitialMessage (w : World) (loadedProblem : Problem)
    (currentSkillLevel : SkillLevel) (s : State) : State :=
  match fetchJson w (Greeting.POST (gemini w) (Some loadedProblem) currentSkillLevel) with
  | Json data =>
      if Greeting.gr_success data
      then setChatMessages [mkChatMessage Assistant (Greeting.gr_message data)] s
      else s
  | FetchFailed =>
      setChatMessages
        [mkChatMessage Assistant
           (Some (lit "Great! I see you've loaded " ++ [quote]
                    ++ p_title loadedProblem ++ [quote]
                    ++ lit ". Let's work through this together! " ++ [LF; LF]
                    ++ lit "First, I'd like to understand your approach. Can you tell me how you would tackle this problem? Don't worry about the code yet - just explain your thinking process."))]
        s
  end.

(** [clearTimeout(id)] *)
Definition clearTimeout (id : nat) (s : State) : State :=
  setTimers (filter (fun t => negb (timer_id t =? id)) (timers s)) s.

(** [setTimeout(callback, delay)] at time [now], for the callback of
    the [handleCodeChange] of a render with the values [scope]. *)
Definition setTimeout (now delay : Z) (newCode : jsstring) (scope : Closure)
    (s : State) : nat * State :=
  let id := nextTimerId s in
  let timer :=
    {| timer_id := id;
       timer_due := (now + delay)%Z;
       timer_code := newCode;
       timer_closure := scope |} in
  (id, setNextTimerId (S id) (setTimers (timers s ++ [timer]) s)).

(** [handleCodeChange] of the render [r].  The refs and the setters are
    shared by all renders; [isEditorLocked] and [sessionState] in the test
    are the values of [r]. *)
Definition handleCodeChange (r : Render) (now : Z) (newCode : jsstring)
    (s : State) : State :=
  let s := setCode newCode s in
  let s := setLastActivityRef now s in
  let s :=
    match inactivityTimerRef s with
    | Some id => clearTimeout id s
    | None => s
    end in
  if negb (r_isEditorLocked r)
     && Phase_eqb (c_sessionState (r_scope r)) Coding
     && (10 <? length (trim newCode))
  then
    let s := setLastCodeRef newCode s in
    let '(id, s) := setTimeout now 3000 newCode (r_scope r) s in
    setInactivityTimerRef (Some id) s
  else s.

Definition handleAutomaticHint (w : World) (scope : Closure)
    (currentCode : jsstring) (s : State) : State :=
  match c_problem scope with
  | None => s
  | Some _ =>
      if length (trim currentCode) <? 20 then s
      else
        match
          fetchJson w
            (AutomaticHint.POST (gemini w) (draw w)
               {| AutomaticHint.aq_code := currentCode;
                  AutomaticHint.aq_problem := c_problem scope;
                  AutomaticHint.aq_skillLevel := c_skillLevel scope;
                  AutomaticHint.aq_language := c_language scope;
                  AutomaticHint.aq_sessionState := c_sessionState scope |})
        with
        | Json data =>
            if AutomaticHint.ar_success data
               && truthy (AutomaticHint.ar_hint data)
               && truthy (trim (AutomaticHint.ar_hint data))
            then showToast (AutomaticHintText (AutomaticHint.ar_hint data)) HintType s
            else s
        | FetchFailed => s
        end
  end.

(** The callback given to [setTimeout], run at time [now]; the flag tells
    whether it called [handleAutomaticHint]. *)
Definition inactivityCallback (w : World) (now : Z) (t : Timer) (s : State)
  : State * bool :=
  let timeSinceLastActivity := (now - lastActivityRef s)%Z in
  if (3000 <=? timeSinceLastActivity)%Z
  then (handleAutomaticHint w (timer_closure t) (timer_code t) s, true)
  else (s, false).

Definition handleSendMessage (w : World) (message : jsstring) (s : State) : State :=
  let s1 := say User (Some message) s in
  let s2 :=
    if Phase_eqb (sessionState s) Approach then setUserApproach message s1
    else s1 in
  match fetchJson w (Mentor.POST (gemini w) (mentorBody message s)) with
  | Json data =>
      if Mentor.mr_success data then
        let s3 := say Assistant (Mentor.mr_response data) s2 in
        let s4 :=
          match Mentor.mr_unlockEditor data with
          | Some true =>
              if isEditorLocked s
              then showToast EditorUnlocked Success
                     (setSessionState Coding (setIsEditorLocked false s3))
              else s3
          | _ => s3
          end in
        match Mentor.mr_newState data with
        | Some newState =>
            if negb (Phase_eqb newState (sessionState s))
            then setSessionState newState s4
            else s4
        | None => s4
        end
      else
        say Assistant
          (Some (lit "I'm having trouble processing your message. Please try again."))
          s2
  | FetchFailed =>
      say Assistant
        (Some (lit "I'm experiencing technical difficulties. Please try again."))
        s2
  end.

Definition handleHintRequest (w : World) (s : State) : State :=
  match fetchJson w (Hint.POST (gemini w) (hintBody s)) with
  | Json data =>
      match Hint.hr_success data with
      | Some true =>
          showToast (HintText (Hint.hr_hint data)) HintType
            (setHintsUsed (hintsUsed s + 1) s)
      | _ => s
      end
  | FetchFailed => showToast HintUnavailable Error s
  end.

Definition handleRunCode (w : World) (s : State) : State :=
  match fetchJson w (RunCode.POST (gemini w) (extract w) (runBody s)) with
  | Json data =>
      if RunCode.rr_success data then
        let s1 :=
          setTestResults
            (match RunCode.rr_results data with
             | Some results =>
                 if RunCode.truthyResults results then results
                 else RunCode.Listed []
             | None => RunCode.Listed []
             end) s in
        if truthyValue (RunCode.rr_allPassed data)
        then showToast AllTestsPassed Success s1
        else showToast SomeTestsFailed Error s1
      else showToast ErrorRunningCode Error s
  | FetchFailed => showToast FailedToRunCode Error s
  end.

Definition handleSubmitClick (s : State) : State := setShowComplexityModal true s.

Definition handleComplexitySubmit (w : World)
    (timeComplexity spaceComplexity : option jsstring) (s : State) : State :=
  match
    fetchJson w
      (Evaluate.POST (gemini w) (evaluateBody timeComplexity spaceComplexity s))
  with
  | Json data =>
      if Evaluate.er_success data then
        showToast SolutionEvaluated Success
          (setShowComplexityModal false
             (setSessionState Evaluation
                (say Assistant (Evaluate.er_evaluation data) s)))
      else showToast FailedToEvaluate Error s
  | FetchFailed => showToast FailedToEvaluate Error s
  end.

(** *** The timer queue

    [runTimers w now s] lets the clock reach [now]: every pending timer due
    by then leaves the queue and its callback runs, in the order the timers
    were set, each at its own due time. *)

Definition isDue (now : Z) (t : Timer) : bool := (timer_due t <=? now)%Z.

Fixpoint runCallbacks (w : World) (due : list Timer) (s : State)
  : State * list Z :=
  match due with
  | [] => (s, [])
  | t :: due' =>
      let '(s1, called) := inactivityCallback w (timer_due t) t s in
      let '(s2, fired) := runCallbacks w due' s1 in
      (s2, if called then timer_due t :: fired else fired)
  end.

(** The state once the clock has reached [now], and the times at which
    [handleAutomaticHint] was called on the way. *)
Definition runTimers (w : World) (now : Z) (s : State) : State * list Z :=
  let due := filter (isDue now) (timers s) in
  let pending := filter (fun t => negb (isDue now t)) (timers s) in
  runCallbacks w due (setTimers pending s).

(** *** [components/CodeEditor.js]

    The template the editor is reset to when the language changes
    ([getDefaultCode]). *)
Definition getDefaultCode (lang : jsstring) : jsstring :=
  if list_eq_dec ascii_dec lang (lit "python") then
    lit "def twoSum(nums, target):" ++ [LF]
      ++ lit "    # Your code here" ++ [LF]
      ++ lit "    pass"
  else if list_eq_dec ascii_dec lang (lit "java") then
    lit "public class Solution {" ++ [LF]
      ++ lit "    public int[] twoSum(int[] nums, int target) {" ++ [LF]
      ++ lit "        // Your code here" ++ [LF]
      ++ lit "        " ++ [LF]
      ++ lit "    }" ++ [LF]
      ++ lit "}"
  else if list_eq_dec ascii_dec lang (lit "cpp") then
    lit "#include <vector>" ++ [LF]
      ++ lit "using namespace std;" ++ [LF] ++ [LF]
      ++ lit "class Solution {" ++ [LF]
      ++ lit "public:" ++ [LF]
      ++ lit "    vector<int> twoSum(vector<int>& nums, int target) {" ++ [LF]
      ++ lit "        // Your code here" ++ [LF]
      ++ lit "        " ++ [LF]
      ++ lit "    }" ++ [LF]
      ++ lit "};"
  else
    lit "function twoSum(nums, target) {" ++ [LF]
      ++ lit "    // Your code here" ++ [LF]
      ++ lit "    " ++ [LF]
      ++ lit "}".

(** The four values the language [Select] offers. *)
Definition languages : list jsstring :=
  [lit "javascript"; lit "python"; lit "java"; lit "cpp"].

(** [initializeEditor], called once when the Monaco script has loaded.  It
    is the function of the component's first render (the loading effect has
    no dependencies), so the editor is created with the template of the
    first render's language and the first render's [isLocked]. *)
Definition initializeEditor (s : State) : State :=
  setEditor
    (Some {| ed_value := getDefaultCode (c_language (r_scope firstRender));
             ed_readOnly := r_isEditorLocked firstRender |}) s.

(** The listener [initializeEditor] registers with
    [onDidChangeModelContent]: [onChange(value)] with the [onChange] of the
    first render, that is, the page's first [handleCodeChange]. *)
Definition onDidChangeModelContent (now : Z) (value : jsstring) (s : State)
  : State :=
  handleCodeChange firstRender now value s.

(** A change typed into the editor: the content changes and the listener
    runs.  (The effect on [code] that follows finds the content equal to
    [code] and does nothing.) *)
Definition typeCode (now : Z) (newCode : jsstring) (s : State) : State :=
  match editor s with
  | Some ed =>
      onDidChangeModelContent now newCode
        (setEditor (Some {| ed_value := newCode; ed_readOnly := ed_readOnly ed |}) s)
  | None => s
  end.

(** The effect on [code], run after a render in which [code] has changed:
    [if (monacoRef.current && code !== monacoRef.current.getValue())
    monacoRef.current.setValue(code)].  Monaco reports a [setValue] to the
    content listener like any other change. *)
Definition codeEffect (now : Z) (s : State) : State :=
  match editor s with
  | Some ed =>
      if list_eq_dec ascii_dec (code s) (ed_value ed) then s
      else
        onDidChangeModelContent now (code s)
          (setEditor (Some {| ed_value := code s; ed_readOnly := ed_readOnly ed |}) s)
  | None => s
  end.

(** The effect on [language], run after a render in which [language] has
    changed: [if (monacoRef.current) onChange(getDefaultCode(language))],
    with the [onChange] of that render. *)
Definition languageEffect (now : Z) (s : State) : State :=
  match editor s with
  | Some _ => handleCodeChange (render s) now (getDefaultCode (language s)) s
  | None => s
  end.

(** The effect on [isLocked], run after a render in which it has changed:
    [if (monacoRef.current) monacoRef.current.updateOptions({ readOnly:
    isLocked })]. *)
Definition lockEffect (s : State) : State :=
  match editor s with
  | Some ed =>
      setEditor
        (Some {| ed_value := ed_value ed; ed_readOnly := isEditorLocked s |}) s
  | None => s
  end.

(** *** What the components let the user do

    The user's actions, the loading of the editor and the passing of time.
    Actions that reach a route carry the world they run in; [now] is
    [Date.now()]; [SubmitComplexity] carries the two estimates as they
    stand in the dialog when its Submit button is pressed. *)
Inductive Action :=
| LoadProblem (w : World) (p : Problem)
| SelectSkillLevel (level : SkillLevel)
| SelectLanguage (now : Z) (lang : jsstring)
| SendMessage (w : World) (message : jsstring)
| EditorLoaded
| EditCode (now : Z) (newCode : jsstring)
| Tick (w : World) (now : Z)
| RequestHint (w : World)
| RunTests (w : World)
| ClickSubmit
| SubmitComplexity (w : World) (timeComplexity spaceComplexity : jsstring)
| CloseModal.

(** Which actions the rendered components offer in a state:
    [ChatInterface.handleSend] returns on a blank message; the language
    [Select] offers four values; the editor exists once it is loaded and
    takes no typing while [readOnly]; [CodeEditor] renders the Hint, Run and
    Submit buttons only under [sessionState === "coding" && !isLocked]. *)
Definition codingControls (s : State) : bool :=
  Phase_eqb (sessionState s) Coding && negb (isEditorLocked s).

(** The page renders the dialog with [isOpen={showComplexityModal}], so the
    dialog's Submit and Cancel buttons exist exactly while
    [showComplexityModal] holds. *)
Definition modalControls (s : State) : bool :=
  ComplexityModal.rendered (showComplexityModal s).

Definition available (a : Action) (s : State) : bool :=
  match a with
  | LoadProblem _ _ => true
  | SelectSkillLevel _ => true
  | SelectLanguage _ lang =>
      if in_dec (list_eq_dec ascii_dec) lang languages then true else false
  | SendMessage _ message => truthy (trim message)
  | EditorLoaded =>
      match editor s with Some _ => false | None => true end
  | EditCode _ _ =>
      match editor s with Some ed => negb (ed_readOnly ed) | None => false end
  | Tick _ _ => true
  | RequestHint _ => codingControls s
  | RunTests _ => codingControls s
  | ClickSubmit => codingControls s
  | SubmitComplexity _ _ _ => modalControls s
  | CloseModal => modalControls s
  end.

(** What an action does: the handler the component calls, then the effects
    of [CodeEditor] that the changed state triggers.  A [setLanguage] with
    the current value changes nothing and triggers no effect.  The dialog
    runs its own [handleSubmit] and [handleClose]; handlers run here from
    start to end, so no submission is under way when the user acts. *)
Definition perform (a : Action) (s : State) : State :=
  match a with
  | LoadProblem w p => handleInitialMessage w p (skillLevel s) (setProblem (Some p) s)
  | SelectSkillLevel level => setSkillLevel level s
  | SelectLanguage now lang =>
      if list_eq_dec ascii_dec lang (language s) then s
      else
        let s1 := languageEffect now (setLanguage lang s) in
        if list_eq_dec ascii_dec (code s1) (code s) then s1
        else codeEffect now s1
  | SendMessage w message =>
      let s1 := handleSendMessage w message s in
      if Bool.eqb (isEditorLocked s1) (isEditorLocked s) then s1
      else lockEffect s1
  | EditorLoaded => initializeEditor s
  | EditCode now newCode => typeCode now newCode s
  | Tick w now => fst (runTimers w now s)
  | RequestHint w => handleHintRequest w s
  | RunTests w => handleRunCode w s
  | ClickSubmit => handleSubmitClick s
  | SubmitComplexity w timeComplexity spaceComplexity =>
      ComplexityModal.handleSubmit
        (fun time space =>
           handleComplexitySubmit w (Some time) (Some space))
        timeComplexity spaceComplexity s
  | CloseModal =>
      ComplexityModal.handleClose false (setShowComplexityModal false) s
  end.

(** An action the components do not offer leaves the state as it is. *)
Definition step (a : Action) (s : State) : State :=
  if available a s then perform a s else s.

Definition run (actions : list Action) (s : State) : State :=
  fold_left (fun s a => step a s) actions s.

End Page.

(* ================================================================== *)
(** ** [lib/agents/mentor.js] *)
(* ================================================================== *)

Module MentorAgent.

Import Page.

(** [evaluateApproach]: [{ message, shouldUnlockEditor }] *)
Definition evaluateApproach (w : World) (skillLevel : SkillLevel)
    (approach : jsstring) (problem : option Problem)
  : option jsstring * option bool :=
  match
    fetchJson w
      (Mentor.POST (gemini w)
         {| Mentor.mq_message := approach;
            Mentor.mq_problem := problem;
            Mentor.mq_skillLevel := skillLevel;
            Mentor.mq_sessionState := Approach;
            Mentor.mq_code := None;
            Mentor.mq_language := None |})
  with
  | Json data => (Mentor.mr_response data, Mentor.mr_unlockEditor data)
  | FetchFailed =>
      (Some (lit "I'm having trouble processing your approach. Please try again."),
       Some false)
  end.

Definition provideCodingGuidance (w : World) (skillLevel : SkillLevel)
    (message : jsstring) (code : jsstring) (problem : option Problem)
  : option jsstring :=
  match
    fetchJson w
      (Mentor.POST (gemini w)
         {| Mentor.mq_message := message;
            Mentor.mq_problem := problem;
            Mentor.mq_skillLevel := skillLevel;
            Mentor.mq_sessionState := Coding;
            Mentor.mq_code := Some code;
            Mentor.mq_language := None |})
  with
  | Json data => Mentor.mr_response data
  | FetchFailed =>
      Some (lit "I'm having trouble providing guidance right now. Keep working on your solution!")
  end.

Definition generateHint (w : World) (skillLevel : SkillLevel) (code : jsstring)
    (problem : option Problem) : option jsstring :=
  match
    fetchJson w
      (Hint.POST (gemini w)
         {| Hint.hq_problem := problem;
            Hint.hq_skillLevel := skillLevel;
            Hint.hq_code := Some code;
            Hint.hq_sessionState := Coding;
            Hint.hq_hintsUsed := None |})
  with
  | Json data => Hint.hr_hint data
  | FetchFailed => Some (lit "Try breaking down the problem into smaller steps.")
  end.

(** [generateEncouragement]: the index of one of five fixed texts, by
    [Math.random()]. *)
Definition generateEncouragement (w : World) : nat := draw w mod 5.

End MentorAgent.

(* ================================================================== *)
(** ** [lib/agents/evaluation.js] *)
(* ================================================================== *)

Module EvaluationAgent.

Import Page.

(** [metadata] of [evaluateSubmission] *)
Record Metadata := mkMetadata {
  md_language : jsstring;
  md_skillLevel : SkillLevel;
  md_hintsUsed : nat;
  md_userApproach : jsstring
}.

(** The canned evaluation of the [catch] branch (its first line; the rest
    of the text is fixed prose). *)
Definition cannedEvaluation : jsstring :=
  lit "Great job completing the solution! Here's a quick evaluation:".

(** The request carries no complexity estimate. *)
Definition evaluateSubmission (w : World) (code : jsstring)
    (problem : option Problem) (metadata : Metadata) : option jsstring :=
  match
    fetchJson w
      (Evaluate.POST (gemini w)
         {| Evaluate.eq_code := code;
            Evaluate.eq_language := md_language metadata;
            Evaluate.eq_problem := problem;
            Evaluate.eq_skillLevel := md_skillLevel metadata;
            Evaluate.eq_hintsUsed := md_hintsUsed metadata;
            Evaluate.eq_userApproach := md_userApproach metadata;
            Evaluate.eq_timeComplexity := None;
            Evaluate.eq_spaceComplexity := None |})
  with
  | Json data => Evaluate.er_evaluation data
  | FetchFailed => Some cannedEvaluation
  end.

Definition generateFeedback (w : World) (skillLevel : SkillLevel)
    (message : jsstring) (problem : option Problem) : option jsstring :=
  match
    fetchJson w
      (Mentor.POST (gemini w)
         {| Mentor.mq_message := message;
            Mentor.mq_problem := problem;
            Mentor.mq_skillLevel := skillLevel;
            Mentor.mq_sessionState := Evaluation;
            Mentor.mq_code := None;
            Mentor.mq_language := None |})
  with
  | Json data => Mentor.mr_response data
  | FetchFailed =>
      Some (lit "Thank you for sharing your thoughts. Keep practicing and you'll continue to improve!")
  end.

End EvaluationAgent.

(* ================================================================== *)
(** ** [lib/agents/code.js] *)
(* ================================================================== *)

Module CodeAgent.

(** What one evaluation of the user's code does: [JSON.stringify] of the
    value returned ([None] for [undefined]), or an error with its
    message. *)
Inductive Outcome :=
| Returned (json : option jsstring)
| Raised (message : jsstring).

(** The JavaScript engine behind [parseTestInput] and [new Function]: the
    outcome of running [code] on the input of the test case at a position
    of the list.  What the user's code computes is outside the model. *)
Definition Engine := nat -> jsstring -> jsstring -> Outcome.

(** [{ input, expected, actual, passed }] *)
Record Result := mkResult {
  cr_input : jsstring;
  cr_expected : jsstring;
  cr_actual : option jsstring;
  cr_passed : bool
}.

(** The [catch] rethrows with a prefixed message. *)
Definition executeJavaScript (engine : Engine) (index : nat) (code : jsstring)
    (testCase : TestCase) : Outcome :=
  match engine index code (tc_input testCase) with
  | Returned json => Returned json
  | Raised message => Raised (lit "Execution error: " ++ message)
  end.

Definition executeCode (engine : Engine) (index : nat) (code : jsstring)
    (testCase : TestCase) (language : jsstring) : Outcome :=
  if list_eq_dec ascii_dec language (lit "javascript")
  then executeJavaScript engine index code testCase
  else Returned (Some (lit "Mock result")).

(** [actual === expected] *)
Definition compareResults (actual : option jsstring) (expected : jsstring) : bool :=
  match actual with
  | Some text => if list_eq_dec ascii_dec text expected then true else false
  | None => false
  end.

(** The body of the loop of [runTests] for the test case at [index]. *)
Definition runTest (engine : Engine) (code language : jsstring) (index : nat)
    (testCase : TestCase) : Result :=
  match executeCode engine index code testCase language with
  | Returned result =>
      {| cr_input := tc_input testCase;
         cr_expected := tc_expectedOutput testCase;
         cr_actual := result;
         cr_passed := compareResults result (tc_expectedOutput testCase) |}
  | Raised message =>
      {| cr_input := tc_input testCase;
         cr_expected := tc_expectedOutput testCase;
         cr_actual := Some (lit "Error: " ++ message);
         cr_passed := false |}
  end.

Definition runTests (engine : Engine) (code : jsstring)
    (problem : option Problem) (language : jsstring) : list Result :=
  let testCases :=
    match problem with
    | Some p => match p_testCases p with Some cases => cases | None => [] end
    | None => []
    end in
  ProblemPanel.mapi (runTest engine code language) 0 testCases.

End CodeAgent.

(* ================================================================== *)
(** ** [lib/agents/orchestrator.js] *)
(* ================================================================== *)

(** The page builds the orchestrator with its own setters as callbacks:
    [onStateChange] is [setSessionState], [onEditorUnlock] and
    [onEditorLock] set [isEditorLocked], [onHintUsed] adds one to
    [hintsUsed], [onToast] is [showToast].  A method therefore maps a page
    state to a page state and a returned value. *)
Module AgentOrchestrator.

Import Page.

Definition onStateChange (p : Phase) (s : State) : State := setSessionState p s.
Definition onEditorUnlock (s : State) : State := setIsEditorLocked false s.
Definition onEditorLock (s : State) : State := setIsEditorLocked true s.
Definition onHintUsed (s : State) : State := setHintsUsed (hintsUsed s + 1) s.

(** The note appended on unlocking (without its leading emoji, which lies
    outside the code units modelled). *)
Definition unlockedNote : jsstring :=
  [LF; LF] ++ lit "Great! The code editor is now unlocked. You can start implementing your solution.".

(** [a + b] for a value [a] that may be [undefined]. *)
Definition append (a : option jsstring) (b : jsstring) : option jsstring :=
  match a with
  | Some x => Some (x ++ b)
  | None => Some (lit "undefined" ++ b)
  end.

Definition handleApproachPhase (w : World) (approach : jsstring)
    (problem : option Problem) (s : State) : State * option jsstring :=
  let '(message, shouldUnlockEditor) :=
    MentorAgent.evaluateApproach w (skillLevel s) approach problem in
  match shouldUnlockEditor with
  | Some true =>
      (onStateChange Coding (onEditorUnlock s), append message unlockedNote)
  | _ => (s, message)
  end.

Definition handleCodingPhase (w : World) (message code : jsstring)
    (problem : option Problem) (s : State) : State * option jsstring :=
  (s, MentorAgent.provideCodingGuidance w (skillLevel s) message code problem).

Definition provideHint (w : World) (code : jsstring) (problem : option Problem)
    (s : State) : State * option jsstring :=
  let s := onHintUsed s in
  (s, MentorAgent.generateHint w (skillLevel s) code problem).

Definition runCode (engine : CodeAgent.Engine) (code : jsstring)
    (problem : option Problem) (language : jsstring) (s : State)
  : State * list CodeAgent.Result :=
  (s, CodeAgent.runTests engine code problem language).

Definition evaluateSubmission (w : World) (code : jsstring)
    (problem : option Problem) (metadata : EvaluationAgent.Metadata) (s : State)
  : State * option jsstring :=
  let evaluation := EvaluationAgent.evaluateSubmission w code problem metadata in
  (onStateChange Evaluation s, evaluation).

(** [context] of [processUserMessage] *)
Record Context := mkContext {
  cx_sessionState : Phase;
  cx_code : jsstring;
  cx_problem : option Problem;
  cx_skillLevel : SkillLevel
}.

Definition handleEvaluationPhase (w : World) (message : jsstring)
    (context : Context) (s : State) : State * option jsstring :=
  (s, EvaluationAgent.generateFeedback w (cx_skillLevel context) message
        (cx_problem context)).

Definition processUserMessage (w : World) (message : jsstring)
    (context : Context) (s : State) : State * option jsstring :=
  match cx_sessionState context with
  | Approach => handleApproachPhase w message (cx_problem context) s
  | Coding => handleCodingPhase w message (cx_code context) (cx_problem context) s
  | Evaluation => handleEvaluationPhase w message context s
  end.

Definition handleInactivity (w : World) (s : State) : State :=
  showToast (Encouragement (MentorAgent.generateEncouragement w)) Info s.

End AgentOrchestrator.

(* ================================================================== *)
(** ** Vocabulary of the statements and sample data *)
(* ================================================================== *)

(** *** Sample data *)

(** The sample problem of the LeetCode route, with two of its cases. *)
Definition problemTwoSum : Problem :=
  {| p_id := lit "1";
     p_title := lit "1. Two Sum";
     p_description := lit "Given an array of integers nums and an integer target, return indices of the two numbers such that they add up to target.";
     p_difficulty := lit "Easy";
     p_testCases :=
       Some [ mkTestCase 1 (lit "nums = [2,7,11,15], target = 9") (lit "[0,1]") None;
              mkTestCase 2 (lit "nums = [3,2,4], target = 6") (lit "[1,2]") None ];
     p_constraints := None |}.

(** A pasted problem without examples. *)
Definition problemWithoutCases : Problem :=
  {| p_id := lit "custom";
     p_title := lit "Reverse a linked list";
     p_description := lit "Reverse a linked list";
     p_difficulty := lit "beginner";
     p_testCases := Some [];
     p_constraints := Some [] |}.

(** A problem about an array whose title does not mention Two Sum. *)
Definition problemReverse : Problem :=
  {| p_id := lit "custom";
     p_title := lit "Reverse Array";
     p_description := lit "Given an array of integers, return the array reversed.";
     p_difficulty := lit "intermediate";
     p_testCases := Some [];
     p_constraints := Some [] |}.

(** The approach text of the specification's scenario. *)
Definition approachText : jsstring :=
  lit "I will use a hash map to store seen values and check complements".

(** Some code of the sample session, long enough to arm the timer. *)
Definition typedCode : jsstring := lit "function twoSum(nums, target) {".

(** Code of exactly 50 and of exactly 200 code units, without a loop, a
    conditional or a [return]. *)
Definition code50 : jsstring :=
  lit "function reverse(arr) { let out = []; /* todo */ }".

Definition code200 : jsstring :=
  lit "function reverse(arr) {" ++ [LF]
    ++ lit "  const out = [];" ++ [LF]
    ++ lit "  // walk the input from the back and push every element to out," ++ [LF]
    ++ lit "  // then hand out back to the caller; nothing done below." ++ [LF]
    ++ lit "  out.push(arr[arr.length - 1]);" ++ [LF]
    ++ lit "}".

(** A pasted statement with two examples. *)
Definition pastedTwoSum : jsstring :=
  lit "Two Sum" ++ [LF]
    ++ lit "Given an array of integers nums and an integer target, return indices of the two numbers such that they add up to target." ++ [LF; LF]
    ++ lit "Example 1:" ++ [LF]
    ++ lit "Input: nums = [2,7,11,15], target = 9" ++ [LF]
    ++ lit "Output: [0,1]" ++ [LF]
    ++ lit "Explanation: Because nums[0] + nums[1] == 9, we return [0, 1]." ++ [LF; LF]
    ++ lit "Example 2:" ++ [LF]
    ++ lit "Input: nums = [3,2,4], target = 6" ++ [LF]
    ++ lit "Output: [1,2]" ++ [LF; LF]
    ++ lit "Constraints:" ++ [LF]
    ++ lit "2 <= nums.length <= 10^4".

(** Everything in reach; the model answers with a text that carries no
    unlock signal. *)
Definition quietWorld : Page.World :=
  {| Page.online := true;
     Page.gemini := fun _ => Reply (Some (lit "Tell me more about the edge cases."));
     Page.extract := fun _ => RunCode.NoJson;
     Page.draw := 0 |}.

(** The application's routes are out of reach: every [fetch] rejects. *)
Definition offlineWorld : Page.World :=
  {| Page.online := false;
     Page.gemini := fun _ => FetchRejected;
     Page.extract := fun _ => RunCode.NoJson;
     Page.draw := 0 |}.

(** The model endpoint is down, the application's own routes answer. *)
Definition modelDownWorld : Page.World :=
  {| Page.online := true;
     Page.gemini := fun _ => FetchRejected;
     Page.extract := fun _ => RunCode.NoJson;
     Page.draw := 0 |}.

(** A fresh session with the Two Sum problem loaded. *)
Definition sessionWithProblem : Page.State :=
  Page.setProblem (Some problemTwoSum) (Page.initial 0).

(** The session once the approach above has been accepted: Coding phase,
    editor unlocked. *)
Definition codingSession : Page.State :=
  Page.handleSendMessage quietWorld approachText sessionWithProblem.

(** The metadata of a submission through the orchestrator. *)
Definition sampleMetadata : EvaluationAgent.Metadata :=
  {| EvaluationAgent.md_language := lit "javascript";
     EvaluationAgent.md_skillLevel := Beginner;
     EvaluationAgent.md_hintsUsed := 0;
     EvaluationAgent.md_userApproach := approachText |}.


(** *** Routes and calls *)

(** The text a wrapper that catches hands back: the generated text, the
    default for an empty generation, or the default of the [catch]. *)
Definition settled (g : Gemini) (prompt : Prompt)
    (whenEmpty whenFailed : jsstring) : jsstring :=
  match g prompt with
  | Reply text => orElse text whenEmpty
  | _ => whenFailed
  end.

(** The text the mentor route's wrapper returns for a request. *)
Definition mentorText (g : Gemini) (rq : Mentor.Request) (p : Problem) : jsstring :=
  settled g (Mentor.promptFor rq p)
    (lit "Sorry, I could not generate a response.")
    (lit "I apologize, but I encountered an error. Please try again.").

(** [problem.testCases || []] *)
Definition testCasesOf (p : Problem) : list TestCase :=
  match p_testCases p with
  | Some cases => cases
  | None => []
  end.

(** The Mentor call of [handleSendMessage] is successful: the route is
    reached and answers [success: true]. *)
Definition mentorCallSucceeds (w : Page.World) (message : jsstring)
    (s : Page.State) : Prop :=
  exists data,
    Page.fetchJson w (Mentor.POST (Page.gemini w) (Page.mentorBody message s))
      = Json data
    /\ Mentor.mr_success data = true.

(** The Mentor call of [handleSendMessage], decided: the routes are in
    reach, the message is not empty and a problem is loaded. *)
Definition mentorCallOk (w : Page.World) (message : jsstring) (s : Page.State)
  : bool :=
  Page.online w && truthy message
  && match Page.problem s with Some _ => true | None => false end.

(** The text the mentor route gets back from its wrapper for the message
    (empty when no problem is loaded and nothing is asked). *)
Definition mentorReply (w : Page.World) (message : jsstring) (s : Page.State)
  : jsstring :=
  match Page.problem s with
  | Some p =>
      match fst (Mentor.callGeminiAPI (Page.gemini w)
                   (Mentor.promptFor (Page.mentorBody message s) p)) with
      | Ok text => text
      | Throw _ => []
      end
  | None => []
  end.

(** The Hint call of [handleHintRequest] is successful. *)
Definition hintCallSucceeds (w : Page.World) (s : Page.State) : Prop :=
  exists data,
    Page.fetchJson w (Hint.POST (Page.gemini w) (Page.hintBody s)) = Json data
    /\ Hint.hr_success data = Some true.

(** The Evaluation call of [handleComplexitySubmit] is successful. *)
Definition evaluationCallSucceeds (w : Page.World)
    (timeComplexity spaceComplexity : option jsstring) (s : Page.State) : Prop :=
  exists data,
    Page.fetchJson w
      (Evaluate.POST (Page.gemini w)
         (Page.evaluateBody timeComplexity spaceComplexity s)) = Json data
    /\ Evaluate.er_success data = true.


(** *** The session *)

(** Phase, editor lock, hint count and dialog flag of a state. *)
Definition core (s : Page.State) : Phase * bool * nat * bool :=
  (Page.sessionState s, Page.isEditorLocked s, Page.hintsUsed s,
   Page.showComplexityModal s).

(** The invariant of the reachable states: the editor is locked exactly in
    the Approach phase, and the complexity dialog is never open there. *)
Definition consistent (s : Page.State) : Prop :=
  (Page.isEditorLocked s = true <-> Page.sessionState s = Approach)
  /\ (Page.showComplexityModal s = true -> Page.sessionState s <> Approach).

(** The unlock signal of a mentor response: the sentinel token, or one of
    the five phrases the route looks for in the lower-cased text. *)
Definition unlockSignal (response : jsstring) : bool :=
  includes response (lit "UNLOCK_EDITOR")
  || includes (toLowerCase response) (lit "good approach")
  || includes (toLowerCase response) (lit "correct")
  || includes (toLowerCase response) (lit "ready to code")
  || includes (toLowerCase response) (lit "start coding")
  || includes (toLowerCase response) (lit "implement").

(** An action on which an unlock condition fires: a message sent during
    the Approach phase whose Mentor call succeeds and either brings an
    unlock signal or carries an approach text longer than 30. *)
Definition unlockFires (a : Page.Action) (s : Page.State) : bool :=
  match a with
  | Page.SendMessage w message =>
      Page.available a s
      && Phase_eqb (Page.sessionState s) Approach
      && mentorCallOk w message s
      && (unlockSignal (mentorReply w message s) || (30 <? length message))
  | _ => false
  end.

(** Some action of the sequence, run from [s], fired an unlock condition. *)
Fixpoint unlockFired (actions : list Page.Action) (s : Page.State) : bool :=
  match actions with
  | [] => false
  | a :: rest => unlockFires a s || unlockFired rest (Page.step a s)
  end.


(** *** The hint heuristic *)

(** The candidate lists of the four tiers of the hint heuristic. *)
Definition gettingStartedHints : list jsstring :=
  [ lit "Start by understanding the input and expected output format";
    lit "Think about what data structure would be most helpful here";
    lit "Consider writing the function signature first" ].

Definition structuralHints (code : jsstring) (p : Problem) : list jsstring :=
  (if negb (test AutomaticHint.reLoop code)
      && includes (toLowerCase (p_description p)) (lit "array")
   then [lit "You might need to iterate through the array"] else [])
  ++ (if negb (test AutomaticHint.reConditional code)
      then [lit "Consider what conditions you need to check"] else [])
  ++ (if negb (test AutomaticHint.reReturn code)
      then [lit "Don't forget to return the result"] else []).

Definition testingHints : list jsstring :=
  [ lit "Test your logic with the given examples";
    lit "Consider edge cases like empty inputs";
    lit "Think about the time complexity of your approach" ].

(** The test that guards the problem-specific block of the heuristic. *)
Definition mentionsTwoSum (p : Problem) : bool :=
  includes (toLowerCase (p_title p)) (lit "two sum").


(** *** The parsers *)

(** The cases [parseTestCases] pushes from index [2 * j] on: one per
    complete pair of lines. *)
Definition pairsFrom (lines : list jsstring) (j : nat) : list TestCase :=
  map (fun k => Leetcode.caseAt lines (2 * k)) (seq j (length lines / 2 - j)).

(** The number of "Example N:" headers in a text: the positions at which
    [/Example \d+:/] matches. *)
Fixpoint countHeaders (s : jsstring) : nat :=
  (match ProblemPanel.headerLength s with Some _ => 1 | None => 0 end)
  + match s with
    | [] => 0
    | _ :: s' => countHeaders s'
    end.

(** Consecutive pieces of a text each of which begins, in the text, with a
    header. *)
Fixpoint headed (blocks : list jsstring) : Prop :=
  match blocks with
  | [] => True
  | b :: rest =>
      ProblemPanel.headerLength (b ++ List.concat rest) <> None /\ headed rest
  end.

(** No header starts at any of the first [k] positions of [s]. *)
Definition headerFree (k : nat) (s : jsstring) : Prop :=
  forall j, j < k -> ProblemPanel.headerLength (skipn j s) = None.

(** The text begins with the letter that opens a header. *)
Definition beginsWithE (s : jsstring) : bool :=
  match s with
  | c :: _ => Ascii.eqb "E" c
  | [] => false
  end.

(** [label] matches (without regard to case) at none of the first [n]
    positions of [s]. *)
Definition labelAbsent (label s : jsstring) (n : nat) : bool :=
  forallb (fun j => negb (startsWith (toLowerCase (skipn j s)) label)) (seq 0 n).

(** A value as it stands on an "Input:" or "Output:" line: not empty, not
    beginning with white space, free of line terminators. *)
Definition plainValue (v : jsstring) : bool :=
  match v with
  | [] => false
  | c :: _ => negb (isSpace c) && forallb (fun x => negb (isLineTerminator x)) v
  end.

(** The end of the text or the end of a line. *)
Definition lineEnd (rest : jsstring) : bool :=
  match rest with
  | [] => true
  | c :: _ => isLineTerminator c
  end.

(** The start of a line break. *)
Definition lineBreak (s : jsstring) : bool :=
  match s with
  | [] => false
  | c :: _ => isLineTerminator c
  end.


(** *** The inactivity timer under a virtual clock *)

(** The three conditions under which [handleCodeChange] arms the timer. *)
Definition arms (locked : bool) (phase : Phase) (newCode : jsstring) : bool :=
  negb locked && Phase_eqb phase Coding && (10 <? length (trim newCode)).

(** Edits at given times, then silence until [horizon]: before each edit
    the clock reaches the time of the edit, and the edit calls the
    [handleCodeChange] of the render [pick] chooses.  The result is the
    final state and the times at which [handleAutomaticHint] was called. *)
Fixpoint simulateWith (pick : Page.State -> Page.Render) (w : Page.World)
    (edits : list (Z * jsstring)) (horizon : Z) (s : Page.State)
  : Page.State * list Z :=
  match edits with
  | [] => Page.runTimers w horizon s
  | (now, newCode) :: rest =>
      let '(s1, fired1) := Page.runTimers w now s in
      let '(s2, fired2) :=
        simulateWith pick w rest horizon
          (Page.handleCodeChange (pick s1) now newCode s1) in
      (s2, fired1 ++ fired2)
  end.

(** Edits typed into the editor at given times, then silence until
    [horizon]: before each edit the clock reaches the time of the edit, and
    the edit is the [EditCode] action of the page, which changes the
    content of the editor and so runs the listener the editor registered.
    The result is the final state and the times at which
    [handleAutomaticHint] was called. *)
Fixpoint simulate (w : Page.World) (edits : list (Z * jsstring)) (horizon : Z)
    (s : Page.State) : Page.State * list Z :=
  match edits with
  | [] => Page.runTimers w horizon s
  | (now, newCode) :: rest =>
      let '(s1, fired1) := Page.runTimers w now s in
      let '(s2, fired2) :=
        simulate w rest horizon (Page.step (Page.EditCode now newCode) s1) in
      (s2, fired1 ++ fired2)
  end.

(** A session in which the editor has loaded, a problem is loaded and the
    approach has been accepted: the phase is Coding and the editor takes
    typing. *)
Definition typingSession : Page.State :=
  Page.run [ Page.EditorLoaded;
             Page.LoadProblem quietWorld problemTwoSum;
             Page.SendMessage quietWorld approachText ] (Page.initial 0).

(** The same edits, had each called the [handleCodeChange] of the latest
    render. *)
Definition simulateLatest : Page.World -> list (Z * jsstring) -> Z -> Page.State
                            -> Page.State * list Z :=
  simulateWith Page.render.

(** The time of the next edit, or the horizon after the last one. *)
Definition nextEdit (edits : list (Z * jsstring)) (horizon : Z) : Z :=
  match edits with
  | (now, _) :: _ => now
  | [] => horizon
  end.

(** A debounce with a quiet interval of 3000 ms: an edit that arms the
    timer fires once, 3000 ms later, when no edit comes before that; any
    other edit fires nothing. *)
Fixpoint debounced (locked : bool) (phase : Phase)
    (edits : list (Z * jsstring)) (horizon : Z) : list Z :=
  match edits with
  | [] => []
  | (now, newCode) :: rest =>
      (if arms locked phase newCode && (now + 3000 <=? nextEdit rest horizon)%Z
       then [(now + 3000)%Z] else [])
      ++ debounced locked phase rest horizon
  end.

(** The due time of the timer left pending at the horizon: that of the
    last edit, when it armed the timer and the timer is not yet due. *)
Fixpoint pendingAtHorizon (locked : bool) (phase : Phase)
    (edits : list (Z * jsstring)) (horizon : Z) : list Z :=
  match edits with
  | [] => []
  | [(now, newCode)] =>
      if arms locked phase newCode && negb (now + 3000 <=? horizon)%Z
      then [(now + 3000)%Z] else []
  | _ :: rest => pendingAtHorizon locked phase rest horizon
  end.

(** The pending timer of a state, as a due time: none, or exactly the one
    the ref names, set 3000 ms after the last activity. *)
Definition timerState (s : Page.State) (pending : option Z) : Prop :=
  match pending with
  | None => Page.timers s = []
  | Some due =>
      exists t,
        Page.timers s = [t]
        /\ Page.timer_due t = due
        /\ Page.inactivityTimerRef s = Some (Page.timer_id t)
        /\ due = (Page.lastActivityRef s + 3000)%Z
  end.

(** What a pending timer fires when the clock reaches [now]. *)
Definition firesBy (pending : option Z) (now : Z) : list Z :=
  match pending with
  | Some due => if (due <=? now)%Z then [due] else []
  | None => []
  end.

(** What is still pending once the clock has reached [now]. *)
Definition pendingPast (pending : option Z) (now : Z) : option Z :=
  match pending with
  | Some due => if (due <=? now)%Z then None else Some due
  | None => None
  end.

(** The due times of the pending timers. *)
Definition dueList (pending : option Z) : list Z :=
  match pending with
  | Some due => [due]
  | None => []
  end.


(** *** Further sample data *)

(** The model answers a simulated run with a JSON object that reports all
    tests as passed. *)
Definition passingWorld : Page.World :=
  {| Page.online := true;
     Page.gemini := fun _ => Reply (Some (lit "{ results: [], allPassed: true }"));
     Page.extract := fun _ =>
       RunCode.Parsed
         {| RunCode.ex_results := RunCode.FromModel (JArray []);
            RunCode.ex_allPassed := JBool true |};
     Page.draw := 0 |}.

(** The model answers with an object whose [allPassed] is the string
    "false". *)
Definition sloppyWorld : Page.World :=
  {| Page.online := true;
     Page.gemini := fun _ => Reply (Some (lit "{ allPassed: 'false' }"));
     Page.extract := fun _ =>
       RunCode.Parsed
         {| RunCode.ex_results := RunCode.FromModel JNull;
            RunCode.ex_allPassed := JString (lit "false") |};
     Page.draw := 0 |}.

(** *** Submissions *)

(** What the evaluate route requires of the request the page sends: code
    that is not empty, a loaded problem, and both complexity estimates
    present and not empty. *)
Definition submissionComplete (timeComplexity spaceComplexity : option jsstring)
    (s : Page.State) : bool :=
  truthy (Page.code s)
  && match Page.problem s with Some _ => true | None => false end
  && match Evaluate.present timeComplexity with Some _ => true | None => false end
  && match Evaluate.present spaceComplexity with Some _ => true | None => false end.



(** *** Whole sessions *)

(** The order of the phases. *)
Definition phaseRank (p : Phase) : nat :=
  match p with
  | Approach => 0
  | Coding => 1
  | Evaluation => 2
  end.

(** What the inactivity timer lives in: the queue and the two refs. *)
Definition timerFields (s : Page.State) : list Page.Timer * option nat * Z :=
  (Page.timers s, Page.inactivityTimerRef s, Page.lastActivityRef s).

(** The toast of an explicit hint request. *)
Definition isExplicitHint (t : Page.Toast) : bool :=
  match Page.toast_message t with
  | Page.HintText _ => true
  | _ => false
  end.

(** The number of explicit hints shown so far. *)
Definition hintsShown (s : Page.State) : nat :=
  length (filter isExplicitHint (Page.toasts s)).



(** *** Tags and entities *)





(** *** Simulated runs *)


(** Test cases the prompt cannot be built from: a value that is not an
    array, or an array with a [null] entry. *)
Definition malformed (testCases : RunCode.Cases) : Prop :=
  (exists length, testCases = RunCode.NotArray length)
  \/ (exists items, testCases = RunCode.Array items /\ In None items).

(** An execution in which every test case failed: [allPassed] is false and
    the results are, case by case and in order, the case's input and
    expected output with [actual], [passed] false and [error]. *)
Definition everyCaseFailed (cases : list TestCase) (actual : jsstring)
    (error : RunCode.ErrorText) (execution : RunCode.Execution) : Prop :=
  RunCode.ex_allPassed execution = JBool false
  /\ RunCode.ex_results execution =
       RunCode.Listed
         (map (fun tc =>
                 RunCode.mkTestResult (tc_input tc) (tc_expectedOutput tc)
                   actual false error)
              cases).



(** *** Lines of a text *)

(** The lines of a text, read from left to right: a line ends at a line
    feed, and the last line at the end of the text. *)
Fixpoint linesFrom (current s : jsstring) : list jsstring :=
  match s with
  | [] => [current]
  | c :: s' =>
      if Ascii.eqb c LF then current :: linesFrom [] s'
      else linesFrom (current ++ [c]) s'
  end.

Definition textLines (s : jsstring) : list jsstring := linesFrom [] s.

(** A line holds a unit that is not white space. *)
Definition hasVisible (line : jsstring) : bool :=
  existsb (fun c => negb (isSpace c)) line.

(** The lines that are not blank, and the lines that are not empty: a line
    of white space only is among the second but not among the first. *)
Definition visibleLines (s : jsstring) : list jsstring :=
  filter hasVisible (textLines s).

Definition nonEmptyLines (s : jsstring) : list jsstring :=
  filter truthy (textLines s).

(** An example block written line by line: [head], then an "Input:" line
    with the value [i], then up to an "Output:" line with the value [o];
    neither label occurs earlier in the block. *)
Definition exampleBlock (head sp i mid sq o rest : jsstring) : jsstring :=
  head ++ lit "Input:" ++ sp ++ i ++ mid ++ lit "Output:" ++ sq ++ o ++ rest.

Definition exampleLines (head sp i mid sq o rest : jsstring) : bool :=
  labelAbsent (lit "input:") (exampleBlock head sp i mid sq o rest) (length head)
  && forallb isSpace sp && plainValue i && lineBreak mid
  && labelAbsent (lit "output:") (exampleBlock head sp i mid sq o rest)
       (length (head ++ lit "Input:" ++ sp ++ i ++ mid))
  && forallb isSpace sq && plainValue o && lineEnd rest.

(* ================================================================== *)
(** * Properties *)
(* ================================================================== *)

(** ** The string layer on concrete inputs *)

Example trim_strips_both_ends :
  trim ([LF] ++ lit "  two  words " ++ [ascii_of_nat 9; ascii_of_nat 160]) =
    lit "two  words".
Proof. reflexivity. Qed.

Example toLowerCase_latin1 :
  toLowerCase (lit "Good APPROACH" ++ [ascii_of_nat 201; ascii_of_nat 215]) =
    lit "good approach" ++ [ascii_of_nat 233; ascii_of_nat 215].
Proof. reflexivity. Qed.

Example replace_first_only :
  replace (lit "a UNLOCK_EDITOR b UNLOCK_EDITOR") (lit "UNLOCK_EDITOR") [] =
    lit "a  b UNLOCK_EDITOR".
Proof. reflexivity. Qed.

Example split_keeps_empty_lines :
  split LF (lit "a" ++ [LF; LF] ++ lit "b" ++ [LF]) = [lit "a"; []; lit "b"; []].
Proof. reflexivity. Qed.

Example regex_tests :
  map (test AutomaticHint.reLoop)
      [lit "for (let i = 0;"; lit "while(x)"; lit "for x in xs"; lit "before (x)"]
    = [true; true; true; false]
  /\ map (test AutomaticHint.reReturn) [lit "return x"; lit "return;"]
     = [true; false]
  /\ map (test AutomaticHint.reConditional) [lit "if  (a)"; lit "elif a:"]
     = [true; false]
  /\ map (test AutomaticHint.reVariables) [lit "x  = 1"; lit "let y"; lit "f()"]
     = [true; true; false].
Proof. repeat split; reflexivity. Qed.

Example stripQuotes_examples :
  map AutomaticHint.stripQuotes
      [[Page.quote] ++ lit "Use a map" ++ [Page.quote]; lit "'x"; [Page.quote]; lit "plain"]
    = [lit "Use a map"; lit "x"; []; lit "plain"].
Proof. reflexivity. Qed.

Example greedy_space_gives_back :
  ProblemPanel.matchLabel (lit "input:") (lit "Input: " ++ [LF]) = Some (lit " ")
  /\ ProblemPanel.matchLabel (lit "input:") (lit "Input:" ++ [LF] ++ lit "x = 1")
     = Some (lit "x = 1")
  /\ ProblemPanel.matchLabel (lit "input:") (lit "input:" ++ [LF]) = None.
Proof. repeat split; reflexivity. Qed.

Example parseTestCases_drops_unpaired_line :
  Leetcode.parseTestCases
    (Some (lit "[2,7,11,15]" ++ [LF] ++ lit "9" ++ [LF; LF]
             ++ lit "  [3,2,4] " ++ [LF] ++ lit "6" ++ [LF] ++ lit "[3,3]")) =
    [ mkTestCase 1 (lit "[2,7,11,15]") (lit "9") None;
      mkTestCase 2 (lit "[3,2,4]") (lit "6") None ].
Proof. reflexivity. Qed.

(** ** The LeetCode example parser *)

Section ParseTestCases.

Import Leetcode.

Variable lines : list jsstring.

Let n := length lines.

Lemma loop_pairs (fuel : nat) :
  forall j acc,
    n <= 2 * (j + fuel) ->
    loop fuel (2 * j) lines acc = acc ++ pairsFrom lines j.
Proof.
  unfold pairsFrom. fold n.
  pose proof (Nat.div_mod_eq n 2) as Hdiv.
  pose proof (Nat.mod_upper_bound n 2 ltac:(discriminate)) as Hmod.
  induction fuel as [|fuel IH]; intros j acc Hf; cbn [loop]; fold n.
  - replace (n / 2 - j) with 0 by lia.
    cbn [seq map]. now rewrite app_nil_r.
  - destruct (Nat.ltb_spec (2 * j) n) as [Hlt|Hge].
    + replace (2 * j + 2) with (2 * S j) by lia.
      rewrite IH by lia.
      destruct (Nat.ltb_spec (2 * j + 1) n) as [Hlt'|Hge'].
      * replace (n / 2 - j) with (S (n / 2 - S j)) by lia.
        cbn [seq map]. now rewrite <- app_assoc.
      * replace (n / 2 - S j) with 0 by lia.
        replace (n / 2 - j) with 0 by lia.
        reflexivity.
    + replace (n / 2 - j) with 0 by lia.
      cbn [seq map]. now rewrite app_nil_r.
Qed.

Lemma loop_from_zero (fuel : nat) :
  n <= 2 * fuel -> loop fuel 0 lines [] = pairsFrom lines 0.
Proof. intros Hf. exact (loop_pairs fuel 0 [] Hf). Qed.

(** Past [length lines] iterations more fuel changes nothing: the loop has
    left through its exit test. *)
Lemma loop_fuel_enough (extra : nat) :
  loop (n + extra) 0 lines [] = loop n 0 lines [].
Proof. rewrite !loop_from_zero by lia. reflexivity. Qed.

Lemma loop_length : length (loop n 0 lines []) = n / 2.
Proof.
  rewrite loop_from_zero by lia. unfold pairsFrom. fold n.
  rewrite length_map, length_seq. lia.
Qed.

Lemma loop_nth (k : nat) :
  k < n / 2 ->
  nth_error (loop n 0 lines []) k = Some (caseAt lines (2 * k)).
Proof.
  intros Hk. rewrite loop_from_zero by lia. unfold pairsFrom. fold n.
  rewrite nth_error_map, nth_error_seq.
  destruct (Nat.ltb_spec k (n / 2 - 0)); [reflexivity | lia].
Qed.

End ParseTestCases.

(** ** The wrappers around the model endpoint *)

Lemma orElse_truthy (text : option jsstring) (fallback : jsstring) :
  truthy fallback = true -> truthy (orElse text fallback) = true.
Proof.
  intros Hf. destruct text as [t|]; simpl; [|exact Hf].
  destruct (truthy t) eqn:Ht; [exact Ht | exact Hf].
Qed.

Lemma settled_truthy g prompt whenEmpty whenFailed :
  truthy whenEmpty = true -> truthy whenFailed = true ->
  truthy (settled g prompt whenEmpty whenFailed) = true.
Proof.
  intros He Hf. unfold settled.
  destruct (g prompt); auto using orElse_truthy.
Qed.

Ltac settle g prompt :=
  unfold settled, tryCatch, bind, generateContent, ret;
  destruct (g prompt); reflexivity.

Lemma Mentor_callGeminiAPI_returns g prompt :
  Mentor.callGeminiAPI g prompt =
    (Ok (settled g prompt (lit "Sorry, I could not generate a response.")
           (lit "I apologize, but I encountered an error. Please try again.")),
     [prompt]).
Proof. unfold Mentor.callGeminiAPI. settle g prompt. Qed.

Lemma Hint_callGeminiAPI_returns g prompt :
  Hint.callGeminiAPI g prompt =
    (Ok (settled g prompt (lit "Try breaking down the problem into smaller steps.")
           (lit "Consider what data structure might help you solve this efficiently.")),
     [prompt]).
Proof. unfold Hint.callGeminiAPI. settle g prompt. Qed.

Lemma Evaluate_callGeminiAPI_returns g prompt :
  Evaluate.callGeminiAPI g prompt =
    (Ok (settled g prompt (lit "Great job completing the solution!")
           (lit "Great job completing the solution! Keep practicing to improve your skills.")),
     [prompt]).
Proof. unfold Evaluate.callGeminiAPI. settle g prompt. Qed.

Lemma AutomaticHint_callGeminiAPI_returns g prompt :
  AutomaticHint.callGeminiAPI g prompt = (Ok (settled g prompt [] []), [prompt]).
Proof. unfold AutomaticHint.callGeminiAPI. settle g prompt. Qed.


(** ** The hint route *)

Lemma Hint_askModel_returns g rq p :
  Hint.askModel g rq p =
    (Ok (Hint.hinted
           (Some (settled g
                    (HintPrompt (Hint.hq_skillLevel rq) p (Hint.hq_code rq)
                       (Hint.hq_sessionState rq))
                    (lit "Try breaking down the problem into smaller steps.")
                    (lit "Consider what data structure might help you solve this efficiently.")))),
     [HintPrompt (Hint.hq_skillLevel rq) p (Hint.hq_code rq)
        (Hint.hq_sessionState rq)]).
Proof.
  unfold Hint.askModel. rewrite Hint_callGeminiAPI_returns. reflexivity.
Qed.

Lemma Hint_POST_hinted g rq p :
  Hint.hq_problem rq = Some p ->
  exists hint,
    Hint.POST g rq =
      (Ok (Hint.hinted (Some hint)),
       [HintPrompt (Hint.hq_skillLevel rq) p (Hint.hq_code rq)
          (Hint.hq_sessionState rq)]).
Proof.
  intros Hp. eexists. unfold Hint.POST.
  rewrite Hp, Hint_askModel_returns. reflexivity.
Qed.

(** C9.  A hint request whose body carries a problem is answered with
    [success: true] and a non-empty hint whatever happens to the call to the
    model, because the wrapper turns every failure into a fixed non-empty
    text; the inner [try] block therefore always returns, and whatever
    handler stands in its [catch] (the predefined hints chosen by
    [hintsUsed % hints.length]) is never run. *)
Theorem C9_hint_route_always_succeeds
    (g : Gemini) (rq : Hint.Request) (p : Problem) :
  Hint.hq_problem rq = Some p ->
  exists hint,
    Hint.POST g rq =
      (Ok {| Hint.hr_status := 200; Hint.hr_success := Some true;
             Hint.hr_hint := Some hint; Hint.hr_error := None |},
       [HintPrompt (Hint.hq_skillLevel rq) p (Hint.hq_code rq)
          (Hint.hq_sessionState rq)])
    /\ hint <> []
    /\ (forall handler,
          tryCatch (Hint.askModel g rq p) handler = Hint.askModel g rq p).
Proof.
  intros Hp.
  eexists. split; [|split].
  - unfold Hint.POST. rewrite Hp, Hint_askModel_returns. reflexivity.
  - intros He.
    pose proof (settled_truthy g
      (HintPrompt (Hint.hq_skillLevel rq) p (Hint.hq_code rq) (Hint.hq_sessionState rq))
      (lit "Try breaking down the problem into smaller steps.")
      (lit "Consider what data structure might help you solve this efficiently.")
      eq_refl eq_refl) as Ht.
    rewrite He in Ht. discriminate.
  - intros handler. rewrite Hint_askModel_returns. reflexivity.
Qed.

Lemma C9_hint_route_always_succeeds_witness :
  exists hint,
    Hint.POST (fun _ => FetchRejected)
      (Hint.mkRequest (Some problemTwoSum) Intermediate None Coding (Some 2)) =
      (Ok {| Hint.hr_status := 200; Hint.hr_success := Some true;
             Hint.hr_hint := Some hint; Hint.hr_error := None |},
       [HintPrompt Intermediate problemTwoSum None Coding])
    /\ hint <> []
    /\ (forall handler,
          tryCatch
            (Hint.askModel (fun _ => FetchRejected)
               (Hint.mkRequest (Some problemTwoSum) Intermediate None Coding (Some 2))
               problemTwoSum) handler =
          Hint.askModel (fun _ => FetchRejected)
            (Hint.mkRequest (Some problemTwoSum) Intermediate None Coding (Some 2))
            problemTwoSum).
Proof.
  exact (C9_hint_route_always_succeeds (fun _ => FetchRejected)
           (Hint.mkRequest (Some problemTwoSum) Intermediate None Coding (Some 2))
           problemTwoSum eq_refl).
Defined.

(** ** Validation in the run-code and evaluate routes *)

Lemma readCases_objects cases :
  RunCode.readCases (RunCode.Array (map Some cases)) = Some cases.
Proof.
  cbn [RunCode.readCases].
  induction cases as [|tc cases IH]; [reflexivity|].
  cbn [map RunCode.objects]. now rewrite IH.
Qed.

(** The route on a request of the page, in terms of the problem's list of
    test cases. *)
Lemma RunCode_POST_page g extract rq :
  RunCode.POST g extract rq =
    tryCatch
      (match RunCode.rq_problem rq with
       | Some problem =>
           if truthy (RunCode.rq_code rq) && truthy (RunCode.rq_language rq) then
             if length (testCasesOf problem) =? 0
             then ret (RunCode.failure 400
                         (lit "No test cases available for this problem"))
             else
               executionResult <-
                 RunCode.executeCode g extract (RunCode.rq_code rq)
                   (RunCode.Array (map Some (testCasesOf problem)))
                   (RunCode.rq_language rq) ;;
               ret {| RunCode.rr_status := 200;
                      RunCode.rr_success := true;
                      RunCode.rr_results :=
                        Some (RunCode.ex_results executionResult);
                      RunCode.rr_allPassed :=
                        RunCode.ex_allPassed executionResult;
                      RunCode.rr_error := None |}
           else ret (RunCode.failure 400
                       (lit "Code, language, and problem are required"))
       | None => ret (RunCode.failure 400
                        (lit "Code, language, and problem are required"))
       end)
      (fun _ => ret (RunCode.failure 500 (lit "Failed to run code"))).
Proof.
  unfold RunCode.POST, RunCode.respond, RunCode.bodyOf, testCasesOf.
  cbn [RunCode.b_problem RunCode.b_code RunCode.b_language].
  destruct (RunCode.rq_problem rq) as [problem|]; [|reflexivity].
  cbn [option_map].
  destruct (truthy (RunCode.rq_code rq) && truthy (RunCode.rq_language rq));
    [|reflexivity].
  destruct (p_testCases problem) as [cases|]; [|reflexivity].
  cbn [option_map RunCode.lengthOf]. rewrite length_map.
  destruct cases; reflexivity.
Qed.

(** C8.  Requests that miss a precondition are rejected and the action is
    not attempted: running code against a problem whose list of test cases
    is empty, and submitting for evaluation without a time-complexity or
    without a space-complexity estimate, are both answered with status 400
    and [success: false], and no prompt is sent to the model. *)
Theorem C8_missing_preconditions_rejected
    (g : Gemini) (extract : jsstring -> RunCode.Extracted)
    (run : RunCode.Request) (p : Problem) (ev : Evaluate.Request) :
  RunCode.rq_problem run = Some p ->
  testCasesOf p = [] ->
  Evaluate.present (Evaluate.eq_timeComplexity ev) = None
    \/ Evaluate.present (Evaluate.eq_spaceComplexity ev) = None ->
  (exists error,
     RunCode.POST g extract run =
       (Ok (RunCode.failure 400 error), []))
  /\ (exists error,
        Evaluate.POST g ev = (Ok (Evaluate.failure 400 error), [])).
Proof.
  intros Hp Hcases Hmissing. split.
  - rewrite RunCode_POST_page, Hp, Hcases.
    destruct (truthy (RunCode.rq_code run) && truthy (RunCode.rq_language run));
      eexists; reflexivity.
  - unfold Evaluate.POST.
    destruct (Evaluate.eq_problem ev) as [problem|]; [|eexists; reflexivity].
    destruct Hmissing as [Ht|Hs].
    + rewrite Ht. eexists; reflexivity.
    + rewrite Hs.
      destruct (Evaluate.present (Evaluate.eq_timeComplexity ev));
        eexists; reflexivity.
Qed.

Lemma C8_missing_preconditions_rejected_witness :
  (exists error,
     RunCode.POST (fun _ => Reply None) (fun _ => RunCode.NoJson)
       (RunCode.mkRequest (lit "return 1") (lit "javascript")
          (Some problemWithoutCases) Beginner) =
       (Ok (RunCode.failure 400 error), []))
  /\ (exists error,
        Evaluate.POST (fun _ => Reply None)
          (Evaluate.mkRequest (lit "return 1") (lit "javascript")
             (Some problemWithoutCases) Beginner 0 [] (Some (lit "O(n)")) None) =
          (Ok (Evaluate.failure 400 error), [])).
Proof.
  apply (C8_missing_preconditions_rejected
           (fun _ => Reply None) (fun _ => RunCode.NoJson)
           (RunCode.mkRequest (lit "return 1") (lit "javascript")
              (Some problemWithoutCases) Beginner)
           problemWithoutCases
           (Evaluate.mkRequest (lit "return 1") (lit "javascript")
              (Some problemWithoutCases) Beginner 0 [] (Some (lit "O(n)")) None)).
  - reflexivity.
  - reflexivity.
  - right. reflexivity.
Defined.

(** With every precondition met the routes do reach the model. *)
Lemma routes_call_model_when_valid :
  snd (RunCode.POST (fun _ => Reply None) (fun _ => RunCode.NoJson)
         (RunCode.mkRequest (lit "return 1") (lit "javascript")
            (Some problemTwoSum) Beginner)) <> []
  /\ snd (Evaluate.POST (fun _ => Reply None)
            (Evaluate.mkRequest (lit "return 1") (lit "javascript")
               (Some problemTwoSum) Beginner 0 []
               (Some (lit "O(n)")) (Some (lit "O(1)")))) <> [].
Proof. split; vm_compute; discriminate. Qed.

(** ** The mentor route and [handleSendMessage] *)

Lemma shouldUnlockEditor_signal_or_length (response approach : jsstring) :
  Mentor.shouldUnlockEditor response approach =
    unlockSignal response || (30 <? length approach).
Proof.
  unfold Mentor.shouldUnlockEditor, unlockSignal.
  destruct (includes response (lit "UNLOCK_EDITOR")); simpl; [reflexivity|].
  destruct (30 <? length approach); simpl; [|now rewrite !orb_false_r].
  now rewrite !orb_true_r.
Qed.

(** What the route answers to a request with a message and a problem. *)
Lemma Mentor_POST_valid g rq p :
  Mentor.mq_problem rq = Some p ->
  truthy (Mentor.mq_message rq) = true ->
  let response := mentorText g rq p in
  let shouldUnlock :=
    Phase_eqb (Mentor.mq_sessionState rq) Approach
    && Mentor.shouldUnlockEditor response (Mentor.mq_message rq) in
  Mentor.POST g rq =
    (Ok {| Mentor.mr_status := 200;
           Mentor.mr_success := true;
           Mentor.mr_response :=
             Some (trim (replace response (lit "UNLOCK_EDITOR") []));
           Mentor.mr_unlockEditor := Some shouldUnlock;
           Mentor.mr_newState :=
             Some (if shouldUnlock then Coding else Mentor.mq_sessionState rq);
           Mentor.mr_error := None |},
     [Mentor.promptFor rq p]).
Proof.
  intros Hp Hm. unfold Mentor.POST, mentorText.
  rewrite Hp, Hm, Mentor_callGeminiAPI_returns. reflexivity.
Qed.

Lemma Mentor_POST_invalid g rq :
  Mentor.mq_problem rq = None \/ truthy (Mentor.mq_message rq) = false ->
  Mentor.POST g rq =
    (Ok (Mentor.failure 400 (lit "Message and problem are required")), []).
Proof.
  unfold Mentor.POST. intros [Hp|Hm].
  - rewrite Hp. reflexivity.
  - rewrite Hm. destruct (Mentor.mq_problem rq); reflexivity.
Qed.

Lemma mentorCallSucceeds_inv w message s :
  mentorCallSucceeds w message s ->
  Page.online w = true
  /\ truthy message = true
  /\ exists p, Page.problem s = Some p.
Proof.
  intros [data [Hfetch Hsucc]]. unfold Page.fetchJson in Hfetch.
  destruct (Page.online w); [|discriminate].
  destruct (Page.problem s) as [p|] eqn:Hp.
  - destruct (truthy message) eqn:Hm; [eauto|].
    rewrite Mentor_POST_invalid in Hfetch by (right; exact Hm).
    simpl in Hfetch. injection Hfetch as <-. discriminate.
  - rewrite Mentor_POST_invalid in Hfetch by (left; exact Hp).
    simpl in Hfetch. injection Hfetch as <-. discriminate.
Qed.

Lemma mentorReply_text w message s p :
  Page.problem s = Some p ->
  mentorReply w message s = mentorText (Page.gemini w) (Page.mentorBody message s) p.
Proof.
  intros Hp. unfold mentorReply, mentorText.
  rewrite Hp, Mentor_callGeminiAPI_returns. reflexivity.
Qed.

(** The outcome of [handleSendMessage] on the two fields of interest after
    a successful call, in terms of the route's verdict. *)
Lemma handleSendMessage_success w message s p :
  Page.online w = true ->
  truthy message = true ->
  Page.problem s = Some p ->
  let unlock :=
    Phase_eqb (Page.sessionState s) Approach
    && Mentor.shouldUnlockEditor (mentorReply w message s) message in
  Page.isEditorLocked (Page.handleSendMessage w message s) =
    Page.isEditorLocked s && negb unlock
  /\ Page.sessionState (Page.handleSendMessage w message s) =
       (if unlock then Coding else Page.sessionState s).
Proof.
  intros Hon Hm Hp unlock. subst unlock.
  rewrite (mentorReply_text w message s p Hp).
  unfold Page.handleSendMessage, Page.fetchJson. rewrite Hon.
  rewrite (Mentor_POST_valid (Page.gemini w) (Page.mentorBody message s) p Hp Hm).
  cbn [fst Mentor.mr_success Mentor.mr_unlockEditor Mentor.mr_newState
       Page.mentorBody Mentor.mq_sessionState Mentor.mq_message].
  destruct (Phase_eqb (Page.sessionState s) Approach
            && Mentor.shouldUnlockEditor
                 (mentorText (Page.gemini w) (Page.mentorBody message s) p) message)
    eqn:Hu.
  - apply andb_prop in Hu. destruct Hu as [Hph _].
    destruct (Page.sessionState s) eqn:Hs; try discriminate.
    destruct (Page.isEditorLocked s) eqn:Hl; cbn; rewrite ?Hl; split; reflexivity.
  - destruct (Page.sessionState s) eqn:Hs, (Page.isEditorLocked s) eqn:Hl;
      cbn; rewrite ?Hl, ?Hs; split; reflexivity.
Qed.

(** C1.  In the Approach phase a successful Mentor call unlocks the editor
    and moves the phase to Coding whenever the mentor response carries an
    unlock signal or the approach text is longer than 30 code units; so an
    approach message longer than 30 unlocks whatever the response says. *)
Theorem C1_approach_unlocks_on_signal_or_length
    (w : Page.World) (message : jsstring) (s : Page.State) :
  Page.sessionState s = Approach ->
  mentorCallSucceeds w message s ->
  unlockSignal (mentorReply w message s) = true \/ 30 < length message ->
  Page.isEditorLocked (Page.handleSendMessage w message s) = false
  /\ Page.sessionState (Page.handleSendMessage w message s) = Coding.
Proof.
  intros Hphase Hsucc Hcond.
  destruct (mentorCallSucceeds_inv w message s Hsucc) as (Hon & Hm & p & Hp).
  destruct (handleSendMessage_success w message s p Hon Hm Hp) as [Hlock Hstate].
  rewrite Hlock, Hstate, Hphase, shouldUnlockEditor_signal_or_length.
  assert (Hu : unlockSignal (mentorReply w message s) || (30 <? length message) = true).
  { destruct Hcond as [Hsig|Hlen].
    - rewrite Hsig. reflexivity.
    - apply Nat.ltb_lt in Hlen. rewrite Hlen. apply orb_true_r. }
  rewrite Hu. simpl. split; [apply andb_false_r | reflexivity].
Qed.

(** The scenario of the specification: the mentor's text carries no signal,
    the approach text alone unlocks the editor. *)
Lemma C1_approach_unlocks_on_signal_or_length_witness :
  unlockSignal (mentorReply quietWorld approachText sessionWithProblem) = false
  /\ length approachText = 64
  /\ Page.isEditorLocked
       (Page.handleSendMessage quietWorld approachText sessionWithProblem) = false
  /\ Page.sessionState
       (Page.handleSendMessage quietWorld approachText sessionWithProblem) = Coding.
Proof.
  split; [reflexivity|]. split; [reflexivity|].
  apply (C1_approach_unlocks_on_signal_or_length
           quietWorld approachText sessionWithProblem).
  - reflexivity.
  - eexists. split; [reflexivity | reflexivity].
  - right. vm_compute. lia.
Defined.

(** ** Counting hints *)

Ltac break_match :=
  match goal with
  | |- context [match ?x with _ => _ end] => destruct x eqn:?
  end.

Lemma Hint_POST_without_problem g rq :
  Hint.hq_problem rq = None ->
  Hint.POST g rq = (Ok (Hint.failure 400 (lit "Problem is required")), []).
Proof. intros Hp. unfold Hint.POST. rewrite Hp. reflexivity. Qed.

Lemma hintCallSucceeds_iff w s :
  hintCallSucceeds w s <->
  Page.online w = true /\ exists p, Page.problem s = Some p.
Proof.
  unfold hintCallSucceeds, Page.fetchJson. split.
  - intros [data [Hfetch Hsucc]].
    destruct (Page.online w); [|discriminate]. split; [reflexivity|].
    destruct (Page.problem s) as [p|] eqn:Hp; [eauto|].
    rewrite Hint_POST_without_problem in Hfetch by exact Hp.
    simpl in Hfetch. injection Hfetch as <-. discriminate.
  - intros [Hon [p Hp]]. rewrite Hon.
    destruct (Hint_POST_hinted (Page.gemini w) (Page.hintBody s) p Hp)
      as [hint ->].
    eexists. split; reflexivity.
Qed.

Lemma handleHintRequest_hintsUsed w s :
  (hintCallSucceeds w s ->
   Page.hintsUsed (Page.handleHintRequest w s) = Page.hintsUsed s + 1)
  /\ (~ hintCallSucceeds w s ->
      Page.hintsUsed (Page.handleHintRequest w s) = Page.hintsUsed s).
Proof.
  unfold hintCallSucceeds, Page.handleHintRequest.
  destruct (Page.fetchJson w (Hint.POST (Page.gemini w) (Page.hintBody s)))
    as [|data]; split.
  - intros [data [Hd _]]. discriminate.
  - reflexivity.
  - intros [data' [Hd Hs]]. injection Hd as <-. rewrite Hs. reflexivity.
  - intros Hno. destruct (Hint.hr_success data) as [[|]|] eqn:Hs; try reflexivity.
    exfalso. apply Hno. eauto.
Qed.

(** *** What the automatic path can change: the toasts only *)

Lemma setToasts_same s : Page.setToasts (Page.toasts s) s = s.
Proof. destruct s; reflexivity. Qed.

Lemma handleAutomaticHint_toasts_only w scope currentCode s :
  exists shown,
    Page.handleAutomaticHint w scope currentCode s = Page.setToasts shown s.
Proof.
  unfold Page.handleAutomaticHint, Page.showToast.
  repeat break_match;
    first [ now (eexists; reflexivity)
          | now (exists (Page.toasts s); rewrite setToasts_same) ].
Qed.

Lemma inactivityCallback_toasts_only w now t s :
  exists shown,
    fst (Page.inactivityCallback w now t s) = Page.setToasts shown s.
Proof.
  unfold Page.inactivityCallback.
  destruct (3000 <=? now - Page.lastActivityRef s)%Z; simpl.
  - apply handleAutomaticHint_toasts_only.
  - exists (Page.toasts s). now rewrite setToasts_same.
Qed.

Lemma runCallbacks_toasts_only w due :
  forall s, exists shown,
    fst (Page.runCallbacks w due s) = Page.setToasts shown s.
Proof.
  induction due as [|t due IH]; intros s; simpl.
  - exists (Page.toasts s). now rewrite setToasts_same.
  - destruct (inactivityCallback_toasts_only w (Page.timer_due t) t s)
      as [shown1 H1].
    destruct (Page.inactivityCallback w (Page.timer_due t) t s) as [s1 called].
    simpl in H1. subst s1.
    destruct (IH (Page.setToasts shown1 s)) as [shown2 H2].
    destruct (Page.runCallbacks w due (Page.setToasts shown1 s)) as [s2 fired].
    simpl in *. subst s2. exists shown2. reflexivity.
Qed.

Lemma runTimers_state w now s :
  exists shown,
    fst (Page.runTimers w now s) =
      Page.setToasts shown
        (Page.setTimers
           (filter (fun t => negb (Page.isDue now t)) (Page.timers s)) s).
Proof. unfold Page.runTimers. apply runCallbacks_toasts_only. Qed.

(** *** The fields each handler leaves alone *)

Ltac frame :=
  repeat break_match; try reflexivity.

Lemma handleCodeChange_core r now newCode s :
  core (Page.handleCodeChange r now newCode s) = core s.
Proof. unfold Page.handleCodeChange, Page.setTimeout, Page.clearTimeout. frame. Qed.

Lemma setEditor_same s : Page.setEditor (Page.editor s) s = s.
Proof. destruct s; reflexivity. Qed.

Lemma typeCode_core now newCode s : core (Page.typeCode now newCode s) = core s.
Proof.
  unfold Page.typeCode, Page.onDidChangeModelContent.
  destruct (Page.editor s); [|reflexivity].
  now rewrite handleCodeChange_core.
Qed.

Lemma codeEffect_core now s : core (Page.codeEffect now s) = core s.
Proof.
  unfold Page.codeEffect, Page.onDidChangeModelContent.
  repeat break_match; try reflexivity. now rewrite handleCodeChange_core.
Qed.

Lemma languageEffect_core now s : core (Page.languageEffect now s) = core s.
Proof.
  unfold Page.languageEffect. destruct (Page.editor s); [|reflexivity].
  apply handleCodeChange_core.
Qed.

Lemma selectLanguage_core now lang s :
  core (Page.perform (Page.SelectLanguage now lang) s) = core s.
Proof.
  cbn [Page.perform]. repeat break_match; try reflexivity;
    rewrite ?codeEffect_core, languageEffect_core; reflexivity.
Qed.

(** The effect on [isLocked] only touches the editor. *)
Lemma sendMessage_perform w message s :
  exists e,
    Page.perform (Page.SendMessage w message) s =
      Page.setEditor e (Page.handleSendMessage w message s).
Proof.
  cbn [Page.perform]. unfold Page.lockEffect.
  repeat break_match; eauto.
  all: eexists; symmetry; apply setEditor_same.
Qed.

(** The dialog submits through [handleComplexitySubmit] or not at all. *)
Lemma submitComplexity_perform w timeComplexity spaceComplexity s :
  Page.perform (Page.SubmitComplexity w timeComplexity spaceComplexity) s = s
  \/ Page.perform (Page.SubmitComplexity w timeComplexity spaceComplexity) s =
       Page.handleComplexitySubmit w (Some (trim timeComplexity))
         (Some (trim spaceComplexity)) s.
Proof.
  cbn [Page.perform]. unfold ComplexityModal.handleSubmit.
  destruct (truthy (trim timeComplexity) && truthy (trim spaceComplexity)); auto.
Qed.

Lemma handleInitialMessage_core w p level s :
  core (Page.handleInitialMessage w p level s) = core s.
Proof. unfold Page.handleInitialMessage. frame. Qed.

Lemma handleRunCode_core w s : core (Page.handleRunCode w s) = core s.
Proof. unfold Page.handleRunCode. frame. Qed.

Lemma runTimers_core w now s : core (fst (Page.runTimers w now s)) = core s.
Proof. destruct (runTimers_state w now s) as [shown ->]. reflexivity. Qed.

Lemma handleAutomaticHint_core w scope currentCode s :
  core (Page.handleAutomaticHint w scope currentCode s) = core s.
Proof.
  destruct (handleAutomaticHint_toasts_only w scope currentCode s) as [shown ->].
  reflexivity.
Qed.

Lemma handleHintRequest_rest w s :
  Page.sessionState (Page.handleHintRequest w s) = Page.sessionState s
  /\ Page.isEditorLocked (Page.handleHintRequest w s) = Page.isEditorLocked s
  /\ Page.showComplexityModal (Page.handleHintRequest w s) =
       Page.showComplexityModal s.
Proof. unfold Page.handleHintRequest. frame; auto. Qed.

Lemma handleSendMessage_rest w message s :
  Page.hintsUsed (Page.handleSendMessage w message s) = Page.hintsUsed s
  /\ Page.showComplexityModal (Page.handleSendMessage w message s) =
       Page.showComplexityModal s.
Proof. unfold Page.handleSendMessage. frame; auto. Qed.

Lemma handleComplexitySubmit_rest w timeComplexity spaceComplexity s :
  Page.hintsUsed (Page.handleComplexitySubmit w timeComplexity spaceComplexity s)
    = Page.hintsUsed s
  /\ Page.isEditorLocked
       (Page.handleComplexitySubmit w timeComplexity spaceComplexity s)
     = Page.isEditorLocked s.
Proof. unfold Page.handleComplexitySubmit. frame; auto. Qed.

Lemma step_hintsUsed_monotone a s :
  Page.hintsUsed s <= Page.hintsUsed (Page.step a s).
Proof.
  unfold Page.step. destruct (Page.available a s); [|lia].
  assert (Hsame : forall s', core s' = core s ->
                             Page.hintsUsed s <= Page.hintsUsed s').
  { intros s' H. unfold core in H. injection H as _ _ H _. lia. }
  destruct a.
  - apply Hsame. cbn [Page.perform].
    now rewrite handleInitialMessage_core.
  - apply Hsame. reflexivity.
  - apply Hsame, selectLanguage_core.
  - destruct (sendMessage_perform w message s) as [e ->].
    destruct (handleSendMessage_rest w message s) as [H _].
    cbn [Page.hintsUsed Page.setEditor]. lia.
  - apply Hsame. reflexivity.
  - apply Hsame, typeCode_core.
  - apply Hsame, runTimers_core.
  - cbn [Page.perform].
    destruct (handleHintRequest_hintsUsed w s) as [Hyes Hno].
    destruct (Page.online w) eqn:Hon.
    + destruct (Page.problem s) as [p|] eqn:Hp.
      * rewrite Hyes; [lia|]. apply hintCallSucceeds_iff. eauto.
      * rewrite Hno; [lia|]. intros H. apply hintCallSucceeds_iff in H.
        destruct H as [_ [p Hp']]. congruence.
    + rewrite Hno; [lia|]. intros H. apply hintCallSucceeds_iff in H.
      destruct H as [H _]. congruence.
  - apply Hsame, handleRunCode_core.
  - cbn. lia.
  - destruct (submitComplexity_perform w timeComplexity spaceComplexity s)
      as [-> | ->]; [lia|].
    destruct (handleComplexitySubmit_rest w (Some (trim timeComplexity))
                (Some (trim spaceComplexity)) s) as [H _]. lia.
  - cbn. lia.
Qed.

Lemma run_hintsUsed_monotone actions :
  forall s, Page.hintsUsed s <= Page.hintsUsed (Page.run actions s).
Proof.
  induction actions as [|a actions IH]; intros s; [apply le_n|].
  change (Page.run (a :: actions) s) with (Page.run actions (Page.step a s)).
  pose proof (step_hintsUsed_monotone a s). specialize (IH (Page.step a s)). lia.
Qed.

(** C4, where the code departs from it.  An explicit hint request through
    the page adds exactly one to [hintsUsed] when the Hint call succeeds,
    but leaves it as it is when the call fails, where every request should
    count; an automatic inactivity hint (the timer callbacks and
    [handleAutomaticHint]) leaves [hintsUsed] as it is; and no action ever
    lowers [hintsUsed]. *)
Theorem C4_hint_count_per_successful_request (w : Page.World) (s : Page.State) :
  (hintCallSucceeds w s ->
   Page.hintsUsed (Page.handleHintRequest w s) = Page.hintsUsed s + 1)
  /\ (~ hintCallSucceeds w s ->
      Page.hintsUsed (Page.handleHintRequest w s) = Page.hintsUsed s)
  /\ (forall scope currentCode,
        Page.hintsUsed (Page.handleAutomaticHint w scope currentCode s) =
          Page.hintsUsed s)
  /\ (forall now,
        Page.hintsUsed (fst (Page.runTimers w now s)) = Page.hintsUsed s)
  /\ (forall actions,
        Page.hintsUsed s <= Page.hintsUsed (Page.run actions s)).
Proof.
  destruct (handleHintRequest_hintsUsed w s) as [Hyes Hno].
  repeat split; auto.
  - intros scope currentCode.
    pose proof (handleAutomaticHint_core w scope currentCode s) as H.
    unfold core in H. now injection H as _ _ H _.
  - intros now. pose proof (runTimers_core w now s) as H.
    unfold core in H. now injection H as _ _ H _.
  - intros actions. apply run_hintsUsed_monotone.
Qed.

(** With the routes out of reach the hint request of a session in the
    Coding phase leaves the count at 0. *)
Lemma failed_hint_request_not_counted :
  Page.sessionState codingSession = Coding
  /\ Page.isEditorLocked codingSession = false
  /\ Page.hintsUsed codingSession = 0
  /\ Page.hintsUsed (Page.handleHintRequest offlineWorld codingSession) = 0.
Proof. repeat split; vm_compute; reflexivity. Qed.

(** The orchestrator's own method counts before it asks, so there every
    request counts, whatever comes of the call. *)
Lemma provideHint_counts_always w code problem s :
  Page.hintsUsed (fst (AgentOrchestrator.provideHint w code problem s)) =
    Page.hintsUsed s + 1.
Proof. reflexivity. Qed.

(** ** Failed calls *)

(** Through the page, [submit] reaches the Evaluation phase exactly on a
    successful Evaluation call, and never touches the editor lock. *)
Lemma handleComplexitySubmit_phase w timeComplexity spaceComplexity s :
  (evaluationCallSucceeds w timeComplexity spaceComplexity s ->
   Page.sessionState
     (Page.handleComplexitySubmit w timeComplexity spaceComplexity s) = Evaluation)
  /\ (~ evaluationCallSucceeds w timeComplexity spaceComplexity s ->
      Page.sessionState
        (Page.handleComplexitySubmit w timeComplexity spaceComplexity s) =
        Page.sessionState s
      /\ Page.toasts
           (Page.handleComplexitySubmit w timeComplexity spaceComplexity s) =
           Page.toasts s ++ [Page.mkToast Page.FailedToEvaluate Page.Error])
  /\ Page.isEditorLocked
       (Page.handleComplexitySubmit w timeComplexity spaceComplexity s) =
       Page.isEditorLocked s.
Proof.
  unfold evaluationCallSucceeds, Page.handleComplexitySubmit.
  destruct (Page.fetchJson w
              (Evaluate.POST (Page.gemini w)
                 (Page.evaluateBody timeComplexity spaceComplexity s)))
    as [|data]; repeat split; try reflexivity.
  - intros [data [Hd _]]. discriminate.
  - intros [data' [Hd Hs]]. injection Hd as <-. rewrite Hs. reflexivity.
  - destruct (Evaluate.er_success data) eqn:Hs; [|reflexivity].
    exfalso. apply H. eauto.
  - destruct (Evaluate.er_success data) eqn:Hs; [|reflexivity].
    exfalso. apply H. eauto.
  - destruct (Evaluate.er_success data); reflexivity.
Qed.

(** A failed Mentor call leaves phase and lock as they were and puts one of
    the two fixed apologies into the chat. *)
Lemma handleSendMessage_failed_call w message s :
  ~ mentorCallSucceeds w message s ->
  Page.sessionState (Page.handleSendMessage w message s) = Page.sessionState s
  /\ Page.isEditorLocked (Page.handleSendMessage w message s) =
       Page.isEditorLocked s.
Proof.
  unfold mentorCallSucceeds, Page.handleSendMessage. intros Hno.
  destruct (Page.fetchJson w (Mentor.POST (Page.gemini w) (Page.mentorBody message s)))
    as [|data].
  - destruct (Phase_eqb (Page.sessionState s) Approach); split; reflexivity.
  - destruct (Mentor.mr_success data) eqn:Hs.
    + exfalso. apply Hno. eauto.
    + destruct (Phase_eqb (Page.sessionState s) Approach); split; reflexivity.
Qed.

(** C3, where the code departs from it.  [AgentOrchestrator.evaluateSubmission]
    calls [onStateChange("evaluation")] whatever became of the Evaluation
    call: the phase is Evaluation afterwards in every world.  With the route
    out of reach the method returns the canned evaluation of the agent's
    [catch] branch; with the route in reach the request, which carries no
    complexity estimate, is rejected with status 400 and the method returns
    [undefined]. *)
Theorem C3_orchestrator_submit_ignores_failure
    (w : Page.World) (code : jsstring) (problem : option Problem)
    (metadata : EvaluationAgent.Metadata) (s : Page.State) :
  Page.sessionState (fst (AgentOrchestrator.evaluateSubmission w code problem metadata s))
    = Evaluation
  /\ AgentOrchestrator.evaluateSubmission
       (Page.mkWorld false (Page.gemini w) (Page.extract w) (Page.draw w))
       code problem metadata s =
     (Page.setSessionState Evaluation s, Some EvaluationAgent.cannedEvaluation)
  /\ AgentOrchestrator.evaluateSubmission
       (Page.mkWorld true (Page.gemini w) (Page.extract w) (Page.draw w))
       code problem metadata s =
     (Page.setSessionState Evaluation s, None).
Proof.
  repeat split.
  unfold AgentOrchestrator.evaluateSubmission, EvaluationAgent.evaluateSubmission,
    Page.fetchJson, Evaluate.POST.
  cbn [Page.online Evaluate.eq_problem Evaluate.eq_timeComplexity
       Evaluate.eq_spaceComplexity Evaluate.present].
  destruct problem; reflexivity.
Qed.

(** The failing run: a session in the Coding phase, the route out of
    reach. *)
Lemma orchestrator_submit_offline :
  Page.sessionState codingSession = Coding
  /\ Page.sessionState
       (fst (AgentOrchestrator.evaluateSubmission offlineWorld (lit "return 1")
               (Some problemTwoSum) sampleMetadata codingSession)) = Evaluation
  /\ Page.sessionState
       (Page.handleComplexitySubmit offlineWorld (Some (lit "O(n)"))
          (Some (lit "O(1)")) codingSession) = Coding.
Proof. repeat split; vm_compute; reflexivity. Qed.

(** ** The hint heuristic *)

Section HintTiers.

Variables (code : jsstring) (p : Problem) (skill : SkillLevel).

Let n := length (trim code).
Let hints :=
  AutomaticHint.getContextualHints (AutomaticHint.analyzeCodeProgress code p) p skill.

Ltac tiers :=
  unfold hints, AutomaticHint.getContextualHints, AutomaticHint.stageHints,
    AutomaticHint.analyzeCodeProgress;
  cbn [AutomaticHint.isEmpty AutomaticHint.isJustStarting
       AutomaticHint.hasBasicStructure AutomaticHint.isWellDeveloped
       AutomaticHint.hasLoop AutomaticHint.hasConditional
       AutomaticHint.hasReturn];
  fold n.

Ltac decide_ltb :=
  repeat match goal with
         | |- context [?a <? ?b] =>
             destruct (Nat.ltb_spec a b); try lia
         end.

Lemma tier_too_early : n < 20 -> hints = Ok [].
Proof. intros Hn. tiers. decide_ltb. reflexivity. Qed.

Lemma tier_throws_on_two_sum :
  20 <= n -> mentionsTwoSum p = true -> hints = Throw ReferenceError.
Proof.
  intros Hn Hts. tiers. unfold mentionsTwoSum in Hts. rewrite Hts.
  decide_ltb. reflexivity.
Qed.

Hypothesis notTwoSum : mentionsTwoSum p = false.

Lemma tier_getting_started :
  20 <= n < 50 ->
  hints = Ok (gettingStartedHints ++ AutomaticHint.skillHints skill).
Proof.
  intros Hn. tiers. unfold mentionsTwoSum in notTwoSum. rewrite notTwoSum.
  decide_ltb. reflexivity.
Qed.

Lemma tier_structure :
  50 < n < 200 ->
  hints = Ok (structuralHints code p ++ AutomaticHint.skillHints skill).
Proof.
  intros Hn. tiers. unfold mentionsTwoSum in notTwoSum. rewrite notTwoSum.
  decide_ltb. reflexivity.
Qed.

Lemma tier_well_developed :
  200 < n -> hints = Ok (testingHints ++ AutomaticHint.skillHints skill).
Proof.
  intros Hn. tiers. unfold mentionsTwoSum in notTwoSum. rewrite notTwoSum.
  decide_ltb. reflexivity.
Qed.

Lemma tier_gaps :
  n = 50 \/ n = 200 -> hints = Ok (AutomaticHint.skillHints skill).
Proof.
  intros Hn. tiers. unfold mentionsTwoSum in notTwoSum. rewrite notTwoSum.
  decide_ltb; reflexivity.
Qed.

End HintTiers.

(** C6, where the code departs from it.  The tiers of the heuristic are
    cut by [< 50], [> 50 && < 200] and [> 200], so code whose trimmed length
    is exactly 50 or exactly 200 falls through every stage: the candidate
    list then holds no structural and no testing suggestion, only what the
    skill level adds. *)
Theorem C6_boundary_lengths_get_no_stage_hints
    (code : jsstring) (p : Problem) (skill : SkillLevel) :
  mentionsTwoSum p = false ->
  length (trim code) = 50 \/ length (trim code) = 200 ->
  AutomaticHint.getContextualHints
    (AutomaticHint.analyzeCodeProgress code p) p skill =
    Ok (AutomaticHint.skillHints skill).
Proof. intros Hts Hn. now apply tier_gaps. Qed.

(** At 50 code units, without loop, conditional or [return], for a problem
    about an array: the three structural suggestions are due, none comes. *)
Lemma C6_boundary_lengths_get_no_stage_hints_witness :
  length (trim code50) = 50
  /\ structuralHints code50 problemReverse =
       [ lit "You might need to iterate through the array";
         lit "Consider what conditions you need to check";
         lit "Don't forget to return the result" ]
  /\ AutomaticHint.getContextualHints
       (AutomaticHint.analyzeCodeProgress code50 problemReverse)
       problemReverse Intermediate = Ok [].
Proof.
  split; [reflexivity|]. split; [reflexivity|].
  apply (C6_boundary_lengths_get_no_stage_hints code50 problemReverse Intermediate).
  - reflexivity.
  - left. reflexivity.
Defined.

Lemma heuristic_at_200 :
  length (trim code200) = 200
  /\ AutomaticHint.getContextualHints
       (AutomaticHint.analyzeCodeProgress code200 problemReverse)
       problemReverse Intermediate = Ok [].
Proof. split; vm_compute; reflexivity. Qed.

(** The sample problem "1. Two Sum" makes the heuristic throw, and the
    route answer "no hint". *)
Lemma heuristic_throws_for_two_sum :
  AutomaticHint.getContextualHints
    (AutomaticHint.analyzeCodeProgress code50 problemTwoSum)
    problemTwoSum Beginner = Throw ReferenceError
  /\ AutomaticHint.POST (fun _ => Reply None) 0
       (AutomaticHint.mkRequest code50 (Some problemTwoSum) Beginner
          (lit "javascript") Coding) = (Ok AutomaticHint.noHint, []).
Proof. split; vm_compute; reflexivity. Qed.

(** ** The editor lock along a session *)

Lemma truthy_trim message : truthy (trim message) = true -> truthy message = true.
Proof. destruct message; [discriminate | reflexivity]. Qed.

Lemma mentorCallOk_iff w message s :
  mentorCallOk w message s = true <-> mentorCallSucceeds w message s.
Proof.
  unfold mentorCallOk. split.
  - intros H. apply andb_prop in H. destruct H as [H Hp].
    apply andb_prop in H. destruct H as [Hon Hm].
    destruct (Page.problem s) as [p|] eqn:Hprob; [|discriminate].
    unfold mentorCallSucceeds, Page.fetchJson. rewrite Hon.
    rewrite (Mentor_POST_valid (Page.gemini w) (Page.mentorBody message s) p Hprob Hm).
    eexists. split; reflexivity.
  - intros H. destruct (mentorCallSucceeds_inv w message s H) as (Hon & Hm & p & Hp).
    rewrite Hon, Hm, Hp. reflexivity.
Qed.

(** No handler locks the editor again. *)
Lemma step_keeps_unlocked a s :
  Page.isEditorLocked s = false -> Page.isEditorLocked (Page.step a s) = false.
Proof.
  intros Hl. unfold Page.step. destruct (Page.available a s); [|exact Hl].
  assert (Hsame : forall s', core s' = core s -> Page.isEditorLocked s' = false).
  { intros s' H. unfold core in H. injection H as _ H _ _. now rewrite H. }
  destruct a; try (cbn; exact Hl).
  - apply Hsame. cbn [Page.perform]. now rewrite handleInitialMessage_core.
  - apply Hsame, selectLanguage_core.
  - destruct (sendMessage_perform w message s) as [e ->].
    cbn [Page.isEditorLocked Page.setEditor].
    unfold Page.handleSendMessage.
    repeat break_match; cbn; try exact Hl; congruence.
  - apply Hsame, typeCode_core.
  - apply Hsame, runTimers_core.
  - cbn [Page.perform].
    destruct (handleHintRequest_rest w s) as (_ & H & _). now rewrite H.
  - apply Hsame, handleRunCode_core.
  - destruct (submitComplexity_perform w timeComplexity spaceComplexity s)
      as [-> | ->]; [exact Hl|].
    destruct (handleComplexitySubmit_rest w (Some (trim timeComplexity))
                (Some (trim spaceComplexity)) s) as [_ H]. now rewrite H.
Qed.

Lemma run_keeps_unlocked actions :
  forall s, Page.isEditorLocked s = false ->
            Page.isEditorLocked (Page.run actions s) = false.
Proof.
  induction actions as [|a actions IH]; intros s Hl; [exact Hl|].
  change (Page.run (a :: actions) s) with (Page.run actions (Page.step a s)).
  apply IH, step_keeps_unlocked, Hl.
Qed.

(** Nor does any method of the orchestrator: [onEditorLock] is handed over
    and never called. *)
Lemma orchestrator_keeps_unlocked w message context code problem metadata s :
  Page.isEditorLocked s = false ->
  Page.isEditorLocked
    (fst (AgentOrchestrator.processUserMessage w message context s)) = false
  /\ Page.isEditorLocked
       (fst (AgentOrchestrator.provideHint w code problem s)) = false
  /\ Page.isEditorLocked
       (fst (AgentOrchestrator.evaluateSubmission w code problem metadata s)) = false
  /\ Page.isEditorLocked (AgentOrchestrator.handleInactivity w s) = false.
Proof.
  intros Hl. repeat split; try exact Hl.
  unfold AgentOrchestrator.processUserMessage,
    AgentOrchestrator.handleApproachPhase, AgentOrchestrator.handleCodingPhase,
    AgentOrchestrator.handleEvaluationPhase.
  repeat break_match; cbn; try exact Hl; reflexivity.
Qed.

Lemma consistent_same_core s s' : core s' = core s -> consistent s -> consistent s'.
Proof.
  unfold core, consistent. intros H. injection H as H1 H2 _ H4.
  rewrite H1, H2, H4. auto.
Qed.

Lemma handleComplexitySubmit_phase_cases w timeComplexity spaceComplexity s :
  Page.sessionState
    (Page.handleComplexitySubmit w timeComplexity spaceComplexity s) = Evaluation
  \/ Page.sessionState
       (Page.handleComplexitySubmit w timeComplexity spaceComplexity s) =
       Page.sessionState s.
Proof. unfold Page.handleComplexitySubmit. frame; auto. Qed.

Lemma Phase_eqb_eq a b : Phase_eqb a b = true <-> a = b.
Proof. destruct a, b; simpl; split; congruence. Qed.

Lemma handleSendMessage_consistent w message s :
  truthy message = true ->
  consistent s ->
  consistent (Page.handleSendMessage w message s)
  /\ (Page.sessionState (Page.handleSendMessage w message s) = Approach <->
      Page.sessionState s = Approach
      /\ Phase_eqb (Page.sessionState s) Approach
         && mentorCallOk w message s
         && (unlockSignal (mentorReply w message s) || (30 <? length message))
         = false).
Proof.
  intros Hm [Hlock Hmodal].
  destruct (handleSendMessage_rest w message s) as [_ Hmod'].
  unfold consistent. rewrite Hmod'.
  destruct (mentorCallOk w message s) eqn:Hok.
  - pose proof Hok as Hsucc. apply mentorCallOk_iff in Hsucc.
    destruct (mentorCallSucceeds_inv w message s Hsucc) as (Hon & _ & p & Hp).
    destruct (handleSendMessage_success w message s p Hon Hm Hp) as [Hl Hs].
    rewrite Hl, Hs, shouldUnlockEditor_signal_or_length.
    destruct (Page.sessionState s) eqn:Hphase;
      destruct (Page.isEditorLocked s) eqn:Hlk;
      destruct (unlockSignal (mentorReply w message s) || (30 <? length message));
      simpl in *; intuition congruence.
  - assert (Hno : ~ mentorCallSucceeds w message s).
    { intros H. apply mentorCallOk_iff in H. congruence. }
    destruct (handleSendMessage_failed_call w message s Hno) as [Hs Hl].
    rewrite Hs, Hl, andb_false_r. simpl. intuition.
Qed.

Lemma step_consistent a s :
  consistent s ->
  consistent (Page.step a s)
  /\ (Page.sessionState (Page.step a s) = Approach <->
      Page.sessionState s = Approach /\ unlockFires a s = false).
Proof.
  intros Hc. unfold Page.step.
  destruct (Page.available a s) eqn:Hav.
  2:{ split; [exact Hc|]. destruct a; simpl; try tauto.
      simpl in Hav. rewrite Hav. simpl. tauto. }
  assert (Hsame : forall s', core s' = core s ->
            consistent s' /\
            (Page.sessionState s' = Approach <->
             Page.sessionState s = Approach /\ false = false)).
  { intros s' Hcore. split; [eapply consistent_same_core; eauto|].
    unfold core in Hcore. injection Hcore as -> _ _ _. tauto. }
  destruct a; cbn [unlockFires].
  - apply Hsame. cbn [Page.perform]. now rewrite handleInitialMessage_core.
  - apply Hsame. reflexivity.
  - apply Hsame, selectLanguage_core.
  - rewrite Hav. cbn [andb].
    destruct (sendMessage_perform w message s) as [e ->].
    assert (Hmsg : truthy message = true) by (apply truthy_trim; exact Hav).
    destruct (handleSendMessage_consistent w message s Hmsg Hc) as [Hc' Hph].
    split; [|exact Hph].
    eapply consistent_same_core; [|exact Hc']. reflexivity.
  - apply Hsame. reflexivity.
  - apply Hsame, typeCode_core.
  - apply Hsame, runTimers_core.
  - cbn [Page.perform].
    destruct (handleHintRequest_rest w s) as (H1 & H2 & H3).
    destruct Hc as [Hlock Hmodal]. unfold consistent.
    rewrite H1, H2, H3. tauto.
  - apply Hsame, handleRunCode_core.
  - simpl in Hav. unfold Page.codingControls in Hav.
    apply andb_prop in Hav. destruct Hav as [Hph Hl].
    apply Phase_eqb_eq in Hph. destruct Hc as [Hlock Hmodal].
    unfold consistent, Page.handleSubmitClick. simpl.
    rewrite Hph in *. intuition congruence.
  - simpl in Hav. unfold Page.modalControls, ComplexityModal.rendered in Hav.
    destruct (submitComplexity_perform w timeComplexity spaceComplexity s)
      as [-> | ->]; [split; [exact Hc | tauto]|].
    destruct Hc as [Hlock Hmodal]. specialize (Hmodal Hav).
    destruct (handleComplexitySubmit_rest w (Some (trim timeComplexity))
                (Some (trim spaceComplexity)) s) as [_ Hl].
    unfold consistent. rewrite Hl.
    destruct (handleComplexitySubmit_phase_cases w (Some (trim timeComplexity))
                (Some (trim spaceComplexity)) s) as [-> | ->];
      intuition congruence.
  - destruct Hc as [Hlock Hmodal]. unfold consistent. simpl.
    intuition congruence.
Qed.

Lemma run_consistent actions :
  forall s,
    consistent s ->
    consistent (Page.run actions s)
    /\ (Page.sessionState (Page.run actions s) = Approach <->
        Page.sessionState s = Approach /\ unlockFired actions s = false).
Proof.
  induction actions as [|a actions IH]; intros s Hc.
  - simpl. tauto.
  - change (Page.run (a :: actions) s) with (Page.run actions (Page.step a s)).
    destruct (step_consistent a s Hc) as [Hc' Hstep].
    destruct (IH (Page.step a s) Hc') as [Hfinal Hrun].
    split; [exact Hfinal|].
    cbn [unlockFired]. rewrite Hrun, Hstep, orb_false_iff. tauto.
Qed.

Lemma initial_consistent now : consistent (Page.initial now).
Proof. unfold consistent. simpl. split; [tauto | discriminate]. Qed.

(** C2.  In every session, after every sequence of actions, the editor is
    locked exactly when the phase is still Approach and no unlock condition
    (a successful Mentor call during Approach that brought an unlock signal
    or an approach text longer than 30) has fired so far; and once the
    editor is unlocked no further sequence of actions locks it again. *)
Theorem C2_editor_locked_until_unlock_fires
    (now : Z) (actions more : list Page.Action) :
  let s := Page.run actions (Page.initial now) in
  (Page.isEditorLocked s = true <->
   Page.sessionState s = Approach
   /\ unlockFired actions (Page.initial now) = false)
  /\ (Page.isEditorLocked s = false ->
      Page.isEditorLocked (Page.run more s) = false).
Proof.
  intros s.
  destruct (run_consistent actions (Page.initial now) (initial_consistent now))
    as [[Hlock _] Hphase].
  fold s in Hlock, Hphase. split.
  - rewrite Hlock. simpl in Hphase. tauto.
  - apply run_keeps_unlocked.
Qed.

(** A session that goes through all three phases. *)
Lemma full_session_trace :
  let actions :=
    [ Page.EditorLoaded;
      Page.LoadProblem quietWorld problemTwoSum;
      Page.SendMessage quietWorld (lit "hash map");
      Page.ClickSubmit;
      Page.SendMessage quietWorld approachText;
      Page.EditCode 1000 code50;
      Page.RequestHint offlineWorld;
      Page.RequestHint quietWorld;
      Page.ClickSubmit;
      Page.SubmitComplexity quietWorld (lit "O(n)") (lit "  ");
      Page.SubmitComplexity quietWorld (lit "O(n)") (lit "O(1)") ] in
  map (fun k => core (Page.run (firstn k actions) (Page.initial 0)))
      [0; 1; 2; 3; 4; 5; 6; 7; 8; 9; 10; 11] =
    [ (Approach, true, 0, false);
      (Approach, true, 0, false);
      (Approach, true, 0, false);
      (Approach, true, 0, false);
      (Approach, true, 0, false);
      (Coding, false, 0, false);
      (Coding, false, 0, false);
      (Coding, false, 0, false);
      (Coding, false, 1, false);
      (Coding, false, 1, true);
      (Coding, false, 1, true);
      (Evaluation, false, 1, false) ].
Proof. vm_compute. reflexivity. Qed.

(** ** The paste parser *)

Section Headers.

Import ProblemPanel.

Lemma headerLength_beginsWithE s :
  beginsWithE s = false -> headerLength s = None.
Proof.
  unfold headerLength. destruct s as [|c s]; [reflexivity|].
  cbn [beginsWithE]. intros H.
  change (startsWith (c :: s) (lit "Example "))
    with (Ascii.eqb "E" c && startsWith s (lit "xample ")).
  rewrite H. reflexivity.
Qed.

(** The units [\d+:] takes are digits and a colon, none of them an "E". *)
Lemma digitsColon_no_E s :
  forall digits m,
    digitsColon s digits = Some m ->
    digits < m
    /\ forall j, j < m - digits -> beginsWithE (skipn j s) = false.
Proof.
  induction s as [|c s IH]; intros digits m H; simpl in H; [discriminate|].
  destruct (isDigit c) eqn:Hd.
  - destruct (IH _ _ H) as [Hlt Hfree]. split; [lia|].
    intros [|j] Hj.
    + cbn [skipn beginsWithE].
      destruct (Ascii.eqb_spec "E" c); [subst c; discriminate | reflexivity].
    + cbn [skipn]. apply Hfree. lia.
  - destruct (Ascii.eqb_spec c ":"); [|discriminate]. subst c.
    destruct (0 <? digits); [|discriminate].
    injection H as <-. split; [lia|].
    intros j Hj. replace j with 0 by lia. reflexivity.
Qed.

Lemma startsWith_app s p : startsWith s p = true -> exists t, s = p ++ t.
Proof.
  revert s. induction p as [|a p IH]; intros s H.
  - exists s. reflexivity.
  - destruct s as [|b s]; [discriminate|]. simpl in H.
    apply andb_prop in H. destruct H as [Hab Hp].
    apply Ascii.eqb_eq in Hab. subst b.
    destruct (IH s Hp) as [t ->]. exists t. reflexivity.
Qed.

(** Headers do not overlap: inside a header no header starts. *)
Lemma header_no_overlap c s n :
  headerLength (c :: s) = Some n -> headerFree (n - 1) s.
Proof.
  unfold headerLength, headerFree. intros H j Hj.
  destruct (startsWith (c :: s) (lit "Example ")) eqn:Hs; [|discriminate].
  apply startsWith_app in Hs. destruct Hs as [t Ht].
  simpl in Ht. injection Ht as -> ->.
  cbn [skipn app] in H.
  destruct (digitsColon t 0) as [m|] eqn:Hm; [|discriminate].
  injection H as <-.
  destruct (digitsColon_no_E t 0 m Hm) as [_ Hfree].
  apply headerLength_beginsWithE.
  do 7 (destruct j as [|j]; [reflexivity|]).
  cbn [skipn]. apply Hfree. lia.
Qed.

Lemma scan_length s :
  forall k current,
    headerFree k s ->
    length (scan s k current) = length (emit current) + countHeaders s.
Proof.
  induction s as [|c s IH]; intros k current Hfree.
  - simpl. lia.
  - cbn [scan countHeaders]. destruct k as [|k].
    + destruct (headerLength (c :: s)) as [n|] eqn:Hh.
      * rewrite length_app, IH by (eapply header_no_overlap; eauto).
        simpl. lia.
      * rewrite IH by (intros j Hj; lia).
        destruct current; simpl; lia.
    + pose proof (Hfree 0 (Nat.lt_0_succ k)) as H0. cbn [skipn] in H0.
      rewrite H0.
      rewrite IH by (intros j Hj; apply (Hfree (S j)); lia).
      destruct current; simpl; lia.
Qed.

(** The matches are consecutive pieces of the text, in text order, each
    beginning with a header; what precedes the first header is dropped. *)
Lemma scan_blocks s :
  forall k current,
    exists b tail,
      s = b ++ List.concat tail
      /\ headed tail
      /\ scan s k current =
           emit (option_map (fun m => m ++ b) current) ++ tail.
Proof.
  induction s as [|c s IH]; intros k current.
  - exists [], []. simpl. repeat split.
    destruct current; simpl; now rewrite ?app_nil_r.
  - assert (Hextend :
      forall k', exists b tail,
        c :: s = b ++ List.concat tail /\ headed tail /\
        scan s k' (option_map (fun m => m ++ [c]) current) =
          emit (option_map (fun m => m ++ b) current) ++ tail).
    { intros k'.
      destruct (IH k' (option_map (fun m => m ++ [c]) current))
        as (b & tail & Hs & Hh & Hscan).
      exists (c :: b), tail. repeat split; [now rewrite Hs | exact Hh |].
      rewrite Hscan. destruct current; simpl; [|reflexivity].
      now rewrite <- app_assoc. }
    cbn [scan]. destruct k as [|k]; [|apply Hextend].
    destruct (headerLength (c :: s)) as [n|] eqn:Hh; [|apply Hextend].
    destruct (IH (n - 1) (Some [c])) as (b & tail & Hs & Hhd & Hscan).
    exists [], ((c :: b) :: tail). repeat split.
    + simpl. now rewrite Hs.
    + simpl. rewrite <- Hs, Hh. discriminate.
    + exact Hhd.
    + rewrite Hscan. destruct current; simpl; now rewrite ?app_nil_r.
Qed.

End Headers.

Lemma truthy_middle (a b : jsstring) (c : ascii) : truthy (a ++ c :: b) = true.
Proof. destruct a; reflexivity. Qed.

Lemma trimStart_keeps pre c t :
  isSpace c = false -> exists pre', trimStart (pre ++ c :: t) = pre' ++ c :: t.
Proof.
  intros Hc. induction pre as [|a pre IH]; simpl.
  - rewrite Hc. exists []. reflexivity.
  - destruct (isSpace a); [exact IH|]. exists (a :: pre). reflexivity.
Qed.

(** A text with a unit that is not white space is not blank. *)
Lemma trim_not_blank pre c t :
  isSpace c = false -> truthy (trim (pre ++ c :: t)) = true.
Proof.
  intros Hc. unfold trim, trimEnd.
  destruct (trimStart_keeps pre c t Hc) as [pre' ->].
  rewrite rev_app_distr. simpl. rewrite <- app_assoc. simpl.
  destruct (trimStart_keeps (rev t) c (rev pre') Hc) as [pre'' ->].
  rewrite rev_app_distr. simpl. rewrite <- app_assoc. apply truthy_middle.
Qed.

Lemma countHeaders_has_E s :
  0 < countHeaders s -> exists pre t, s = pre ++ "E"%char :: t.
Proof.
  induction s as [|c s IH]; cbn [countHeaders]; intros H.
  - unfold ProblemPanel.headerLength in H. simpl in H. lia.
  - destruct (beginsWithE (c :: s)) eqn:HE.
    + cbn [beginsWithE] in HE. apply Ascii.eqb_eq in HE. subst c.
      exists [], s. reflexivity.
    + rewrite (headerLength_beginsWithE (c :: s) HE) in H.
      destruct (IH H) as (pre & t & ->). exists (c :: pre), t. reflexivity.
Qed.

Lemma mapi_length {A B} (f : nat -> A -> B) (l : list A) :
  forall i, length (ProblemPanel.mapi f i l) = length l.
Proof. induction l as [|a l IH]; intros i; simpl; [reflexivity | now rewrite IH]. Qed.

Lemma exampleBlocks_length text :
  length (ProblemPanel.exampleBlocks text) = countHeaders text.
Proof.
  unfold ProblemPanel.exampleBlocks.
  rewrite scan_length by (intros j Hj; lia). reflexivity.
Qed.

Lemma exampleBlocks_pieces text :
  exists preamble,
    text = preamble ++ List.concat (ProblemPanel.exampleBlocks text)
    /\ headed (ProblemPanel.exampleBlocks text).
Proof.
  unfold ProblemPanel.exampleBlocks.
  destruct (scan_blocks text 0 None) as (b & tail & Hs & Hh & Hscan).
  simpl in Hscan. rewrite Hscan. exists b. split; assumption.
Qed.

(** What the parser reads off the sample text. *)
Lemma pastedTwoSum_cases :
  ProblemPanel.generateTestCases pastedTwoSum =
    [ {| tc_id := 1;
         tc_input := lit "nums = [2,7,11,15], target = 9";
         tc_expectedOutput := lit "[0,1]";
         tc_explanation :=
           Some (lit "Because nums[0] + nums[1] == 9, we return [0, 1].") |};
      {| tc_id := 2;
         tc_input := lit "nums = [3,2,4], target = 6";
         tc_expectedOutput := lit "[1,2]";
         tc_explanation := Some [] |} ].
Proof. vm_compute. reflexivity. Qed.

(** *** Input and Output lines *)

Section Lines.

Import ProblemPanel.

Lemma labelAbsent_spec label s n :
  labelAbsent label s n = true ->
  forall j, j < n -> startsWith (toLowerCase (skipn j s)) label = false.
Proof.
  unfold labelAbsent. rewrite forallb_forall. intros H j Hj.
  apply negb_true_iff, H, in_seq. lia.
Qed.

Lemma matchLabel_skip label pre :
  forall s,
    (forall j, j < length pre ->
               startsWith (toLowerCase (skipn j (pre ++ s))) label = false) ->
    matchLabel label (pre ++ s) = matchLabel label s.
Proof.
  induction pre as [|a pre IH]; intros s H; [reflexivity|].
  cbn [app matchLabel].
  pose proof (H 0 (Nat.lt_0_succ _)) as H0. cbn [skipn app] in H0.
  rewrite H0. apply IH. intros j Hj. apply (H (S j)). simpl. lia.
Qed.

Lemma matchLabel_here label s v :
  startsWith (toLowerCase s) label = true ->
  spacesThenDotPlus (skipn (length label) s) = Some v ->
  matchLabel label s = Some v.
Proof. intros Hs Hv. destruct s; cbn [matchLabel]; rewrite Hs, Hv; reflexivity. Qed.

Lemma takeLine_value v :
  forall rest,
    forallb (fun x => negb (isLineTerminator x)) v = true ->
    lineEnd rest = true ->
    takeLine (v ++ rest) = v.
Proof.
  induction v as [|c v IH]; intros rest Hv Hrest.
  - destruct rest as [|r rest]; [reflexivity|]. simpl in *. now rewrite Hrest.
  - simpl in Hv. apply andb_prop in Hv. destruct Hv as [Hc Hv].
    apply negb_true_iff in Hc. simpl. rewrite Hc. now rewrite IH.
Qed.

Lemma spacesThenDotPlus_value sp v rest :
  forallb isSpace sp = true ->
  plainValue v = true ->
  lineEnd rest = true ->
  spacesThenDotPlus (sp ++ v ++ rest) = Some v.
Proof.
  intros Hsp Hv Hrest.
  destruct v as [|c v]; [discriminate|].
  cbn [plainValue] in Hv. apply andb_prop in Hv. destruct Hv as [Hc Hv].
  apply negb_true_iff in Hc.
  assert (Hdot : dotPlus ((c :: v) ++ rest) = Some (c :: v)).
  { unfold dotPlus. rewrite takeLine_value by assumption. reflexivity. }
  induction sp as [|a sp IH].
  - cbn [app spacesThenDotPlus] in *. rewrite Hc. exact Hdot.
  - simpl in Hsp. apply andb_prop in Hsp. destruct Hsp as [Ha Hsp].
    cbn [app spacesThenDotPlus]. rewrite Ha.
    change (sp ++ c :: v ++ rest) with (sp ++ (c :: v) ++ rest).
    rewrite (IH Hsp). reflexivity.
Qed.

End Lines.

Lemma lineBreak_lineEnd a b : lineBreak a = true -> lineEnd (a ++ b) = true.
Proof. destruct a; [discriminate | simpl; auto]. Qed.

(** An example block written with one Input line and one Output line,
    whose labels do not occur earlier in the block, yields the trimmed
    values of those two lines. *)
Lemma parseExample_lines
    (index : nat) (head sp1 i mid sp2 o rest : jsstring) :
  let before_output := head ++ lit "Input:" ++ sp1 ++ i ++ mid in
  let block := before_output ++ lit "Output:" ++ sp2 ++ o ++ rest in
  labelAbsent (lit "input:") block (length head) = true ->
  labelAbsent (lit "output:") block (length before_output) = true ->
  forallb isSpace sp1 = true -> plainValue i = true -> lineBreak mid = true ->
  forallb isSpace sp2 = true -> plainValue o = true -> lineEnd rest = true ->
  ProblemPanel.parseExample index block =
    {| tc_id := index + 1;
       tc_input := trim i;
       tc_expectedOutput := trim o;
       tc_explanation := Some (ProblemPanel.explanationOf block) |}.
Proof.
  intros before_output block Hin Hout Hsp1 Hi Hmid Hsp2 Ho Hrest.
  unfold ProblemPanel.parseExample.
  assert (Hinput : ProblemPanel.matchLabel (lit "input:") block = Some i).
  { assert (Hblock : block =
        head ++ (lit "Input:" ++ sp1 ++ i ++ (mid ++ lit "Output:" ++ sp2 ++ o ++ rest))).
    { unfold block, before_output. now rewrite <- !app_assoc. }
    rewrite Hblock in *.
    rewrite matchLabel_skip by (apply labelAbsent_spec; exact Hin).
    apply matchLabel_here; [reflexivity|].
    change (skipn (length (lit "input:")) (lit "Input:" ++ ?x)) with x.
    cbn [lit list_ascii_of_string app length skipn].
    apply spacesThenDotPlus_value; auto using lineBreak_lineEnd. }
  assert (Houtput : ProblemPanel.matchLabel (lit "output:") block = Some o).
  { unfold block.
    rewrite matchLabel_skip by (apply labelAbsent_spec; exact Hout).
    apply matchLabel_here; [reflexivity|].
    cbn [lit list_ascii_of_string app length skipn].
    apply spacesThenDotPlus_value; auto. }
  rewrite Hinput, Houtput. reflexivity.
Qed.

(** The first example block of the sample text, line by line. *)
Lemma parseExample_lines_sample :
  ProblemPanel.parseExample 0
    ((lit "Example 1:" ++ [LF]) ++ lit "Input:" ++ lit " "
       ++ lit "nums = [2,7,11,15], target = 9" ++ [LF]
       ++ lit "Output:" ++ lit " " ++ lit "[0,1]" ++ [LF; LF]) =
    {| tc_id := 1;
       tc_input := lit "nums = [2,7,11,15], target = 9";
       tc_expectedOutput := lit "[0,1]";
       tc_explanation := Some [] |}.
Proof.
  pose proof (parseExample_lines 0 (lit "Example 1:" ++ [LF]) (lit " ")
                (lit "nums = [2,7,11,15], target = 9") [LF] (lit " ")
                (lit "[0,1]") [LF; LF]) as H.
  cbv zeta in H. rewrite <- !app_assoc in H.
  rewrite <- !app_assoc.
  rewrite H by reflexivity. reflexivity.
Qed.

(** *** Two headers, two blocks *)

Lemma countHeaders_suffix (a s : jsstring) :
  countHeaders s <= countHeaders (a ++ s).
Proof.
  induction a as [|c a IH]; [reflexivity|].
  cbn [app countHeaders]. lia.
Qed.

(** A prefix that adds no header to the count holds no header start. *)
Lemma countHeaders_free (a s : jsstring) :
  countHeaders (a ++ s) = countHeaders s -> headerFree (length a) (a ++ s).
Proof.
  induction a as [|c a IH]; intros Hcount j Hj; [inversion Hj|].
  cbn [app countHeaders] in Hcount.
  pose proof (countHeaders_suffix a s) as Hle.
  destruct j as [|j].
  - cbn [skipn app].
    destruct (ProblemPanel.headerLength (c :: a ++ s)); [lia | reflexivity].
  - cbn [skipn app length] in *. apply IH; lia.
Qed.

Lemma countHeaders_none (s : jsstring) :
  countHeaders s = 0 -> headerFree (length s) (s ++ []).
Proof.
  intros Hcount. apply countHeaders_free. rewrite app_nil_r. exact Hcount.
Qed.

(** The scan walks through a stretch without header starts and appends it
    to the block it is collecting. *)
Lemma scan_free (a : jsstring) :
  forall s k current,
    headerFree (length a) (a ++ s) ->
    ProblemPanel.scan (a ++ s) k current =
      ProblemPanel.scan s (k - length a) (option_map (fun m => m ++ a) current).
Proof.
  induction a as [|c a IH]; intros s k current Hfree.
  - cbn [app length]. rewrite Nat.sub_0_r.
    destruct current; cbn [option_map]; now rewrite ?app_nil_r.
  - pose proof (Hfree 0 (Nat.lt_0_succ _)) as H0. cbn [skipn app] in H0.
    assert (Hrest : headerFree (length a) (a ++ s)).
    { intros j Hj. apply (Hfree (S j)). cbn [length]. lia. }
    assert (Hmap : option_map (fun m => m ++ a)
                     (option_map (fun m => m ++ [c]) current) =
                   option_map (fun m : jsstring => m ++ c :: a) current).
    { destruct current; cbn [option_map]; [|reflexivity].
      now rewrite <- app_assoc. }
    cbn [app ProblemPanel.scan length]. destruct k as [|k].
    + rewrite H0, IH, Hmap by exact Hrest. reflexivity.
    + rewrite IH, Hmap by exact Hrest. reflexivity.
Qed.

Lemma headerLength_nil : ProblemPanel.headerLength [] = None.
Proof. reflexivity. Qed.

(** A text with exactly two headers, cut at the two positions where they
    start, is matched as the two pieces after the preamble. *)
Lemma exampleBlocks_two (preamble b1 b2 : jsstring) :
  countHeaders (preamble ++ b1 ++ b2) = 2 ->
  b1 <> [] ->
  ProblemPanel.headerLength (b1 ++ b2) <> None ->
  ProblemPanel.headerLength b2 <> None ->
  ProblemPanel.exampleBlocks (preamble ++ b1 ++ b2) = [b1; b2].
Proof.
  intros Hcount Hb1 H1 H2.
  destruct b1 as [|c1 b1]; [contradiction|].
  destruct b2 as [|c2 b2]; [now rewrite headerLength_nil in H2|].
  cbn [app] in H1.
  pose proof (countHeaders_suffix preamble ((c1 :: b1) ++ c2 :: b2)) as Hle1.
  pose proof (countHeaders_suffix b1 (c2 :: b2)) as Hle2.
  assert (Hc1 : countHeaders ((c1 :: b1) ++ c2 :: b2) =
                1 + countHeaders (b1 ++ c2 :: b2)).
  { cbn [app countHeaders].
    destruct (ProblemPanel.headerLength (c1 :: b1 ++ c2 :: b2));
      [reflexivity | contradiction]. }
  assert (Hc2 : countHeaders (c2 :: b2) = 1 + countHeaders b2).
  { cbn [countHeaders].
    destruct (ProblemPanel.headerLength (c2 :: b2));
      [reflexivity | contradiction]. }
  assert (Hpre : headerFree (length preamble)
                   (preamble ++ (c1 :: b1) ++ c2 :: b2))
    by (apply countHeaders_free; lia).
  assert (Hmid : headerFree (length b1) (b1 ++ c2 :: b2))
    by (apply countHeaders_free; lia).
  assert (Hend : headerFree (length b2) (b2 ++ []))
    by (apply countHeaders_none; lia).
  unfold ProblemPanel.exampleBlocks.
  rewrite scan_free by exact Hpre.
  cbn [option_map Nat.sub app ProblemPanel.scan].
  destruct (ProblemPanel.headerLength (c1 :: b1 ++ c2 :: b2)) as [n1|] eqn:Hn1;
    [|contradiction].
  rewrite scan_free by exact Hmid.
  assert (Hin : n1 - 1 - length b1 = 0).
  { apply Nat.sub_0_le. destruct (Nat.le_gt_cases (n1 - 1) (length b1)) as [|Hlt];
      [assumption|].
    pose proof (header_no_overlap _ _ _ Hn1 (length b1) Hlt) as Hnone.
    rewrite skipn_app, skipn_all, Nat.sub_diag in Hnone.
    cbn [app skipn] in Hnone. contradiction. }
  rewrite Hin. cbn [option_map ProblemPanel.scan].
  destruct (ProblemPanel.headerLength (c2 :: b2)) as [n2|] eqn:Hn2;
    [|contradiction].
  pose proof (scan_free b2 [] (n2 - 1) (Some [c2]) Hend) as Hscan.
  rewrite app_nil_r in Hscan. rewrite Hscan. reflexivity.
Qed.

(** An example block written line by line gives the trimmed values of its
    Input and Output lines. *)
Lemma parseExample_exampleLines
    (index : nat) (head sp i mid sq o rest : jsstring) :
  exampleLines head sp i mid sq o rest = true ->
  ProblemPanel.parseExample index (exampleBlock head sp i mid sq o rest) =
    {| tc_id := index + 1;
       tc_input := trim i;
       tc_expectedOutput := trim o;
       tc_explanation :=
         Some (ProblemPanel.explanationOf (exampleBlock head sp i mid sq o rest)) |}.
Proof.
  unfold exampleLines. rewrite !Bool.andb_true_iff.
  intros (((((((Hin & Hsp) & Hi) & Hmid) & Hout) & Hsq) & Ho) & Hrest).
  pose proof (parseExample_lines index head sp i mid sq o rest) as H.
  cbv zeta in H.
  replace ((head ++ lit "Input:" ++ sp ++ i ++ mid)
             ++ lit "Output:" ++ sq ++ o ++ rest)
    with (exampleBlock head sp i mid sq o rest) in H
    by (unfold exampleBlock; now rewrite <- !app_assoc).
  apply H; assumption.
Qed.

Lemma exampleBlock_not_nil (head sp i mid sq o rest : jsstring) :
  exampleBlock head sp i mid sq o rest <> [].
Proof. unfold exampleBlock. destruct head; discriminate. Qed.

(** C7.  A pasted text with exactly two "Example N:" headers is parsed
    into a problem with exactly two test cases, numbered 1 and 2.  When the
    text is a preamble followed by two example blocks, each beginning with
    its header and written line by line with an "Input:" line holding [i]
    and an "Output:" line holding [o], the first case has the input [i1]
    and the expected output [o1] of the first block and the second case
    those of the second block, each trimmed. *)
Theorem C7_two_examples_two_cases (text : jsstring) (skill : SkillLevel) :
  countHeaders text = 2 ->
  exists p c1 c2,
    ProblemPanel.handlePasteProblem text skill = Some p
    /\ p_testCases p = Some [c1; c2]
    /\ tc_id c1 = 1 /\ tc_id c2 = 2
    /\ forall preamble head1 sp1 i1 mid1 sq1 o1 rest1
              head2 sp2 i2 mid2 sq2 o2 rest2,
         let block1 := exampleBlock head1 sp1 i1 mid1 sq1 o1 rest1 in
         let block2 := exampleBlock head2 sp2 i2 mid2 sq2 o2 rest2 in
         text = preamble ++ block1 ++ block2 ->
         ProblemPanel.headerLength (block1 ++ block2) <> None ->
         ProblemPanel.headerLength block2 <> None ->
         exampleLines head1 sp1 i1 mid1 sq1 o1 rest1 = true ->
         exampleLines head2 sp2 i2 mid2 sq2 o2 rest2 = true ->
         tc_input c1 = trim i1 /\ tc_expectedOutput c1 = trim o1
         /\ tc_input c2 = trim i2 /\ tc_expectedOutput c2 = trim o2.
Proof.
  intros Hcount.
  pose proof (exampleBlocks_length text) as Hlen. rewrite Hcount in Hlen.
  destruct (ProblemPanel.exampleBlocks text) as [|b1 [|b2 [|b3 more]]] eqn:Hblocks;
    try discriminate.
  assert (Hblank : truthy (trim text) = true).
  { destruct (countHeaders_has_E text) as (pre & t & ->); [lia|].
    now apply trim_not_blank. }
  unfold ProblemPanel.handlePasteProblem. rewrite Hblank. cbn [negb].
  eexists _, (ProblemPanel.parseExample 0 b1), (ProblemPanel.parseExample 1 b2).
  split; [reflexivity|].
  split.
  { cbn [p_testCases]. unfold ProblemPanel.generateTestCases.
    rewrite Hblocks. reflexivity. }
  split; [reflexivity|]. split; [reflexivity|].
  intros preamble head1 sp1 i1 mid1 sq1 o1 rest1
         head2 sp2 i2 mid2 sq2 o2 rest2 Htext H1 H2 Hl1 Hl2.
  subst text.
  rewrite (exampleBlocks_two preamble _ _ Hcount
             (exampleBlock_not_nil _ _ _ _ _ _ _) H1 H2) in Hblocks.
  injection Hblocks as <- <-.
  rewrite (parseExample_exampleLines 0 _ _ _ _ _ _ _ Hl1).
  rewrite (parseExample_exampleLines 1 _ _ _ _ _ _ _ Hl2).
  repeat split.
Qed.

Lemma C7_two_examples_two_cases_witness :
  countHeaders pastedTwoSum = 2
  /\ exists p,
       ProblemPanel.handlePasteProblem pastedTwoSum Beginner = Some p
       /\ map (fun tc => (tc_id tc, tc_input tc, tc_expectedOutput tc))
              (testCasesOf p) =
            [ (1, lit "nums = [2,7,11,15], target = 9", lit "[0,1]");
              (2, lit "nums = [3,2,4], target = 6", lit "[1,2]") ].
Proof.
  split; [reflexivity|].
  destruct (C7_two_examples_two_cases pastedTwoSum Beginner eq_refl)
    as (p & c1 & c2 & Hp & Hcases & Hid1 & Hid2 & Hlines).
  destruct (Hlines
    (lit "Two Sum" ++ [LF]
       ++ lit "Given an array of integers nums and an integer target, return indices of the two numbers such that they add up to target." ++ [LF; LF])
    (lit "Example 1:" ++ [LF]) (lit " ")
    (lit "nums = [2,7,11,15], target = 9") [LF] (lit " ") (lit "[0,1]")
    ([LF] ++ lit "Explanation: Because nums[0] + nums[1] == 9, we return [0, 1]."
       ++ [LF; LF])
    (lit "Example 2:" ++ [LF]) (lit " ")
    (lit "nums = [3,2,4], target = 6") [LF] (lit " ") (lit "[1,2]")
    ([LF; LF] ++ lit "Constraints:" ++ [LF] ++ lit "2 <= nums.length <= 10^4")
    eq_refl ltac:(discriminate) ltac:(discriminate) eq_refl eq_refl)
    as (Hi1 & Ho1 & Hi2 & Ho2).
  exists p. split; [exact Hp|].
  unfold testCasesOf. rewrite Hcases. cbn [map].
  rewrite Hid1, Hid2, Hi1, Ho1, Hi2, Ho2. reflexivity.
Defined.

(** ** The inactivity timer *)

Lemma runTimers_timerState w now s pending :
  timerState s pending ->
  snd (Page.runTimers w now s) = firesBy pending now
  /\ timerState (fst (Page.runTimers w now s)) (pendingPast pending now).
Proof.
  intros Hs.
  assert (Hfst : forall shown pendingTimers p,
            timerState (Page.setTimers pendingTimers s) p ->
            timerState (Page.setToasts shown (Page.setTimers pendingTimers s)) p).
  { intros shown pendingTimers [due|] H; exact H. }
  destruct (runTimers_state w now s) as [shown Hstate].
  rewrite Hstate. clear Hstate.
  destruct pending as [due|]; cbn [timerState firesBy pendingPast] in *.
  - destruct Hs as (t & Ht & Hdue & Href & Hlast).
    unfold Page.runTimers. rewrite Ht. cbn [filter]. unfold Page.isDue.
    rewrite Hdue. destruct (due <=? now)%Z eqn:Hd; cbn [negb].
    + split; [|reflexivity].
      cbn [Page.runCallbacks]. unfold Page.inactivityCallback.
      rewrite Hdue. cbn [Page.lastActivityRef Page.setTimers].
      replace (3000 <=? due - Page.lastActivityRef s)%Z with true
        by (symmetry; apply Z.leb_le; lia).
      reflexivity.
    + split; [reflexivity|].
      apply Hfst. exists t. repeat split; assumption.
  - unfold Page.runTimers. rewrite Hs. split; reflexivity.
Qed.

Lemma handleCodeChange_timerState r now newCode s pending :
  timerState s pending ->
  timerState (Page.handleCodeChange r now newCode s)
    (if arms (Page.r_isEditorLocked r) (Page.c_sessionState (Page.r_scope r))
          newCode
     then Some (now + 3000)%Z else None).
Proof.
  intros Hs.
  assert (Hclear :
    Page.timers
      (match Page.inactivityTimerRef s with
       | Some id => Page.clearTimeout id (Page.setLastActivityRef now (Page.setCode newCode s))
       | None => Page.setLastActivityRef now (Page.setCode newCode s)
       end) = []).
  { destruct pending as [due|]; cbn [timerState] in Hs.
    - destruct Hs as (t & Ht & _ & Href & _). rewrite Href.
      unfold Page.clearTimeout. cbn [Page.timers Page.setTimers
        Page.setLastActivityRef Page.setCode]. rewrite Ht. cbn [filter].
      rewrite Nat.eqb_refl. reflexivity.
    - destruct (Page.inactivityTimerRef s);
        unfold Page.clearTimeout; cbn; rewrite Hs; reflexivity. }
  unfold Page.handleCodeChange, arms.
  cbn [Page.inactivityTimerRef Page.setLastActivityRef Page.setCode].
  destruct (Page.inactivityTimerRef s) as [id|];
    cbn [Page.clearTimeout Page.setTimers Page.setLastActivityRef
         Page.setCode] in *;
    destruct (negb (Page.r_isEditorLocked r)
              && Phase_eqb (Page.c_sessionState (Page.r_scope r)) Coding
              && (10 <? length (trim newCode)));
    cbn [timerState]; try exact Hclear;
    unfold Page.setTimeout; cbn; cbn in Hclear; rewrite Hclear;
    eexists; repeat split.
Qed.

(** Whichever render's handler the edits call, as long as its lock and
    phase stay the same, the calls of [handleAutomaticHint] are those of a
    debounce for that lock and phase. *)
Lemma simulateWith_debounced pick locked phase w edits :
  forall horizon s pending,
    (forall s', core s' = core s ->
                Page.r_isEditorLocked (pick s') = locked
                /\ Page.c_sessionState (Page.r_scope (pick s')) = phase) ->
    timerState s pending ->
    snd (simulateWith pick w edits horizon s) =
      firesBy pending (nextEdit edits horizon)
      ++ debounced locked phase edits horizon
    /\ map Page.timer_due
         (Page.timers (fst (simulateWith pick w edits horizon s))) =
         match edits with
         | [] => dueList (pendingPast pending horizon)
         | _ :: _ => pendingAtHorizon locked phase edits horizon
         end.
Proof.
  induction edits as [|[now newCode] rest IH]; intros horizon s pending Hpick Hs.
  - cbn [simulateWith nextEdit debounced].
    destruct (runTimers_timerState w horizon s pending Hs) as [Hfired Hstate].
    rewrite Hfired, app_nil_r. split; [reflexivity|].
    destruct (pendingPast pending horizon) as [due|]; cbn [timerState dueList] in *.
    + destruct Hstate as (t & -> & <- & _). reflexivity.
    + rewrite Hstate. reflexivity.
  - cbn [simulateWith nextEdit debounced].
    destruct (runTimers_timerState w now s pending Hs) as [Hfired Hstate].
    pose proof (runTimers_core w now s) as Hcore1.
    destruct (Page.runTimers w now s) as [s1 fired1].
    cbn [fst snd] in Hfired, Hstate, Hcore1. subst fired1.
    destruct (Hpick s1 Hcore1) as [Hlocked Hphase].
    pose proof (handleCodeChange_timerState (pick s1) now newCode s1 _ Hstate)
      as Hstate2.
    rewrite Hlocked, Hphase in Hstate2.
    pose proof (handleCodeChange_core (pick s1) now newCode s1) as Hcore2.
    rewrite Hcore1 in Hcore2.
    assert (Hpick2 : forall s',
              core s' = core (Page.handleCodeChange (pick s1) now newCode s1) ->
              Page.r_isEditorLocked (pick s') = locked
              /\ Page.c_sessionState (Page.r_scope (pick s')) = phase).
    { intros s' H. apply Hpick. now rewrite H. }
    destruct (IH horizon _ _ Hpick2 Hstate2) as [Hfired2 Hpending2].
    destruct (simulateWith pick w rest horizon
                (Page.handleCodeChange (pick s1) now newCode s1))
      as [s2 fired2].
    cbn [fst snd] in *. subst fired2. split.
    + f_equal. f_equal. destruct (arms locked phase newCode); reflexivity.
    + rewrite Hpending2. destruct rest as [|e rest']; [|reflexivity].
      cbn [pendingAtHorizon].
      destruct (arms locked phase newCode); cbn [pendingPast andb]; [|reflexivity].
      destruct (now + 3000 <=? horizon)%Z; reflexivity.
Qed.

(** No edit fires more than once, and an edit that does not arm the timer
    (editor locked, phase other than Coding, or ten code units or fewer)
    fires nothing. *)
Lemma debounced_at_most_one_per_edit locked phase edits horizon :
  length (debounced locked phase edits horizon) <= length edits.
Proof.
  induction edits as [|[now newCode] rest IH]; cbn [debounced length]; [lia|].
  rewrite length_app.
  destruct (arms locked phase newCode && (now + 3000 <=? nextEdit rest horizon)%Z);
    simpl; lia.
Qed.

Lemma debounced_unarmed locked phase edits horizon :
  forallb (fun e => negb (arms locked phase (snd e))) edits = true ->
  debounced locked phase edits horizon = [].
Proof.
  induction edits as [|[now newCode] rest IH]; cbn [debounced forallb snd];
    [reflexivity|].
  intros H. apply andb_prop in H. destruct H as [Ha Hrest].
  apply negb_true_iff in Ha. rewrite Ha, IH by exact Hrest. reflexivity.
Qed.

(** The test of the first render never arms: its editor is locked. *)
Lemma locked_never_fires phase edits horizon :
  debounced true phase edits horizon = []
  /\ pendingAtHorizon true phase edits horizon = [].
Proof.
  induction edits as [|[now newCode] rest [IHd IHp]]; [split; reflexivity|].
  cbn [debounced pendingAtHorizon arms negb andb]. rewrite IHd.
  split; [reflexivity|]. destruct rest; [reflexivity | exact IHp].
Qed.

(** The handler itself is a debounce: had every edit called the
    [handleCodeChange] of the latest render, [handleAutomaticHint] would be
    called exactly at the times a debounce with a quiet interval of 3000 ms
    gives, and at most one timer would be pending at the horizon. *)
Lemma latest_handler_debounces
    (w : Page.World) (edits : list (Z * jsstring)) (horizon : Z)
    (s : Page.State) :
  Page.timers s = [] ->
  snd (simulateLatest w edits horizon s) =
    debounced (Page.isEditorLocked s) (Page.sessionState s) edits horizon
  /\ map Page.timer_due (Page.timers (fst (simulateLatest w edits horizon s))) =
       pendingAtHorizon (Page.isEditorLocked s) (Page.sessionState s)
         edits horizon.
Proof.
  intros Hs.
  destruct (simulateWith_debounced Page.render (Page.isEditorLocked s)
              (Page.sessionState s) w edits horizon s None)
    as [Hfired Hpending]; [|exact Hs|].
  - intros s' H. unfold core in H. injection H as H1 H2 _ _.
    cbn [Page.render Page.r_isEditorLocked Page.r_scope Page.c_sessionState].
    split; assumption.
  - split; [exact Hfired|].
    unfold simulateLatest. rewrite Hpending. destruct edits; reflexivity.
Qed.

Lemma latest_handler_fires_once :
  snd (simulateLatest quietWorld
         [(0%Z, typedCode); (1000%Z, typedCode); (2000%Z, typedCode)]
         10000 codingSession) = [5000%Z].
Proof. vm_compute. reflexivity. Qed.

Lemma handleCodeChange_code r now newCode s :
  Page.code (Page.handleCodeChange r now newCode s) = newCode.
Proof.
  unfold Page.handleCodeChange, Page.setTimeout, Page.clearTimeout.
  destruct (Page.inactivityTimerRef _);
    destruct (negb (Page.r_isEditorLocked r)
              && Phase_eqb (Page.c_sessionState (Page.r_scope r)) Coding
              && (10 <? length (trim newCode))); reflexivity.
Qed.

(** A typed edit leaves no timer pending: the listener is the handler of
    the first render, which cancels and, its editor being locked, does not
    arm. *)
Lemma typeCode_cancels now newCode s pending :
  timerState s pending ->
  Page.available (Page.EditCode now newCode) s = true ->
  Page.code (Page.typeCode now newCode s) = newCode
  /\ Page.timers (Page.typeCode now newCode s) = [].
Proof.
  intros Hs Hav. cbn [Page.available] in Hav. unfold Page.typeCode.
  destruct (Page.editor s) as [ed|]; [|discriminate].
  unfold Page.onDidChangeModelContent. split.
  - apply handleCodeChange_code.
  - apply (handleCodeChange_timerState Page.firstRender now newCode _ pending).
    destruct pending; exact Hs.
Qed.

Lemma step_EditCode_no_timer now newCode s :
  Page.timers s = [] -> Page.timers (Page.step (Page.EditCode now newCode) s) = [].
Proof.
  intros Hs. unfold Page.step.
  destruct (Page.available (Page.EditCode now newCode) s) eqn:Hav; [|exact Hs].
  cbn [Page.perform]. now apply (typeCode_cancels now newCode s None).
Qed.

Lemma simulate_no_timer w edits :
  forall horizon s,
    Page.timers s = [] ->
    snd (simulate w edits horizon s) = []
    /\ Page.timers (fst (simulate w edits horizon s)) = [].
Proof.
  induction edits as [|[now newCode] rest IH]; intros horizon s Hs;
    cbn [simulate].
  - destruct (runTimers_timerState w horizon s None Hs) as [Hfired Hstate].
    split; assumption.
  - destruct (runTimers_timerState w now s None Hs) as [Hfired Hstate].
    destruct (Page.runTimers w now s) as [s1 fired1].
    cbn [fst snd firesBy pendingPast timerState] in Hfired, Hstate. subst fired1.
    destruct (IH horizon _ (step_EditCode_no_timer now newCode s1 Hstate))
      as [Hfired2 Hstate2].
    destruct (simulate w rest horizon
                (Page.step (Page.EditCode now newCode) s1)) as [s2 fired2].
    cbn [fst snd] in *. now subst fired2.
Qed.

(** C5, where the code departs from it.  The editor registers its content
    listener once, with the [onChange] of the first render, whose
    [isEditorLocked] is true and whose [sessionState] is "approach".  So an
    edit typed into the editor does cancel the pending timer, but never
    arms one, whatever the phase and the lock of the session are: after a
    typed edit the code is the new text and no timer is pending; and from
    a state without a pending timer, under typed edits at any times
    followed by silence up to the horizon, [handleAutomaticHint] is never
    called and no timer is pending at the end. *)
Theorem C5_typed_edits_never_arm_the_timer
    (w : Page.World) (edits : list (Z * jsstring)) (horizon : Z)
    (s : Page.State) (pending : option Z) :
  timerState s pending ->
  (forall now newCode,
     Page.available (Page.EditCode now newCode) s = true ->
     Page.code (Page.step (Page.EditCode now newCode) s) = newCode
     /\ Page.timers (Page.step (Page.EditCode now newCode) s) = [])
  /\ (pending = None ->
      snd (simulate w edits horizon s) = []
      /\ Page.timers (fst (simulate w edits horizon s)) = []).
Proof.
  intros Hs. split.
  - intros now newCode Hav. unfold Page.step. rewrite Hav.
    cbn [Page.perform]. exact (typeCode_cancels now newCode s pending Hs Hav).
  - intros ->. apply simulate_no_timer. exact Hs.
Qed.

(** Edits typed at 0, 1 and 2 seconds into the loaded, unlocked editor of a
    session in the Coding phase, then silence: a debounce calls once, at 5
    seconds; the page takes the edits and never calls. *)
Lemma C5_typed_edits_never_arm_the_timer_witness :
  Page.isEditorLocked typingSession = false
  /\ Page.sessionState typingSession = Coding
  /\ Page.available (Page.EditCode 0 typedCode) typingSession = true
  /\ debounced false Coding
       [(0%Z, typedCode); (1000%Z, typedCode); (2000%Z, typedCode)] 10000 =
       [5000%Z]
  /\ Page.code (Page.step (Page.EditCode 0 typedCode) typingSession) = typedCode
  /\ Page.timers (Page.step (Page.EditCode 0 typedCode) typingSession) = []
  /\ snd (simulate quietWorld
            [(0%Z, typedCode); (1000%Z, typedCode); (2000%Z, typedCode)]
            10000 typingSession) = []
  /\ Page.timers
       (fst (simulate quietWorld
               [(0%Z, typedCode); (1000%Z, typedCode); (2000%Z, typedCode)]
               10000 typingSession)) = [].
Proof.
  split; [reflexivity|]. split; [reflexivity|]. split; [reflexivity|].
  split; [reflexivity|].
  destruct (C5_typed_edits_never_arm_the_timer quietWorld
              [(0%Z, typedCode); (1000%Z, typedCode); (2000%Z, typedCode)]
              10000 typingSession None eq_refl) as [Hedit Hrun].
  destruct (Hedit 0%Z typedCode eq_refl) as [Hcode Htimers].
  destruct (Hrun eq_refl) as [Hfired Hpending].
  repeat split; assumption.
Defined.

(** The final code of that run is the text typed last. *)
Lemma typed_edits_are_taken :
  Page.code
    (fst (simulate quietWorld
            [(0%Z, typedCode); (1000%Z, typedCode); (2000%Z, lit "x")]
            10000 typingSession)) = lit "x".
Proof. vm_compute. reflexivity. Qed.

(** The same session through the components: the editor loads, a problem
    is loaded, the approach is accepted, the code is typed in three edits
    and the clock runs on.  No timer is ever pending and the only toast is
    that of the unlocking. *)
Lemma typed_session_shows_no_automatic_hint :
  let actions :=
    [ Page.EditorLoaded;
      Page.LoadProblem quietWorld problemTwoSum;
      Page.SendMessage quietWorld approachText;
      Page.EditCode 0 typedCode;
      Page.EditCode 1000 typedCode;
      Page.EditCode 2000 typedCode;
      Page.Tick quietWorld 10000 ] in
  map (fun k => Page.available (nth k actions Page.EditorLoaded)
                  (Page.run (firstn k actions) (Page.initial 0)))
      [0; 1; 2; 3; 4; 5; 6] = [true; true; true; true; true; true; true]
  /\ map (fun k => Page.timers (Page.run (firstn k actions) (Page.initial 0)))
         [3; 4; 5; 6; 7] = [[]; []; []; []; []]
  /\ Page.code (Page.run actions (Page.initial 0)) = typedCode
  /\ Page.toasts (Page.run actions (Page.initial 0)) =
       [Page.mkToast Page.EditorUnlocked Page.Success].
Proof. vm_compute. repeat split. Qed.

(** ** The model endpoint fails behind a route

    The routes report a failed call to the model as a success with a fixed
    text, so what the page sees is a successful call. *)
Lemma model_down_still_unlocks :
  Page.isEditorLocked
    (Page.handleSendMessage modelDownWorld approachText sessionWithProblem) = false
  /\ Page.sessionState
       (Page.handleSendMessage modelDownWorld approachText sessionWithProblem) = Coding
  /\ Page.chatMessages
       (Page.handleSendMessage modelDownWorld approachText sessionWithProblem) =
       [ Page.mkChatMessage Page.User (Some approachText);
         Page.mkChatMessage Page.Assistant
           (Some (lit "I apologize, but I encountered an error. Please try again.")) ].
Proof. repeat split; vm_compute; reflexivity. Qed.

Lemma model_down_still_evaluates :
  Page.sessionState
    (Page.handleComplexitySubmit modelDownWorld (Some (lit "O(n)"))
       (Some (lit "O(1)")) (Page.setCode code50 codingSession)) = Evaluation.
Proof. vm_compute. reflexivity. Qed.

(* ================================================================== *)
(** * Further properties of the code *)
(* ================================================================== *)

(** ** The paste parser on any text *)

Lemma mapi_ids (blocks : list jsstring) :
  forall index,
    map tc_id (ProblemPanel.mapi ProblemPanel.parseExample index blocks) =
      seq (index + 1) (length blocks).
Proof.
  induction blocks as [|b blocks IH]; intros index; [reflexivity|].
  cbn [ProblemPanel.mapi map length seq ProblemPanel.parseExample tc_id].
  f_equal. apply IH.
Qed.

Lemma generateTestCases_count (text : jsstring) :
  length (ProblemPanel.generateTestCases text) = countHeaders text.
Proof.
  unfold ProblemPanel.generateTestCases.
  now rewrite mapi_length, exampleBlocks_length.
Qed.

(** X1.  [generateTestCases] builds one test case per "Example N:" header
    of the text, whatever their number, and numbers the cases 1, 2, ... in
    the order of the headers (the numbers written in the headers are not
    read); a text without a header gives the empty list. *)
Theorem X1_generateTestCases_one_case_per_header (text : jsstring) :
  length (ProblemPanel.generateTestCases text) = countHeaders text
  /\ map tc_id (ProblemPanel.generateTestCases text) =
       seq 1 (countHeaders text).
Proof.
  unfold ProblemPanel.generateTestCases.
  rewrite mapi_length, mapi_ids, exampleBlocks_length. split; reflexivity.
Qed.

(** X2.  A pasted text that is not blank always loads a problem, also when
    it holds no "Example N:" header: the problem then has an empty list of
    test cases, and a run of any code against it is refused with status
    400 before the model is asked. *)
Theorem X2_paste_without_examples_loads_but_cannot_run
    (text : jsstring) (skill : SkillLevel) (g : Gemini)
    (extract : jsstring -> RunCode.Extracted) (code language : jsstring) :
  truthy (trim text) = true ->
  countHeaders text = 0 ->
  exists p error,
    ProblemPanel.handlePasteProblem text skill = Some p
    /\ p_description p = text
    /\ p_testCases p = Some []
    /\ RunCode.POST g extract (RunCode.mkRequest code language (Some p) skill) =
         (Ok (RunCode.failure 400 error), []).
Proof.
  intros Hblank Hcount.
  assert (Hcases : ProblemPanel.generateTestCases text = []).
  { pose proof (generateTestCases_count text) as Hlen. rewrite Hcount in Hlen.
    destruct (ProblemPanel.generateTestCases text); [reflexivity | discriminate]. }
  unfold ProblemPanel.handlePasteProblem. rewrite Hblank, Hcases. cbn [negb].
  eexists.
  destruct (truthy code && truthy language) eqn:Hcl.
  - eexists. repeat split. rewrite RunCode_POST_page.
    cbn [RunCode.rq_problem RunCode.rq_code RunCode.rq_language].
    rewrite Hcl. reflexivity.
  - eexists. repeat split. rewrite RunCode_POST_page.
    cbn [RunCode.rq_problem RunCode.rq_code RunCode.rq_language].
    rewrite Hcl. reflexivity.
Qed.

Lemma X2_paste_without_examples_loads_but_cannot_run_witness :
  exists p error,
    ProblemPanel.handlePasteProblem (lit "Reverse a linked list") Beginner = Some p
    /\ p_description p = lit "Reverse a linked list"
    /\ p_testCases p = Some []
    /\ RunCode.POST (fun _ => Reply None) (fun _ => RunCode.NoJson)
         (RunCode.mkRequest (lit "return 1") (lit "javascript") (Some p) Beginner) =
         (Ok (RunCode.failure 400 error), []).
Proof.
  apply (X2_paste_without_examples_loads_but_cannot_run
           (lit "Reverse a linked list") Beginner (fun _ => Reply None)
           (fun _ => RunCode.NoJson) (lit "return 1") (lit "javascript"));
    reflexivity.
Defined.

(** ** [parseTestCases]: which lines are paired *)

Lemma split_first (sep : ascii) (s : jsstring) :
  exists first rest, split sep s = first :: rest.
Proof.
  destruct s as [|c s]; cbn [split]; [eauto|].
  destruct (Ascii.eqb c sep); [eauto|].
  destruct (split sep s); eauto.
Qed.

Lemma linesFrom_split (s : jsstring) :
  forall current,
    linesFrom current s =
      (current ++ hd [] (split LF s)) :: tl (split LF s).
Proof.
  induction s as [|c s IH]; intros current; cbn [linesFrom split].
  - cbn [hd tl]. now rewrite app_nil_r.
  - destruct (split_first LF s) as (first & rest & Hs).
    rewrite !IH, Hs. destruct (Ascii.eqb c LF); cbn [hd tl app].
    + now rewrite app_nil_r.
    + now rewrite <- app_assoc.
Qed.

(** [split("\n")] gives the lines of the text. *)
Lemma split_textLines (s : jsstring) : split LF s = textLines s.
Proof.
  unfold textLines. rewrite linesFrom_split.
  destruct (split_first LF s) as (first & rest & ->). reflexivity.
Qed.

Lemma trimStart_blank (line : jsstring) :
  hasVisible line = false -> trimStart line = [].
Proof.
  induction line as [|c line IH]; [reflexivity|].
  cbn [hasVisible existsb trimStart]. intros H.
  apply Bool.orb_false_iff in H. destruct H as [Hc Hrest].
  apply Bool.negb_false_iff in Hc. rewrite Hc. exact (IH Hrest).
Qed.

(** [line.trim()] is truthy exactly when the line holds a unit that is not
    white space. *)
Lemma truthy_trim_visible (line : jsstring) :
  truthy (trim line) = hasVisible line.
Proof.
  destruct (hasVisible line) eqn:Hv.
  - unfold hasVisible in Hv. apply existsb_exists in Hv.
    destruct Hv as (c & Hin & Hc). apply Bool.negb_true_iff in Hc.
    apply in_split in Hin. destruct Hin as (pre & t & ->).
    now apply trim_not_blank.
  - unfold trim. now rewrite (trimStart_blank line Hv).
Qed.

Lemma nonBlankLines_visible (s : jsstring) :
  Leetcode.nonBlankLines s = visibleLines s.
Proof.
  unfold Leetcode.nonBlankLines, visibleLines. rewrite split_textLines.
  apply filter_ext. intros line. apply truthy_trim_visible.
Qed.

(** C10.  [parseTestCases] pairs the lines of the raw example string that
    are not blank, that is, that hold a unit other than white space, as
    alternating input and expected-output lines: with [N] such lines it
    returns exactly [N / 2] test cases, the [k]-th (from 0) numbered [k + 1]
    and holding lines [2k] and [2k + 1] trimmed, so a trailing unpaired line
    is dropped; the empty string and an absent string give the empty
    list. *)
Theorem C10_parseTestCases_pairs_visible_lines (s : jsstring) :
  let lines := visibleLines s in
  Leetcode.parseTestCases (Some s) =
    map (fun k => {| tc_id := k + 1;
                     tc_input := trim (nth (2 * k) lines []);
                     tc_expectedOutput := trim (nth (2 * k + 1) lines []);
                     tc_explanation := None |})
        (seq 0 (length lines / 2))
  /\ length (Leetcode.parseTestCases (Some s)) = length lines / 2
  /\ Leetcode.parseTestCases (Some []) = []
  /\ Leetcode.parseTestCases None = [].
Proof.
  intros lines.
  assert (Hmain : Leetcode.parseTestCases (Some s) =
                  Leetcode.loop (length lines) 0 lines []).
  { unfold Leetcode.parseTestCases, lines. rewrite nonBlankLines_visible.
    destruct s as [|c s']; reflexivity. }
  repeat split; try reflexivity.
  - rewrite Hmain, loop_from_zero by lia. unfold pairsFrom.
    rewrite Nat.sub_0_r. apply map_ext. intros k.
    unfold Leetcode.caseAt. f_equal.
    rewrite Nat.mul_comm, Nat.div_mul by discriminate. reflexivity.
  - rewrite Hmain. apply loop_length.
Qed.

(** A line of white space is not empty, yet it is not paired: the text
    below has the two non-empty lines " " and "A" and gives no test case;
    counted by non-empty lines it would give one. *)
Lemma C10_white_space_line_is_not_paired :
  nonEmptyLines (lit " " ++ [LF] ++ lit "A") = [lit " "; lit "A"]
  /\ length (nonEmptyLines (lit " " ++ [LF] ++ lit "A")) / 2 = 1
  /\ Leetcode.parseTestCases (Some (lit " " ++ [LF] ++ lit "A")) = [].
Proof. repeat split. Qed.

(** ** [parseTestCases]: what a case holds *)

Lemma trimStart_idempotent s : trimStart (trimStart s) = trimStart s.
Proof.
  induction s as [|c s IH]; [reflexivity|]. simpl.
  destruct (isSpace c) eqn:Hc; [exact IH|]. simpl. now rewrite Hc.
Qed.

Lemma trimStart_head s :
  trimStart s = [] \/ exists c t, trimStart s = c :: t /\ isSpace c = false.
Proof.
  induction s as [|c s IH]; [now left|]. simpl.
  destruct (isSpace c) eqn:Hc; [exact IH|]. right. eauto.
Qed.

Lemma trimEnd_idempotent s : trimEnd (trimEnd s) = trimEnd s.
Proof. unfold trimEnd. now rewrite rev_involutive, trimStart_idempotent. Qed.

Lemma trimEnd_keeps_head c t :
  isSpace c = false -> exists t', trimEnd (c :: t) = c :: t'.
Proof.
  intros Hc. unfold trimEnd. cbn [rev].
  destruct (trimStart_keeps (rev t) c [] Hc) as [pre' ->].
  rewrite rev_app_distr. simpl. eauto.
Qed.

(** [trim] of a trimmed string changes nothing. *)
Lemma trim_idempotent s : trim (trim s) = trim s.
Proof.
  unfold trim at 2 3.
  destruct (trimStart_head s) as [-> | (c & t & -> & Hc)]; [reflexivity|].
  destruct (trimEnd_keeps_head c t Hc) as [t' Ht].
  unfold trim. rewrite Ht at 1. cbn [trimStart]. rewrite Hc, <- Ht.
  apply trimEnd_idempotent.
Qed.

Lemma nonBlankLines_nth s i :
  i < length (Leetcode.nonBlankLines s) ->
  truthy (trim (nth i (Leetcode.nonBlankLines s) [])) = true.
Proof.
  intros Hi. pose proof (nth_In (Leetcode.nonBlankLines s) [] Hi) as Hin.
  unfold Leetcode.nonBlankLines in Hin at 2. apply filter_In in Hin. tauto.
Qed.

(** X3.  Every test case [parseTestCases] returns has an input and an
    expected output that are not empty and carry no white space at either
    end (trimming them again changes nothing), and has no explanation. *)
Theorem X3_parseTestCases_fields_trimmed_nonempty
    (testCaseString : option jsstring) :
  Forall (fun tc =>
            truthy (tc_input tc) = true
            /\ truthy (tc_expectedOutput tc) = true
            /\ trim (tc_input tc) = tc_input tc
            /\ trim (tc_expectedOutput tc) = tc_expectedOutput tc
            /\ tc_explanation tc = None)
         (Leetcode.parseTestCases testCaseString).
Proof.
  destruct testCaseString as [s|]; [|constructor].
  unfold Leetcode.parseTestCases.
  destruct (truthy s); cbn [negb]; [|constructor].
  rewrite loop_from_zero by lia. unfold pairsFrom.
  apply Forall_forall. intros tc Hin.
  apply in_map_iff in Hin. destruct Hin as (k & <- & Hk).
  apply in_seq in Hk.
  pose proof (Nat.div_mod_eq (length (Leetcode.nonBlankLines s)) 2) as Hdiv.
  pose proof (Nat.mod_upper_bound (length (Leetcode.nonBlankLines s)) 2
                ltac:(discriminate)) as Hmod.
  unfold Leetcode.caseAt.
  cbn [tc_input tc_expectedOutput tc_explanation].
  rewrite !trim_idempotent.
  repeat split; apply nonBlankLines_nth; lia.
Qed.

(** ** Messages to the mentor *)

Lemma handleSendMessage_exact w message s :
  let accepted :=
    Phase_eqb (Page.sessionState s) Approach
    && mentorCallOk w message s
    && (unlockSignal (mentorReply w message s) || (30 <? length message)) in
  Page.isEditorLocked (Page.handleSendMessage w message s) =
    Page.isEditorLocked s && negb accepted
  /\ Page.sessionState (Page.handleSendMessage w message s) =
       (if accepted then Coding else Page.sessionState s).
Proof.
  intros accepted. subst accepted.
  destruct (mentorCallOk w message s) eqn:Hok.
  - pose proof Hok as Hsucc. apply mentorCallOk_iff in Hsucc.
    destruct (mentorCallSucceeds_inv w message s Hsucc) as (Hon & Hm & p & Hp).
    destruct (handleSendMessage_success w message s p Hon Hm Hp) as [Hl Hs].
    rewrite Hl, Hs, shouldUnlockEditor_signal_or_length, andb_true_r.
    split; reflexivity.
  - assert (Hno : ~ mentorCallSucceeds w message s).
    { intros H. apply mentorCallOk_iff in H. congruence. }
    destruct (handleSendMessage_failed_call w message s Hno) as [Hs Hl].
    rewrite Hs, Hl, andb_false_r. cbn [andb negb]. rewrite andb_true_r.
    split; reflexivity.
Qed.

(** X4.  A message changes the editor lock and the phase in exactly one
    case: it is sent in the Approach phase, the Mentor call succeeds (the
    route is reached, the message is not empty, a problem is loaded:
    [mentorCallOk_iff]), and the reply carries an unlock signal or the
    message is longer than 30 code units.  Then the editor is unlocked and
    the phase is Coding; in every other case, whatever the reply says, lock
    and phase stay as they were. *)
Theorem X4_message_unlocks_exactly_on_accepted_approach
    (w : Page.World) (message : jsstring) (s : Page.State) :
  let accepted :=
    Phase_eqb (Page.sessionState s) Approach
    && mentorCallOk w message s
    && (unlockSignal (mentorReply w message s) || (30 <? length message)) in
  Page.isEditorLocked (Page.handleSendMessage w message s) =
    Page.isEditorLocked s && negb accepted
  /\ Page.sessionState (Page.handleSendMessage w message s) =
       (if accepted then Coding else Page.sessionState s).
Proof. apply handleSendMessage_exact. Qed.


(** ** Simulated runs *)

Lemma objects_null items : In None items -> RunCode.objects items = None.
Proof.
  induction items as [|[tc|] items IH]; cbn [In RunCode.objects]; intros H.
  - contradiction.
  - destruct H as [H|H]; [discriminate|]. now rewrite IH.
  - reflexivity.
Qed.

Lemma executeCode_malformed g extract code testCases language :
  malformed testCases ->
  RunCode.executeCode g extract code testCases language = (Throw TypeError, []).
Proof.
  unfold RunCode.executeCode.
  intros [[len ->] | (items & -> & Hnull)]; cbn [RunCode.readCases];
    [reflexivity|].
  now rewrite objects_null.
Qed.


Lemma executeCode_outcomes g extract code cases language :
  exists execution,
    RunCode.executeCode g extract code (RunCode.Array (map Some cases)) language =
      (Ok execution, [RunPrompt language code cases])
    /\ match g (RunPrompt language code cases) with
       | Reply text =>
           match extract (orElse text []) with
           | RunCode.Parsed result => execution = result
           | RunCode.NoJson =>
               everyCaseFailed cases (lit "Simulation failed")
                 RunCode.CouldNotSimulate execution
           | RunCode.NotJson =>
               everyCaseFailed cases (lit "Error")
                 (RunCode.ExecutionFailed SyntaxError) execution
           end
       | FetchRejected =>
           everyCaseFailed cases (lit "Error")
             (RunCode.ExecutionFailed NetworkError) execution
       | NotOk status =>
           everyCaseFailed cases (lit "Error")
             (RunCode.ExecutionFailed (HttpError status)) execution
       | BadJson =>
           everyCaseFailed cases (lit "Error")
             (RunCode.ExecutionFailed SyntaxError) execution
       end.
Proof.
  unfold RunCode.executeCode. rewrite readCases_objects.
  unfold RunCode.callGeminiAPI, tryCatch, bind, generateContent, ret, throw.
  destruct (g (RunPrompt language code cases)) as [| status | | text];
    try (eexists; split; [reflexivity | split; reflexivity]).
  destruct (extract (orElse text [])) as [| | result];
    eexists; (split; [reflexivity|]); try reflexivity; split; reflexivity.
Qed.

(** X6.  Given test cases that are an array of test case objects,
    [executeCode] does not throw and asks the model exactly once.  When the
    call succeeds and the answer holds a brace pair that is JSON, it returns
    the object read from it, as it is.  Otherwise it returns an [allPassed]
    of false with one result per test case, in order, each with the case's
    input and expected output and [passed] false: with the actual output
    "Simulation failed" and the fixed error text when the answer holds no
    brace pair, and with the actual output "Error" and the error of the
    failure when the call fails or the braces do not hold JSON.  Given test
    cases that are not an array, or an array with a [null] entry, it throws
    a TypeError without asking the model: the prompt is built in front of
    its [try] block. *)
Theorem X6_executeCode_returns_answer_or_fails_every_case
    (g : Gemini) (extract : jsstring -> RunCode.Extracted)
    (code language : jsstring) :
  (forall cases : list TestCase,
     exists execution,
       RunCode.executeCode g extract code (RunCode.Array (map Some cases))
         language = (Ok execution, [RunPrompt language code cases])
       /\ match g (RunPrompt language code cases) with
          | Reply text =>
              match extract (orElse text []) with
              | RunCode.Parsed result => execution = result
              | RunCode.NoJson =>
                  everyCaseFailed cases (lit "Simulation failed")
                    RunCode.CouldNotSimulate execution
              | RunCode.NotJson =>
                  everyCaseFailed cases (lit "Error")
                    (RunCode.ExecutionFailed SyntaxError) execution
              end
          | FetchRejected =>
              everyCaseFailed cases (lit "Error")
                (RunCode.ExecutionFailed NetworkError) execution
          | NotOk status =>
              everyCaseFailed cases (lit "Error")
                (RunCode.ExecutionFailed (HttpError status)) execution
          | BadJson =>
              everyCaseFailed cases (lit "Error")
                (RunCode.ExecutionFailed SyntaxError) execution
          end)
  /\ (forall testCases : RunCode.Cases,
        malformed testCases ->
        RunCode.executeCode g extract code testCases language =
          (Throw TypeError, [])).
Proof.
  split.
  - intros cases. apply executeCode_outcomes.
  - intros testCases. apply executeCode_malformed.
Qed.

Example executeCode_null_test_case :
  RunCode.executeCode (fun _ => Reply None) (fun _ => RunCode.NoJson)
    (lit "return 1")
    (RunCode.Array [Some (mkTestCase 1 (lit "[1]") (lit "1") None); None])
    (lit "javascript") = (Throw TypeError, []).
Proof. reflexivity. Qed.



(** The string "false" in [allPassed] counts as passed. *)
Lemma sloppy_answer_shows_all_passed :
  RunCode.ex_allPassed
    {| RunCode.ex_results := RunCode.FromModel JNull;
       RunCode.ex_allPassed := JString (lit "false") |} = JString (lit "false")
  /\ Page.toasts
       (Page.handleRunCode sloppyWorld (Page.setCode code50 codingSession)) =
       Page.toasts codingSession
         ++ [Page.mkToast Page.AllTestsPassed Page.Success]
  /\ Page.testResults
       (Page.handleRunCode sloppyWorld (Page.setCode code50 codingSession)) =
       RunCode.Listed [].
Proof. repeat split; vm_compute; reflexivity. Qed.

(** ** Submissions *)

(** X8.  Whether a submission is evaluated does not depend on the model:
    [handleComplexitySubmit] moves the session to Evaluation exactly when
    the route is reached and the request is complete (code not empty, a
    problem loaded, both complexity estimates not empty).  Then the dialog
    closes and one assistant message with a text that is not empty (the
    model's, or a fixed one when the model fails) ends the chat; otherwise
    phase, dialog and chat stay as they were and the failure toast is
    shown. *)
Theorem X8_submission_evaluated_iff_reached_and_complete
    (w : Page.World) (timeComplexity spaceComplexity : option jsstring)
    (s : Page.State) :
  let s' := Page.handleComplexitySubmit w timeComplexity spaceComplexity s in
  if Page.online w && submissionComplete timeComplexity spaceComplexity s
  then
    Page.sessionState s' = Evaluation
    /\ Page.showComplexityModal s' = false
    /\ Page.toasts s' =
         Page.toasts s ++ [Page.mkToast Page.SolutionEvaluated Page.Success]
    /\ exists evaluation,
         truthy evaluation = true
         /\ Page.chatMessages s' =
              Page.chatMessages s
                ++ [Page.mkChatMessage Page.Assistant (Some evaluation)]
  else
    Page.sessionState s' = Page.sessionState s
    /\ Page.showComplexityModal s' = Page.showComplexityModal s
    /\ Page.toasts s' =
         Page.toasts s ++ [Page.mkToast Page.FailedToEvaluate Page.Error]
    /\ Page.chatMessages s' = Page.chatMessages s.
Proof.
  intros s'. subst s'.
  unfold Page.handleComplexitySubmit, Page.fetchJson, submissionComplete.
  destruct (Page.online w); cbn [andb]; [|repeat split].
  unfold Evaluate.POST.
  cbn [Page.evaluateBody Evaluate.eq_problem Evaluate.eq_timeComplexity
       Evaluate.eq_spaceComplexity Evaluate.eq_code Evaluate.eq_skillLevel
       Evaluate.eq_language Evaluate.eq_hintsUsed Evaluate.eq_userApproach].
  destruct (Page.problem s) as [p|];
    [|rewrite andb_false_r; cbn; repeat split].
  rewrite andb_true_r.
  destruct (Evaluate.present timeComplexity) as [tc|];
    [|rewrite andb_false_r; cbn; repeat split].
  rewrite andb_true_r.
  destruct (Evaluate.present spaceComplexity) as [sc|];
    [|rewrite andb_false_r; cbn; repeat split].
  rewrite andb_true_r.
  destruct (truthy (Page.code s)); [|cbn; repeat split].
  rewrite Evaluate_callGeminiAPI_returns. cbn.
  repeat split. eexists. split; [|reflexivity].
  apply settled_truthy; reflexivity.
Qed.

(** ** The automatic hint route *)

Lemma stageHints_truthy analysis p :
  Forall (fun h => truthy h = true) (AutomaticHint.stageHints analysis p).
Proof.
  unfold AutomaticHint.stageHints.
  repeat break_match; cbn [app]; repeat constructor.
Qed.

Lemma getContextualHints_inv code p skill candidates :
  AutomaticHint.getContextualHints
    (AutomaticHint.analyzeCodeProgress code p) p skill = Ok candidates ->
  candidates <> [] ->
  20 <= length (trim code)
  /\ mentionsTwoSum p = false
  /\ Forall (fun h => truthy h = true) candidates.
Proof.
  unfold AutomaticHint.getContextualHints, mentionsTwoSum.
  cbn [AutomaticHint.analyzeCodeProgress AutomaticHint.isEmpty].
  destruct (Nat.ltb_spec (length (trim code)) 20) as [Hlt|Hge].
  - intros [= <-] Hne. congruence.
  - destruct (includes (toLowerCase (p_title p)) (lit "two sum"));
      [discriminate|].
    intros [= <-] _. repeat split; [exact Hge|].
    apply Forall_app. split; [apply stageHints_truthy|].
    destruct skill; repeat constructor.
Qed.

Lemma nth_truthy (l : list jsstring) (i : nat) :
  Forall (fun h => truthy h = true) l -> i < length l ->
  truthy (nth i l []) = true.
Proof.
  intros Hall Hi. rewrite Forall_forall in Hall. apply Hall. now apply nth_In.
Qed.

(** X9.  The automatic hint route never throws and asks the model at most
    once.  It answers [success: true] only with a hint that is not empty,
    and only for a request in the Coding phase, with a problem whose title
    does not mention "two sum" and code of at least 20 code units after
    trimming, after having asked the model; every other request gets
    [success: false] with an empty hint and no call to the model. *)
Theorem X9_automatic_hint_route_answers
    (g : Gemini) (draw : nat) (rq : AutomaticHint.Request) :
  exists response sent,
    AutomaticHint.POST g draw rq = (Ok response, sent)
    /\ (AutomaticHint.ar_success response = true ->
        truthy (AutomaticHint.ar_hint response) = true
        /\ AutomaticHint.aq_sessionState rq = Coding
        /\ 20 <= length (trim (AutomaticHint.aq_code rq))
        /\ length sent = 1
        /\ exists p,
             AutomaticHint.aq_problem rq = Some p /\ mentionsTwoSum p = false)
    /\ (AutomaticHint.ar_success response = false ->
        response = AutomaticHint.noHint /\ sent = []).
Proof.
  unfold AutomaticHint.POST.
  destruct (AutomaticHint.aq_problem rq) as [p|];
    [|exists AutomaticHint.noHint, []; cbn; repeat split; discriminate].
  destruct (truthy (AutomaticHint.aq_code rq)); cbn [negb orb];
    [|exists AutomaticHint.noHint, []; cbn; repeat split; discriminate].
  destruct (Phase_eqb (AutomaticHint.aq_sessionState rq) Coding) eqn:Hphase;
    cbn [negb];
    [|exists AutomaticHint.noHint, []; cbn; repeat split; discriminate].
  apply Phase_eqb_eq in Hphase.
  destruct (AutomaticHint.getContextualHints
              (AutomaticHint.analyzeCodeProgress (AutomaticHint.aq_code rq) p)
              p (AutomaticHint.aq_skillLevel rq)) as [candidates|e] eqn:Hhints;
    [|exists AutomaticHint.noHint, []; cbn; repeat split; discriminate].
  destruct (Nat.eqb_spec (length candidates) 0) as [Hzero|Hsome];
    [exists AutomaticHint.noHint, []; cbn; repeat split; discriminate|].
  assert (Hne : candidates <> []) by (intros ->; apply Hsome; reflexivity).
  destruct (getContextualHints_inv _ _ _ _ Hhints Hne) as (Hlen & Htwo & Hall).
  rewrite AutomaticHint_callGeminiAPI_returns.
  unfold tryCatch, bind, ret. cbn [app].
  match goal with
  | |- context [if ?c then _ else _] => destruct c eqn:Hclean
  end.
  - eexists _, _. split; [reflexivity|]. cbn. split; [|discriminate].
    intros _. repeat split; eauto.
    apply nth_truthy; [exact Hall|].
    apply Nat.mod_upper_bound. exact Hsome.
  - eexists _, _. split; [reflexivity|]. cbn. split; [|discriminate].
    intros _. repeat split; eauto.
    apply orb_false_elim in Hclean. destruct Hclean as [Hclean _].
    apply orb_false_elim in Hclean. destruct Hclean as [Hclean _].
    now apply negb_false_iff in Hclean.
Qed.

(** X10.  For a problem whose title mentions "two sum" (in any case) the
    automatic hint route answers every request with [success: false] and
    never asks the model, and [handleAutomaticHint] leaves the page as it
    is: such a problem never gets an automatic hint. *)
Theorem X10_two_sum_title_never_gets_automatic_hint
    (p : Problem) (g : Gemini) (draw : nat) (rq : AutomaticHint.Request)
    (w : Page.World) (scope : Page.Closure) (currentCode : jsstring)
    (s : Page.State) :
  mentionsTwoSum p = true ->
  AutomaticHint.aq_problem rq = Some p ->
  Page.c_problem scope = Some p ->
  AutomaticHint.POST g draw rq = (Ok AutomaticHint.noHint, [])
  /\ Page.handleAutomaticHint w scope currentCode s = s.
Proof.
  intros Htwo Hrq Hscope.
  assert (Hroute : forall g draw rq,
            AutomaticHint.aq_problem rq = Some p ->
            AutomaticHint.POST g draw rq = (Ok AutomaticHint.noHint, [])).
  { clear - Htwo. intros g' draw' rq' Hrq. unfold mentionsTwoSum in Htwo.
    unfold AutomaticHint.POST, AutomaticHint.getContextualHints.
    rewrite Hrq, Htwo.
    destruct (negb (truthy (AutomaticHint.aq_code rq'))
              || negb (Phase_eqb (AutomaticHint.aq_sessionState rq') Coding));
      [reflexivity|].
    destruct (AutomaticHint.isEmpty
                (AutomaticHint.analyzeCodeProgress (AutomaticHint.aq_code rq') p));
      reflexivity. }
  split; [now apply Hroute|].
  unfold Page.handleAutomaticHint, Page.fetchJson. rewrite Hscope.
  destruct (length (trim currentCode) <? 20); [reflexivity|].
  rewrite Hroute by reflexivity.
  destruct (Page.online w); reflexivity.
Qed.

Lemma X10_two_sum_title_never_gets_automatic_hint_witness :
  AutomaticHint.POST (fun _ => Reply (Some (lit "Try a hash map for the lookups.")))
    0 (AutomaticHint.mkRequest code50 (Some problemTwoSum) Beginner
         (lit "javascript") Coding) = (Ok AutomaticHint.noHint, [])
  /\ Page.handleAutomaticHint quietWorld
       (Page.mkClosure (Some problemTwoSum) Beginner (lit "javascript") Coding)
       code50 codingSession = codingSession.
Proof.
  apply (X10_two_sum_title_never_gets_automatic_hint problemTwoSum);
    reflexivity.
Defined.

(** ** Whole sessions *)

(** *** The phase only moves forward *)

Lemma core_phase s s' : core s' = core s -> Page.sessionState s' = Page.sessionState s.
Proof. unfold core. now intros [= -> _ _ _]. Qed.

Lemma perform_phase_monotone a s :
  phaseRank (Page.sessionState s) <= phaseRank (Page.sessionState (Page.perform a s)).
Proof.
  assert (Hsame : forall s', core s' = core s ->
            phaseRank (Page.sessionState s) <= phaseRank (Page.sessionState s')).
  { intros s' H. rewrite (core_phase _ _ H). apply le_n. }
  destruct a.
  - apply Hsame. cbn [Page.perform]. now rewrite handleInitialMessage_core.
  - apply le_n.
  - apply Hsame, selectLanguage_core.
  - destruct (sendMessage_perform w message s) as [e ->].
    cbn [Page.sessionState Page.setEditor].
    destruct (handleSendMessage_exact w message s) as [_ ->].
    destruct (Page.sessionState s); cbn [Phase_eqb andb]; [|apply le_n..].
    break_match; cbn; lia.
  - apply le_n.
  - apply Hsame, typeCode_core.
  - apply Hsame, runTimers_core.
  - cbn [Page.perform]. destruct (handleHintRequest_rest w s) as [-> _]. apply le_n.
  - apply Hsame, handleRunCode_core.
  - apply le_n.
  - destruct (submitComplexity_perform w timeComplexity spaceComplexity s)
      as [-> | ->]; [apply le_n|].
    destruct (handleComplexitySubmit_phase_cases w (Some (trim timeComplexity))
                (Some (trim spaceComplexity)) s) as [-> | ->]; [|apply le_n].
    destruct (Page.sessionState s); cbn; lia.
  - apply le_n.
Qed.

Lemma step_phase_monotone a s :
  phaseRank (Page.sessionState s) <= phaseRank (Page.sessionState (Page.step a s)).
Proof.
  unfold Page.step. destruct (Page.available a s); [|apply le_n].
  apply perform_phase_monotone.
Qed.

Lemma run_phase_monotone actions :
  forall s,
    phaseRank (Page.sessionState s)
      <= phaseRank (Page.sessionState (Page.run actions s)).
Proof.
  induction actions as [|a actions IH]; intros s; [apply le_n|].
  change (Page.run (a :: actions) s) with (Page.run actions (Page.step a s)).
  pose proof (step_phase_monotone a s). specialize (IH (Page.step a s)). lia.
Qed.

(** X12.  Along every sequence of actions, from every state, the phase
    only moves forward in the order Approach, Coding, Evaluation: no handler
    of the page brings a session back to an earlier phase, so a session in
    Evaluation stays there and a session that has left Approach never
    returns to it. *)
Theorem X12_phase_never_moves_back (actions : list Page.Action) (s : Page.State) :
  phaseRank (Page.sessionState s)
    <= phaseRank (Page.sessionState (Page.run actions s)).
Proof. apply run_phase_monotone. Qed.

(** *** The recorded approach *)

Ltac editor_effects :=
  unfold Page.typeCode, Page.codeEffect, Page.languageEffect, Page.lockEffect,
    Page.initializeEditor, Page.onDidChangeModelContent, Page.handleCodeChange,
    Page.setTimeout, Page.clearTimeout, ComplexityModal.handleSubmit,
    ComplexityModal.handleClose.

Lemma perform_userApproach a s :
  Page.sessionState s <> Approach ->
  Page.userApproach (Page.perform a s) = Page.userApproach s.
Proof.
  intros Hphase. destruct a; cbn [Page.perform].
  - unfold Page.handleInitialMessage. frame.
  - reflexivity.
  - editor_effects. frame.
  - unfold Page.handleSendMessage.
    destruct (Phase_eqb (Page.sessionState s) Approach) eqn:Hp;
      [apply Phase_eqb_eq in Hp; contradiction|].
    editor_effects. frame.
  - reflexivity.
  - editor_effects. frame.
  - destruct (runTimers_state w now s) as [shown ->]. reflexivity.
  - unfold Page.handleHintRequest. frame.
  - unfold Page.handleRunCode. frame.
  - reflexivity.
  - editor_effects. unfold Page.handleComplexitySubmit. frame.
  - reflexivity.
Qed.

Lemma run_userApproach actions :
  forall s,
    Page.sessionState s <> Approach ->
    Page.userApproach (Page.run actions s) = Page.userApproach s.
Proof.
  induction actions as [|a actions IH]; intros s Hphase; [reflexivity|].
  change (Page.run (a :: actions) s) with (Page.run actions (Page.step a s)).
  assert (Hstep : Page.userApproach (Page.step a s) = Page.userApproach s).
  { unfold Page.step. destruct (Page.available a s); [|reflexivity].
    now apply perform_userApproach. }
  rewrite IH, Hstep; [reflexivity|].
  pose proof (step_phase_monotone a s) as Hmono. intros Hback.
  rewrite Hback in Hmono. destruct (Page.sessionState s); [congruence | cbn in Hmono; lia..].
Qed.

(** X13.  The recorded approach is fixed once the Approach phase is over:
    from a state in Coding or Evaluation no sequence of actions changes
    [userApproach], so the approach an evaluation request carries is the
    last message sent during the Approach phase, and later chat messages do
    not overwrite it. *)
Theorem X13_approach_is_frozen_after_approach_phase
    (actions : list Page.Action) (s : Page.State) :
  Page.sessionState s <> Approach ->
  Page.userApproach (Page.run actions s) = Page.userApproach s.
Proof. apply run_userApproach. Qed.

Lemma X13_approach_is_frozen_after_approach_phase_witness :
  Page.userApproach codingSession = approachText
  /\ Page.userApproach
       (Page.run [ Page.SendMessage quietWorld (lit "Should I use a loop here?");
                   Page.EditCode 1000 code50;
                   Page.ClickSubmit;
                   Page.SubmitComplexity quietWorld (lit "O(n)") (lit "O(1)") ]
          codingSession) = Page.userApproach codingSession.
Proof.
  split; [reflexivity|].
  apply (X13_approach_is_frozen_after_approach_phase _ codingSession).
  vm_compute. discriminate.
Defined.

(** *** The inactivity timer in every reachable state *)

Lemma timerState_same_fields s s' pending :
  timerFields s' = timerFields s -> timerState s pending -> timerState s' pending.
Proof.
  unfold timerFields, timerState. intros [= Ht Hr Hl].
  destruct pending as [due|]; rewrite Ht, ?Hr, ?Hl; auto.
Qed.

Lemma codeEffect_timerState now s pending :
  timerState s pending -> exists pending', timerState (Page.codeEffect now s) pending'.
Proof.
  intros Hs. unfold Page.codeEffect, Page.onDidChangeModelContent.
  destruct (Page.editor s) as [ed|]; [|eauto].
  destruct (list_eq_dec ascii_dec (Page.code s) (Page.ed_value ed)); [eauto|].
  eexists. apply (handleCodeChange_timerState Page.firstRender now _ _ pending).
  eapply timerState_same_fields; [|exact Hs]. reflexivity.
Qed.

Lemma languageEffect_timerState now s pending :
  timerState s pending ->
  exists pending', timerState (Page.languageEffect now s) pending'.
Proof.
  intros Hs. unfold Page.languageEffect.
  destruct (Page.editor s); [|eauto].
  eexists. apply (handleCodeChange_timerState _ now _ s pending Hs).
Qed.

Lemma typeCode_timerState now newCode s pending :
  timerState s pending ->
  exists pending', timerState (Page.typeCode now newCode s) pending'.
Proof.
  intros Hs. unfold Page.typeCode, Page.onDidChangeModelContent.
  destruct (Page.editor s) as [ed|]; [|eauto].
  eexists. apply (handleCodeChange_timerState Page.firstRender now _ _ pending).
  eapply timerState_same_fields; [|exact Hs]. reflexivity.
Qed.

Lemma perform_timerState a s pending :
  timerState s pending -> exists pending', timerState (Page.perform a s) pending'.
Proof.
  intros Hs.
  assert (Hsame : forall s', timerFields s' = timerFields s ->
                             exists pending', timerState s' pending').
  { intros s' H. exists pending. eapply timerState_same_fields; eauto. }
  destruct a; try (apply Hsame; reflexivity).
  - apply Hsame. cbn [Page.perform]. unfold Page.handleInitialMessage. frame.
  - cbn [Page.perform].
    destruct (list_eq_dec ascii_dec lang (Page.language s)); [eauto|].
    destruct (languageEffect_timerState now (Page.setLanguage lang s) pending)
      as [pending1 H1];
      [eapply timerState_same_fields; [|exact Hs]; reflexivity|].
    break_match; [eauto|]. eapply codeEffect_timerState; exact H1.
  - destruct (sendMessage_perform w message s) as [e ->].
    apply Hsame. unfold Page.handleSendMessage. frame.
  - apply (typeCode_timerState now newCode s pending Hs).
  - eexists. apply (runTimers_timerState w now s pending Hs).
  - apply Hsame. cbn [Page.perform]. unfold Page.handleHintRequest. frame.
  - apply Hsame. cbn [Page.perform]. unfold Page.handleRunCode. frame.
  - destruct (submitComplexity_perform w timeComplexity spaceComplexity s)
      as [-> | ->]; [eauto|].
    apply Hsame. unfold Page.handleComplexitySubmit. frame.
Qed.

Lemma run_timerState actions :
  forall s pending,
    timerState s pending ->
    exists pending', timerState (Page.run actions s) pending'.
Proof.
  induction actions as [|a actions IH]; intros s pending Hs; [eauto|].
  change (Page.run (a :: actions) s) with (Page.run actions (Page.step a s)).
  unfold Page.step. destruct (Page.available a s); [|eauto].
  destruct (perform_timerState a s pending Hs) as [pending' Hs']. eauto.
Qed.

(** X11.  In every state a session can reach, by any sequence of actions,
    at most one inactivity timer is pending; it is the timer the ref names
    and it is due exactly 3000 ms after the last recorded activity.  So
    when the clock reaches any later time the pending timer, if due, calls
    [handleAutomaticHint] (the elapsed-time test inside the callback never
    declines), exactly once and at its due time. *)
Theorem X11_at_most_one_timer_in_every_reachable_state
    (now : Z) (actions : list Page.Action) :
  let s := Page.run actions (Page.initial now) in
  exists pending,
    timerState s pending
    /\ length (Page.timers s) <= 1
    /\ forall w later, snd (Page.runTimers w later s) = firesBy pending later.
Proof.
  intros s.
  destruct (run_timerState actions (Page.initial now) None eq_refl)
    as [pending Hs].
  fold s in Hs. exists pending. split; [exact Hs|]. split.
  - destruct pending as [due|]; cbn in Hs.
    + destruct Hs as (t & -> & _). apply le_n.
    + rewrite Hs. apply Nat.le_0_l.
  - intros w later. apply (runTimers_timerState w later s pending Hs).
Qed.

(** *** Hints counted and hints shown *)

Ltac count_hints :=
  unfold hintsShown; repeat break_match; cbn;
  rewrite ?filter_app, ?length_app; cbn; try lia; auto.

Lemma handleAutomaticHint_hints w scope currentCode s :
  Page.hintsUsed (Page.handleAutomaticHint w scope currentCode s) = Page.hintsUsed s
  /\ hintsShown (Page.handleAutomaticHint w scope currentCode s) = hintsShown s.
Proof. unfold Page.handleAutomaticHint. count_hints. Qed.

Lemma runCallbacks_hints w due :
  forall s,
    Page.hintsUsed (fst (Page.runCallbacks w due s)) = Page.hintsUsed s
    /\ hintsShown (fst (Page.runCallbacks w due s)) = hintsShown s.
Proof.
  induction due as [|t due IH]; intros s; [split; reflexivity|].
  cbn [Page.runCallbacks]. unfold Page.inactivityCallback.
  destruct (3000 <=? Page.timer_due t - Page.lastActivityRef s)%Z.
  - destruct (handleAutomaticHint_hints w (Page.timer_closure t)
                (Page.timer_code t) s) as [Hu Hs].
    specialize (IH (Page.handleAutomaticHint w (Page.timer_closure t)
                      (Page.timer_code t) s)).
    destruct (Page.runCallbacks w due _) as [s2 fired]. cbn [fst] in *.
    rewrite <- Hu, <- Hs. exact IH.
  - specialize (IH s). destruct (Page.runCallbacks w due s) as [s2 fired].
    exact IH.
Qed.

Lemma handleCodeChange_hints r now newCode s :
  Page.hintsUsed (Page.handleCodeChange r now newCode s) = Page.hintsUsed s
  /\ hintsShown (Page.handleCodeChange r now newCode s) = hintsShown s.
Proof.
  unfold Page.handleCodeChange, Page.setTimeout, Page.clearTimeout. count_hints.
Qed.

Lemma perform_hints a s :
  Page.hintsUsed (Page.perform a s) + hintsShown s =
    Page.hintsUsed s + hintsShown (Page.perform a s).
Proof.
  destruct a; cbn [Page.perform]; try reflexivity.
  - unfold Page.handleInitialMessage. count_hints.
  - editor_effects. count_hints.
  - unfold Page.handleSendMessage. editor_effects. count_hints.
  - editor_effects. count_hints.
  - unfold Page.runTimers.
    destruct (runCallbacks_hints w (filter (Page.isDue now) (Page.timers s))
                (Page.setTimers
                   (filter (fun t => negb (Page.isDue now t)) (Page.timers s)) s))
      as [-> ->]. reflexivity.
  - unfold Page.handleHintRequest. count_hints.
  - unfold Page.handleRunCode. count_hints.
  - editor_effects. unfold Page.handleComplexitySubmit. count_hints.
Qed.

Lemma run_hints actions :
  forall s,
    Page.hintsUsed (Page.run actions s) + hintsShown s =
      Page.hintsUsed s + hintsShown (Page.run actions s).
Proof.
  induction actions as [|a actions IH]; intros s; [reflexivity|].
  change (Page.run (a :: actions) s) with (Page.run actions (Page.step a s)).
  specialize (IH (Page.step a s)).
  assert (Hstep : Page.hintsUsed (Page.step a s) + hintsShown s =
                    Page.hintsUsed s + hintsShown (Page.step a s)).
  { unfold Page.step. destruct (Page.available a s); [|reflexivity].
    apply perform_hints. }
  lia.
Qed.

(** X14.  The hint count is the number of explicit hints shown: after any
    sequence of actions of a session, [hintsUsed] equals the number of
    toasts of explicit hint requests shown so far.  A hint is never counted
    without being shown, an explicit hint is never shown without being
    counted, and automatic hints and all other toasts leave the count
    alone. *)
Theorem X14_hints_counted_are_hints_shown (now : Z) (actions : list Page.Action) :
  Page.hintsUsed (Page.run actions (Page.initial now)) =
    hintsShown (Page.run actions (Page.initial now)).
Proof.
  pose proof (run_hints actions (Page.initial now)) as H.
  cbn [Page.initial Page.hintsUsed] in H.
  change (hintsShown (Page.initial now)) with 0 in H. lia.
Qed.

(** ** The agents and the page *)

(** X15.  The orchestrator and the page agree on what a chat message does
    to the session: for a context that mirrors the page state,
    [processUserMessage] leaves phase, editor lock, hint count and dialog
    flag exactly as [handleSendMessage] does, in every phase and whatever
    becomes of the Mentor call (the agents' request carries no code and no
    language, which the Approach prompt does not read). *)
Theorem X15_orchestrator_and_page_agree_on_messages
    (w : Page.World) (message : jsstring) (s : Page.State) :
  let context :=
    {| AgentOrchestrator.cx_sessionState := Page.sessionState s;
       AgentOrchestrator.cx_code := Page.code s;
       AgentOrchestrator.cx_problem := Page.problem s;
       AgentOrchestrator.cx_skillLevel := Page.skillLevel s |} in
  core (fst (AgentOrchestrator.processUserMessage w message context s)) =
    core (Page.handleSendMessage w message s).
Proof.
  intros context. subst context.
  destruct (handleSendMessage_exact w message s) as [Hl Hs].
  destruct (handleSendMessage_rest w message s) as [Hu Hm].
  unfold core at 2. rewrite Hl, Hs, Hu, Hm. clear Hl Hs Hu Hm.
  unfold AgentOrchestrator.processUserMessage.
  cbn [AgentOrchestrator.cx_sessionState AgentOrchestrator.cx_problem
       AgentOrchestrator.cx_code AgentOrchestrator.cx_skillLevel].
  destruct (Page.sessionState s) eqn:Hphase; cbn [Phase_eqb andb negb];
    [|unfold core; cbn; rewrite Hphase, andb_true_r; reflexivity..].
  unfold AgentOrchestrator.handleApproachPhase, MentorAgent.evaluateApproach,
    Page.fetchJson, mentorCallOk.
  destruct (Page.online w); cbn [andb];
    [|unfold core; cbn; rewrite Hphase, andb_true_r; reflexivity].
  destruct (Page.problem s) as [p|] eqn:Hp.
  2:{ rewrite Mentor_POST_invalid by (left; reflexivity).
      rewrite andb_false_r. unfold core. cbn.
      rewrite Hphase, andb_true_r. reflexivity. }
  destruct (truthy message) eqn:Hmsg.
  2:{ rewrite Mentor_POST_invalid by (right; exact Hmsg).
      unfold core. cbn. rewrite Hphase, andb_true_r. reflexivity. }
  rewrite (Mentor_POST_valid (Page.gemini w)
             {| Mentor.mq_message := message;
                Mentor.mq_problem := Some p;
                Mentor.mq_skillLevel := Page.skillLevel s;
                Mentor.mq_sessionState := Approach;
                Mentor.mq_code := None;
                Mentor.mq_language := None |} p eq_refl Hmsg).
  rewrite (mentorReply_text w message s p Hp).
  cbn [fst Mentor.mr_response Mentor.mr_unlockEditor Mentor.mq_sessionState
       Mentor.mq_message Phase_eqb andb].
  rewrite shouldUnlockEditor_signal_or_length.
  unfold mentorText, Mentor.promptFor.
  cbn [Page.mentorBody Mentor.mq_sessionState Mentor.mq_skillLevel
       Mentor.mq_message].
  rewrite Hphase.
  break_match; unfold core; cbn; rewrite ?Hphase, ?andb_true_r, ?andb_false_r;
    reflexivity.
Qed.

(** ** The greeting *)


(** ** [cleanHtmlContent] *)

Example cleanHtmlContent_sample :
  Leetcode.cleanHtmlContent
    (lit "<p>Given <code>nums</code>&nbsp;&amp; a target &lt; 5,</p>" ++ [LF]
       ++ lit "<p>return &quot;indices&quot;.</p>" ++ [LF]) =
    lit "Given nums & a target < 5," ++ [LF]
      ++ lit "return " ++ [Page.quote] ++ lit "indices" ++ [Page.quote] ++ lit "."
  /\ Leetcode.cleanHtmlContent (lit "a < b and c > d") = lit "a  d"
  /\ Leetcode.cleanHtmlContent (lit "1 < 2 &amp;&amp; x") = lit "1 < 2 && x".
Proof. repeat split; reflexivity. Qed.






Lemma trimStart_suffix s : exists a, s = a ++ trimStart s.
Proof.
  induction s as [|c s [a IH]]; [now exists []|]. cbn [trimStart].
  destruct (isSpace c); [|now exists []].
  exists (c :: a). cbn [app]. now rewrite <- IH.
Qed.

Lemma trimEnd_prefix s : exists b, s = trimEnd s ++ b.
Proof.
  unfold trimEnd. destruct (trimStart_suffix (rev s)) as [a Ha].
  exists (rev a). rewrite <- rev_app_distr, <- Ha. now rewrite rev_involutive.
Qed.




(** ** Which route answers 500 *)






Example respond_null_test_case :
  RunCode.respond (fun _ => Reply None) (fun _ => RunCode.NoJson)
    (RunCode.mkBody (lit "return 1") (lit "javascript")
       (Some (Some (RunCode.Array [None]))) Beginner) =
    (Ok (RunCode.failure 500 (lit "Failed to run code")), []).
Proof. reflexivity. Qed.

(** ** The rest of the paste parser *)

Section Constraints.

Import ProblemPanel.

Lemma before_prefix sep s : exists rest, s = before sep s ++ rest.
Proof.
  induction s as [|c s [rest IH]].
  - exists []. cbn [before]. destruct (startsWith [] sep); reflexivity.
  - cbn [before]. destruct (startsWith (c :: s) sep); [now exists (c :: s)|].
    exists rest. cbn [app]. now rewrite <- IH.
Qed.

Lemma startsWith_prefix p :
  forall a b, startsWith a p = true -> startsWith (a ++ b) p = true.
Proof.
  induction p as [|x p IH]; intros a b; [reflexivity|].
  destruct a as [|y a]; [discriminate|]. cbn [startsWith app].
  intros H. apply andb_prop in H. destruct H as [-> H]. now apply IH.
Qed.

Lemma before_free x sep s : includes (before (x :: sep) s) (x :: sep) = false.
Proof.
  induction s as [|c s IH]; [reflexivity|]. cbn [before].
  destruct (startsWith (c :: s) (x :: sep)) eqn:Hhere; [reflexivity|].
  cbn [includes]. rewrite IH, orb_false_r.
  destruct (startsWith (c :: before (x :: sep) s) (x :: sep)) eqn:Hin;
    [|reflexivity].
  destruct (before_prefix (x :: sep) s) as [rest Hrest].
  apply (startsWith_prefix _ _ rest) in Hin. cbn [app] in Hin.
  rewrite <- Hrest in Hin. congruence.
Qed.

Lemma includes_suffix a s p : includes (a ++ s) p = false -> includes s p = false.
Proof.
  induction a as [|c a IH]; [trivial|]. cbn [app includes].
  intros H. apply orb_false_iff in H. now apply IH.
Qed.

Lemma includes_prefix x p s b :
  includes (s ++ b) (x :: p) = false -> includes s (x :: p) = false.
Proof.
  induction s as [|c s IH]; [reflexivity|]. cbn [app includes].
  intros H. apply orb_false_iff in H. destruct H as [Hc Hrest].
  rewrite (IH Hrest), orb_false_r.
  destruct (startsWith (c :: s) (x :: p)) eqn:Hin; [|reflexivity].
  apply (startsWith_prefix _ _ b) in Hin. cbn [app] in Hin. congruence.
Qed.

Lemma includes_trim x p s :
  includes s (x :: p) = false -> includes (trim s) (x :: p) = false.
Proof.
  intros H. unfold trim.
  destruct (trimStart_suffix s) as [a Ha].
  destruct (trimEnd_prefix (trimStart s)) as [b Hb].
  rewrite Ha in H. apply includes_suffix in H. rewrite Hb in H.
  now apply includes_prefix in H.
Qed.

Lemma constraintsMatch_inv s :
  forall capture,
    constraintsMatch s = Some capture ->
    exists rest, capture = before [LF; LF] rest.
Proof.
  induction s as [|c s IH]; intros capture; cbn [constraintsMatch].
  - repeat break_match; intros [= <-] || discriminate; now exists [].
  - repeat break_match; try (intros [= <-]; eauto). apply IH.
Qed.

End Constraints.

(** X19.  The constraints [extractConstraints] takes from a pasted text
    never run across a blank line (they hold no two consecutive line
    feeds: the capture ends at the first blank line behind the label) and
    carry no white space at either end. *)
Theorem X19_extractConstraints_stops_at_blank_line (text : jsstring) :
  includes (ProblemPanel.extractConstraints text) [LF; LF] = false
  /\ trim (ProblemPanel.extractConstraints text) =
       ProblemPanel.extractConstraints text.
Proof.
  unfold ProblemPanel.extractConstraints, ProblemPanel.captureOrEmpty.
  destruct (ProblemPanel.constraintsMatch text) as [capture|] eqn:Hm;
    [|split; reflexivity].
  destruct (constraintsMatch_inv text capture Hm) as [rest ->].
  split; [|apply trim_idempotent].
  apply includes_trim, before_free.
Qed.

Lemma split_head sep s :
  exists first others rest,
    split sep s = first :: others
    /\ s = first ++ rest
    /\ existsb (fun c => Ascii.eqb c sep) first = false
    /\ (rest = [] \/ exists rest', rest = sep :: rest').
Proof.
  induction s as [|c s (first & others & rest & Hsplit & Hs & Hfree & Hrest)].
  - exists [], [], []. repeat split. now left.
  - cbn [split]. destruct (Ascii.eqb_spec c sep) as [->|Hne].
    + exists [], (split sep s), (sep :: s). repeat split. right. eauto.
    + rewrite Hsplit. exists (c :: first), others, rest.
      repeat split; [now rewrite Hs at 1 | | exact Hrest].
      cbn [existsb]. rewrite Hfree, orb_false_r.
      now apply Ascii.eqb_neq.
Qed.

(** X20.  [handlePasteProblem] loads nothing exactly for a blank text.
    Otherwise the problem it loads has the whole text as description, the
    skill level as difficulty, and a title that is not empty and holds no
    line feed: the first line of the text, or "Custom Problem" when the
    text begins with a line feed. *)
Theorem X20_paste_titles_problem_by_first_line
    (problemText : jsstring) (skillLevel : SkillLevel) :
  match ProblemPanel.handlePasteProblem problemText skillLevel with
  | None => truthy (trim problemText) = false
  | Some p =>
      truthy (trim problemText) = true
      /\ p_id p = lit "custom"
      /\ p_description p = problemText
      /\ p_difficulty p = skillName skillLevel
      /\ truthy (p_title p) = true
      /\ existsb (fun c => Ascii.eqb c LF) (p_title p) = false
      /\ ((exists rest,
             problemText = p_title p ++ rest
             /\ (rest = [] \/ exists rest', rest = LF :: rest'))
          \/ (p_title p = lit "Custom Problem"
              /\ exists rest', problemText = LF :: rest'))
  end.
Proof.
  unfold ProblemPanel.handlePasteProblem.
  destruct (truthy (trim problemText)) eqn:Hblank; cbn [negb]; [|reflexivity].
  cbn [p_id p_description p_difficulty p_title].
  destruct (split_head LF problemText)
    as (first & others & rest & -> & Hs & Hfree & Hrest).
  destruct first as [|c first]; cbn [truthy]; repeat split; trivial.
  - right. split; [reflexivity|]. cbn [app] in Hs.
    destruct Hrest as [-> | [rest' ->]]; [|eauto].
    subst problemText. discriminate.
  - left. eauto.
Qed.

(** ** Hints through the orchestrator *)

(** X21.  [AgentOrchestrator.provideHint] counts the hint before it asks:
    in every world it adds exactly one to [hintsUsed] and changes nothing
    else of the page, also when no hint comes back.  What it returns is
    undefined exactly when the route is reached without a problem, and a
    text that is not empty in every other case (the route's hint, or the
    agent's fixed one when the route is out of reach). *)
Theorem X21_orchestrator_hint_is_counted_before_asking
    (w : Page.World) (code : jsstring) (problem : option Problem)
    (s : Page.State) :
  fst (AgentOrchestrator.provideHint w code problem s) =
    Page.setHintsUsed (Page.hintsUsed s + 1) s
  /\ (snd (AgentOrchestrator.provideHint w code problem s) = None <->
      Page.online w = true /\ problem = None)
  /\ (forall hint,
        snd (AgentOrchestrator.provideHint w code problem s) = Some hint ->
        truthy hint = true).
Proof.
  unfold AgentOrchestrator.provideHint, AgentOrchestrator.onHintUsed,
    MentorAgent.generateHint, Page.fetchJson.
  cbn [fst snd]. split; [reflexivity|].
  destruct (Page.online w).
  2:{ split; [split; [discriminate | intros [H _]; discriminate]|].
      intros hint [= <-]. reflexivity. }
  destruct problem as [p|].
  - unfold Hint.POST. cbn [Hint.hq_problem].
    rewrite Hint_askModel_returns. cbn [tryCatch fst Hint.hinted Hint.hr_hint].
    split; [split; [discriminate | intros [_ H]; discriminate]|].
    intros hint [= <-]. apply settled_truthy; reflexivity.
  - rewrite Hint_POST_without_problem by reflexivity. cbn.
    split; [tauto | discriminate].
Qed.

(** ** [CodeAgent]: languages other than JavaScript *)

Lemma runTest_mocked engine code language index testCase :
  language <> lit "javascript" ->
  CodeAgent.runTest engine code language index testCase =
    {| CodeAgent.cr_input := tc_input testCase;
       CodeAgent.cr_expected := tc_expectedOutput testCase;
       CodeAgent.cr_actual := Some (lit "Mock result");
       CodeAgent.cr_passed :=
         CodeAgent.compareResults (Some (lit "Mock result"))
           (tc_expectedOutput testCase) |}.
Proof.
  intros Hlang. unfold CodeAgent.runTest, CodeAgent.executeCode.
  destruct (list_eq_dec ascii_dec language (lit "javascript")); [contradiction|].
  reflexivity.
Qed.

Lemma mapi_runTest_mocked engine code language testCases :
  language <> lit "javascript" ->
  forall index,
    ProblemPanel.mapi (CodeAgent.runTest engine code language) index testCases =
      map (CodeAgent.runTest engine code language 0) testCases.
Proof.
  intros Hlang. induction testCases as [|tc testCases IH]; intros index;
    [reflexivity|].
  cbn [ProblemPanel.mapi map]. rewrite IH.
  now rewrite !runTest_mocked by exact Hlang.
Qed.

(** X22.  In a language other than "javascript" [CodeAgent.runTests]
    never runs the code: whatever the code and the engine, it returns one
    result per test case of the problem, in order, each with the case's
    input and expected output and the fixed text "Mock result" as actual
    output, so a case is reported as passed exactly when its expected
    output is that very text. *)
Theorem X22_runTests_other_languages_are_mocked
    (engine : CodeAgent.Engine) (code : jsstring) (p : Problem)
    (language : jsstring) :
  language <> lit "javascript" ->
  let results := CodeAgent.runTests engine code (Some p) language in
  map CodeAgent.cr_input results = map tc_input (testCasesOf p)
  /\ map CodeAgent.cr_expected results = map tc_expectedOutput (testCasesOf p)
  /\ Forall (fun r =>
               CodeAgent.cr_actual r = Some (lit "Mock result")
               /\ (CodeAgent.cr_passed r = true <->
                   CodeAgent.cr_expected r = lit "Mock result"))
            results
  /\ forall engine' code',
       CodeAgent.runTests engine' code' (Some p) language = results.
Proof.
  intros Hlang results. subst results. unfold CodeAgent.runTests.
  fold (testCasesOf p). rewrite mapi_runTest_mocked by exact Hlang.
  rewrite !map_map. repeat split.
  - apply map_ext. intros tc. now rewrite runTest_mocked.
  - apply map_ext. intros tc. now rewrite runTest_mocked.
  - apply Forall_forall. intros r Hin. apply in_map_iff in Hin.
    destruct Hin as (tc & <- & _). rewrite runTest_mocked by exact Hlang.
    cbn [CodeAgent.cr_actual CodeAgent.cr_passed CodeAgent.cr_expected
         CodeAgent.compareResults].
    split; [reflexivity|].
    destruct (list_eq_dec ascii_dec (lit "Mock result") (tc_expectedOutput tc));
      split; congruence.
  - intros engine' code'. rewrite mapi_runTest_mocked by exact Hlang.
    apply map_ext. intros tc. now rewrite !runTest_mocked by exact Hlang.
Qed.

Lemma X22_runTests_other_languages_are_mocked_witness :
  let results :=
    CodeAgent.runTests (fun _ _ _ => CodeAgent.Returned (Some (lit "[0,1]")))
      (lit "def solution(nums, target): return [0, 1]") (Some problemTwoSum)
      (lit "python") in
  map CodeAgent.cr_input results = map tc_input (testCasesOf problemTwoSum)
  /\ map CodeAgent.cr_expected results =
       map tc_expectedOutput (testCasesOf problemTwoSum)
  /\ Forall (fun r =>
               CodeAgent.cr_actual r = Some (lit "Mock result")
               /\ (CodeAgent.cr_passed r = true <->
                   CodeAgent.cr_expected r = lit "Mock result"))
            results
  /\ forall engine' code',
       CodeAgent.runTests engine' code' (Some problemTwoSum) (lit "python") =
         results.
Proof.
  apply (X22_runTests_other_languages_are_mocked
           (fun _ _ _ => CodeAgent.Returned (Some (lit "[0,1]")))
           (lit "def solution(nums, target): return [0, 1]") problemTwoSum
           (lit "python")).
  discriminate.
Defined.
